(** * realpls forensics library: shallow embedding and verified properties

    The TypeScript sources under [src/lib/forensics] are embedded as Rocq
    functions, one per source function and under its name.

    - JavaScript numbers are IEEE 754 binary64 values and are modelled by
      Rocq's primitive floats, so that comparisons with thresholds such as
      [0.3] or [0.02] round as they do in the library.  Numbers that are
      integers by construction (dimensions, indices, counters, byte values)
      are kept in [Z] and converted where the source divides them or
      stores them as details; the conversion is exact below 2^53.
    - Byte buffers ([Uint8Array], [Uint8ClampedArray]) are lists of [byte],
      [Float32Array]s are lists of floats rounded to binary32 on store.
      Reading past the end of an array yields [None], which stands for
      [undefined]; a typed-array store past the end is ignored.
    - [for] loops are folds over their index range that thread the
      variables the body assigns.
    - Asynchronous functions are computations over the trace of external
      events that resolve with a value or reject with the thrown value.
    - Built-ins whose tables lie outside the library (the digits of
      [toString] and [toFixed], the case mapping of [toLowerCase]) are
      parameters; the metadata stage, which rests on an external EXIF
      parser and on locale-dependent date formatting, is a parameter of
      the orchestrator.
    - Message texts are kept in ASCII: the few other characters of the
      sources (a multiplication sign, bullets) are transliterated. *)

From Stdlib Require Import ZArith List Bool Lia Floats.
From Stdlib Require Import Strings.String Strings.Ascii Strings.Byte.
From Stdlib Require Import Numbers.DecimalString.
Import ListNotations.

#[local] Set Warnings "-inexact-float".
#[local] Open Scope string_scope.
#[local] Open Scope list_scope.
#[local] Open Scope Z_scope.

(* ================================================================== *)
(** ** JavaScript numbers and typed arrays *)
(* ================================================================== *)

Module Js.

(** The binary64 number nearest to an integer (exact below 2^53). *)
Definition Z2F (z : Z) : float :=
  SF2Prim (binary_normalize prec emax z 0 false).

Definition nat2F (n : nat) : float := Z2F (Z.of_nat n).

Definition byteZ (b : byte) : Z := Z.of_N (Byte.to_N b).

Definition byte2F (b : byte) : float := Z2F (byteZ b).

(** [ToNumber(undefined)] is NaN: an out-of-range typed-array read used
    in arithmetic. *)
Definition num (o : option float) : float :=
  match o with Some v => v | None => nan end.

Definition numByte (o : option byte) : float :=
  match o with Some b => byte2F b | None => nan end.

Definition is_nan (x : float) : bool := negb (PrimFloat.eqb x x).

(** [a > b] on numbers. *)
Definition gtb (a b : float) : bool := PrimFloat.ltb b a.
Definition geb (a b : float) : bool := PrimFloat.leb b a.

Definition Math_abs (x : float) : float := PrimFloat.abs x.
Definition Math_sqrt (x : float) : float := PrimFloat.sqrt x.

(** [Math.pow(x, 2)]: engines evaluate an exponent of 2 as [x * x]. *)
Definition Math_pow2 (x : float) : float := PrimFloat.mul x x.

Definition is_neg_zero (x : float) : bool :=
  match Prim2SF x with S754_zero true => true | _ => false end.
Definition is_pos_zero (x : float) : bool :=
  match Prim2SF x with S754_zero false => true | _ => false end.

Definition Math_min (a b : float) : float :=
  if is_nan a || is_nan b then nan
  else if PrimFloat.ltb a b then a
  else if PrimFloat.ltb b a then b
  else if is_neg_zero a then a else b.

Definition Math_max (a b : float) : float :=
  if is_nan a || is_nan b then nan
  else if PrimFloat.ltb b a then a
  else if PrimFloat.ltb a b then b
  else if is_pos_zero a then a else b.

(** The integer part functions, on the exact value [m * 2^e]. *)
Definition floorZ (x : float) : option Z :=
  match Prim2SF x with
  | S754_zero _ => Some 0
  | S754_finite s m e =>
      let M := cond_Zopp s (Zpos m) in
      Some (if 0 <=? e then M * 2 ^ e else M / 2 ^ (- e))
  | _ => None
  end.

Definition Math_floor (x : float) : float :=
  match Prim2SF x with
  | S754_finite s m e =>
      if 0 <=? e then x else Z2F (cond_Zopp s (Zpos m) / 2 ^ (- e))
  | _ => x
  end.

(** [Math.round]: nearest integer, halves towards +infinity. *)
Definition Math_round (x : float) : float :=
  match Prim2SF x with
  | S754_finite s m e =>
      if 0 <=? e then x
      else
        let q := (2 * cond_Zopp s (Zpos m) + 2 ^ (- e)) / 2 ^ (- e + 1) in
        if (q =? 0) && s then neg_zero else Z2F q
  | _ => x
  end.

(** Storing a number into a [Float32Array] cell rounds it to binary32. *)
Definition fround (x : float) : float :=
  match Prim2SF x with
  | S754_finite s m e => SF2Prim (binary_round 24 128 s m e)
  | _ => x
  end.

(** Storing a number into a [Uint8ClampedArray] cell: NaN is 0, the
    value is clamped to 0..255 and rounded to nearest, halves to even. *)
Definition clampZ (x : float) : Z :=
  match Prim2SF x with
  | S754_infinity false => 255
  | S754_finite false m e =>
      if 0 <=? e then Z.min 255 (Zpos m * 2 ^ e)
      else
        let d := 2 ^ (- e) in
        let q := Zpos m / d in
        let r := Zpos m mod d in
        let n := if 2 * r <? d then q
                 else if d <? 2 * r then q + 1
                 else if Z.even q then q else q + 1 in
        Z.min 255 n
  | _ => 0
  end.

Definition toUint8Clamped (x : float) : byte :=
  match Byte.of_N (Z.to_N (clampZ x)) with
  | Some b => b
  | None => x00
  end.

(** [ToInt32]: the [| 0] and [<<] operators work modulo 2^32, signed. *)
Definition toInt32 (z : Z) : Z :=
  let r := z mod 2 ^ 32 in
  if r <? 2 ^ 31 then r else r - 2 ^ 32.

Definition shl32 (a : Z) (k : Z) : Z := toInt32 (Z.shiftl (toInt32 a) k).

(** Typed-array and array element access. *)
Definition get {A} (l : list A) (i : Z) : option A :=
  if i <? 0 then None else nth_error l (Z.to_nat i).

(** Typed-array stores outside the array are ignored. *)
Fixpoint set_nat {A} (l : list A) (i : nat) (v : A) : list A :=
  match l, i with
  | [], _ => []
  | _ :: t, O => v :: t
  | h :: t, S j => h :: set_nat t j v
  end.

Definition set {A} (l : list A) (i : Z) (v : A) : list A :=
  if i <? 0 then l else set_nat l (Z.to_nat i) v.

(** The index list of [for (let i = lo; i < hi; i++)]. *)
Definition range (lo hi : Z) : list Z :=
  map (fun k => lo + Z.of_nat k) (seq 0 (Z.to_nat (hi - lo))).

(** A [for] loop over [range] threading the loop state. *)
Definition for_ {S} (lo hi : Z) (body : Z -> S -> S) (s : S) : S :=
  fold_left (fun acc i => body i acc) (range lo hi) s.

(** Decimal rendering of an integer-valued number in a template
    string. *)
Definition showZ (z : Z) : string :=
  match z with
  | Z0 => "0"
  | Zpos p => NilZero.string_of_uint (Pos.to_uint p)
  | Zneg p => String "-" (NilZero.string_of_uint (Pos.to_uint p))
  end.

(** The built-in number formatters, whose digit generation is outside
    the library: [Number.prototype.toString] and
    [Number.prototype.toFixed]. *)
Class Format := {
  toString : float -> string;
  toFixed : float -> nat -> string;
}.

End Js.

Import Js.

(* ================================================================== *)
(** ** types.ts *)
(* ================================================================== *)

Inductive CheckStatus := ok | warn | fail | info.

Definition CheckStatus_eqb (a b : CheckStatus) : bool :=
  match a, b with
  | ok, ok | warn, warn | fail, fail | info, info => true
  | _, _ => false
  end.

(** A detail value: [string | number | boolean | null]. *)
Inductive Detail :=
| DStr (s : string)
| DNum (n : float)
| DBool (b : bool)
| DNull.

Record Region := {
  r_x : Z;
  r_y : Z;
  r_width : Z;
  r_height : Z;
  r_label : option string;
}.

(** [ImageData]: dimensions and RGBA bytes. *)
Record ImageData := {
  i_width : Z;
  i_height : Z;
  i_data : list byte;
}.

Record CheckResult := {
  id : string;
  name : string;
  status : CheckStatus;
  summary : string;
  details : list (string * Detail);
  confidence : float;
  notes : string;
  overlay : option ImageData;
  regions : option (list Region);
}.

(** The fields of [ImageFile] read by the checks.  [canvas] is the opaque
    handle passed to the re-encoder. *)
Record ImageFile := {
  f_name : string;
  f_type : string;
  f_size : Z;
  arrayBuffer : list byte;
  width : Z;
  height : Z;
  imageData : ImageData;
  canvas : nat;
}.

Inductive OverallStatus := clean | review | suspicious.

Record Summary := {
  okCount : nat;
  warnCount : nat;
  failCount : nat;
  infoCount : nat;
}.

Record ForensicReport := {
  filename : string;
  fileSize : Z;
  dimensions : Z * Z;
  mimeType : string;
  timestamp : string;
  checks : list CheckResult;
  overallStatus : OverallStatus;
  rsummary : Summary;
}.

(** [ExifData]: an open record, kept as its list of own keys and values. *)
Definition ExifData := list (string * Detail).

(** The signature table [FILE_SIGNATURES]. *)
Definition FILE_SIGNATURES : list (string * list byte) :=
  [ ("image/jpeg", [xff; xd8; xff]);
    ("image/png", [x89; x50; x4e; x47; x0d; x0a; x1a; x0a]);
    ("image/gif", [x47; x49; x46; x38]);
    ("image/webp", [x52; x49; x46; x46]) ].

Definition SOCIAL_MEDIA_DIMENSIONS : list (Z * string) :=
  [ (2048, "Facebook/Instagram");
    (1080, "Instagram");
    (1200, "Twitter");
    (1280, "Twitter/Telegram");
    (1600, "Various");
    (4096, "Twitter 4K") ].

(* ================================================================== *)
(** ** utils.ts *)
(* ================================================================== *)

(** [bytes[i] === v]; [undefined] equals no byte. *)
Definition byteIs (bytes : list byte) (i : Z) (v : byte) : bool :=
  match get bytes i with
  | Some b => Byte.eqb b v
  | None => false
  end.

Definition detectFileType (buffer : list byte) : option string :=
  let bytes := buffer in
  if byteIs bytes 0 xff && byteIs bytes 1 xd8 && byteIs bytes 2 xff then
    Some "image/jpeg"
  else if byteIs bytes 0 x89 && byteIs bytes 1 x50 && byteIs bytes 2 x4e
          && byteIs bytes 3 x47 then
    Some "image/png"
  else if byteIs bytes 0 x47 && byteIs bytes 1 x49 && byteIs bytes 2 x46
          && byteIs bytes 3 x38 then
    Some "image/gif"
  else if byteIs bytes 0 x52 && byteIs bytes 1 x49 && byteIs bytes 2 x46
          && byteIs bytes 3 x46 then
    if byteIs bytes 8 x57 && byteIs bytes 9 x45 && byteIs bytes 10 x42
       && byteIs bytes 11 x50 then
      Some "image/webp"
    else None
  else None.

(** [fileType === 'image/jpeg'] on the sniffer's answer. *)
Definition isJpeg (fileType : option string) : bool :=
  match fileType with
  | Some t => String.eqb t "image/jpeg"
  | None => false
  end.

(** [values.reduce((a, b) => a + b, 0)]. *)
Definition sum (values : list float) : float :=
  fold_left PrimFloat.add values 0%float.

Definition standardDeviation (values : list float) : float :=
  if (List.length values =? 0)%nat then 0%float
  else
    let mean := (sum values / nat2F (List.length values))%float in
    let squaredDiffs := map (fun v => Math_pow2 (v - mean)%float) values in
    Math_sqrt (sum squaredDiffs / nat2F (List.length values))%float.

Definition mean (values : list float) : float :=
  if (List.length values =? 0)%nat then 0%float
  else (sum values / nat2F (List.length values))%float.

(** The luminance of pixel [i] of an RGBA buffer. *)
Definition luminance (data : list byte) (i : Z) : float :=
  let idx := i * 4 in
  let r := numByte (get data idx) in
  let g := numByte (get data (idx + 1)) in
  let b := numByte (get data (idx + 2)) in
  (0.299 * r + 0.587 * g + 0.114 * b)%float.

(** The "convert to grayscale" loop filling a [Float32Array] of
    [width * height] cells; it appears verbatim in [applyLaplacian],
    [checkEdgeInconsistency] and [analyzeBlockBoundaries]. *)
Definition grayscale32 (width height : Z) (data : list byte) : list float :=
  map (fun i => fround (luminance data i)) (range 0 (width * height)).

(** A fresh [Float32Array(n)]. *)
Definition Float32Array (n : Z) : list float := repeat 0%float (Z.to_nat n).

Definition applyLaplacian (imageData : ImageData) : list float :=
  let width := i_width imageData in
  let height := i_height imageData in
  let data := i_data imageData in
  let result := Float32Array (width * height) in
  let gray := grayscale32 width height data in
  let g i := num (get gray i) in
  for_ 1 (height - 1) (fun y result =>
    for_ 1 (width - 1) (fun x result =>
      let idx := y * width + x in
      let '(c, l, r) := (g idx, g (idx - 1), g (idx + 1)) in
      let '(u, d) := (g (idx - width), g (idx + width)) in
      let laplacian := (-4 * c + l + r + u + d)%float in
      set result idx (fround (Math_abs laplacian))) result) result.

(** One heat-map pixel: the four bytes written for a normalized value. *)
Definition heatmapPixel (normalized : float) : list float :=
  let rgb :=
    if (normalized <? 0.25)%float then
      [0%float; Math_floor (normalized * 4 * 255)%float; 255%float]
    else if (normalized <? 0.5)%float then
      [0%float; 255%float;
       Math_floor ((1 - (normalized - 0.25) * 4) * 255)%float]
    else if (normalized <? 0.75)%float then
      [Math_floor ((normalized - 0.5) * 4 * 255)%float; 255%float; 0%float]
    else
      [255%float;
       Math_floor ((1 - (normalized - 0.75) * 4) * 255)%float; 0%float] in
  rgb ++ [(Math_floor (normalized * 200) + 55)%float].

(** Writes [vs] to consecutive cells of a [Uint8ClampedArray]. *)
Fixpoint setBytes (data : list byte) (idx : Z) (vs : list float) : list byte :=
  match vs with
  | [] => data
  | v :: rest => setBytes (set data idx (toUint8Clamped v)) (idx + 1) rest
  end.

Definition grayscaleToHeatmap (values : list float) (width height : Z)
    (normalize : bool) : ImageData :=
  let data := repeat x00 (Z.to_nat (4 * width * height)) in
  let maxVal :=
    if normalize then
      fold_left (fun maxVal v => if gtb v maxVal then v else maxVal)
        values 1%float
    else 1%float in
  let data :=
    for_ 0 (Z.of_nat (List.length values)) (fun i data =>
      let normalized := Math_min (num (get values i) / maxVal)%float 1 in
      setBytes data (i * 4) (heatmapPixel normalized)) data in
  {| i_width := width; i_height := height; i_data := data |}.

(** [hashBlock]: the 32-bit rolling hash of a block.  The source returns
    its hexadecimal rendering, an injective image used only as a map key;
    the embedding keeps the 32-bit integer. *)
Definition hashBlock (imageData : ImageData) (x y blockSize : Z) : Z :=
  let width := i_width imageData in
  let data := i_data imageData in
  for_ 0 blockSize (fun dy hash =>
    for_ 0 blockSize (fun dx hash =>
      let idx := (y + dy) * width + (x + dx) in
      let gray := Math_floor (luminance data idx) in
      let quantized := Math_floor (gray / 16)%float in
      match floorZ quantized with
      | Some q => toInt32 (shl32 hash 5 - hash + q)
      | None => 0
      end) hash) 0.

(** The outcome of the external re-encoder: a decoded buffer, or the
    value the promise was rejected with. *)
Inductive Thrown :=
| ErrorObject (message : string)
| OtherValue.

(* ================================================================== *)
(** ** compressionChecks.ts *)
(* ================================================================== *)

(** The quality computed from the DC coefficient [q0]. *)
Definition qualityFromQ0 (q0 : float) : float :=
  let quality :=
    if (q0 <? 2)%float then 98%float
    else if (q0 <? 10)%float then Math_round (100 - q0 * 2)%float
    else if (q0 <? 50)%float then Math_round (5000 / q0)%float
    else Math_round (200 - q0 * 2)%float in
  Math_max 1 (Math_min 100 quality).

(** [bytes[i]] as an operand of [<<] and [|]: [undefined] becomes 0. *)
Definition int32Byte (o : option byte) : Z :=
  match o with Some b => byteZ b | None => 0 end.

(** The segment length read at a marker found at offset [i]. *)
Definition segmentLength (bytes : list byte) (i : Z) : Z :=
  Z.lor (shl32 (int32Byte (get bytes (i + 2))) 8)
        (int32Byte (get bytes (i + 3))).

(** One iteration of the scan loop at offset [i]: [Some q] when the
    iteration returns [q], [None] when it falls through or continues. *)
Definition dqtStep (bytes : list byte) (i : Z) : option float :=
  if byteIs bytes i xff && byteIs bytes (i + 1) xdb then
    let length := segmentLength bytes i in
    if 67 <=? length then
      let tableStart := i + 5 in
      match get bytes tableStart with
      | None => None
      | Some q0 =>
          if Byte.eqb q0 x00 then None
          else Some (qualityFromQ0 (byte2F q0))
      end
    else None
  else None.

(** A loop whose body may return. *)
Fixpoint firstReturn {A} (body : Z -> option A) (l : list Z) : option A :=
  match l with
  | [] => None
  | i :: rest =>
      match body i with
      | Some r => Some r
      | None => firstReturn body rest
      end
  end.

Definition estimateJpegQuality (buffer : list byte) : option float :=
  let bytes := buffer in
  firstReturn (dqtStep bytes) (range 0 (Z.of_nat (List.length bytes) - 70)).

Definition getQualityLevel (quality : float) : string :=
  if geb quality 90 then "High"
  else if geb quality 75 then "Good"
  else if geb quality 50 then "Medium"
  else "Low".

Record BlockAnalysis := { boundaryStrength : float }.

(** [Math.floor(a / b)] on integers with a positive power-of-two [b] is
    exact floor division; the block sizes and strides are 8, 16 and 32. *)
Definition floorDiv (a b : Z) : Z := a / b.

Definition analyzeBlockBoundaries (imageData : ImageData) : BlockAnalysis :=
  let width := i_width imageData in
  let height := i_height imageData in
  let data := i_data imageData in
  if (width <? 16) || (height <? 16) then {| boundaryStrength := 0 |}
  else
    let gray := grayscale32 width height data in
    let g i := num (get gray i) in
    let '(boundaryGradients, innerGradients) :=
      for_ 1 (height - 1) (fun y acc =>
        for_ 1 (width - 1) (fun x '(boundaryGradients, innerGradients) =>
          let idx := y * width + x in
          let '(c, l, u) := (g idx, g (idx - 1), g (idx - width)) in
          let gradient := (Math_abs (c - l) + Math_abs (c - u))%float in
          if (Z.rem x 8 =? 0) || (Z.rem y 8 =? 0) then
            (boundaryGradients ++ [gradient], innerGradients)
          else if (Z.rem x 8 =? 4) && (Z.rem y 8 =? 4) then
            (boundaryGradients, innerGradients ++ [gradient])
          else (boundaryGradients, innerGradients)) acc)
        ([], []) in
    if (List.length boundaryGradients =? 0)%nat
       || (List.length innerGradients =? 0)%nat then
      {| boundaryStrength := 0 |}
    else
      let boundaryMean := mean boundaryGradients in
      let innerMean := mean innerGradients in
      let ratio :=
        if gtb innerMean 0 then (boundaryMean / innerMean)%float
        else 0%float in
      let strength := Math_min 1 (Math_max 0 ((ratio - 0.8) / 1.2)%float) in
      {| boundaryStrength := strength |}.

Record Uniformity := {
  uniformRatio : float;
  uniformMap : list (list float);
}.

(** The luminance values of block [(bx, by)], in push order. *)
Definition blockValues (data : list byte) (width blockSize bx by_ : Z)
    : list float :=
  for_ 0 blockSize (fun dy values =>
    for_ 0 blockSize (fun dx values =>
      let x := bx * blockSize + dx in
      let y := by_ * blockSize + dy in
      values ++ [luminance data (y * width + x)]) values) [].

Definition analyzeUniformity (imageData : ImageData) : Uniformity :=
  let width := i_width imageData in
  let height := i_height imageData in
  let data := i_data imageData in
  let blockSize := 16 in
  let blocksX := floorDiv width blockSize in
  let blocksY := floorDiv height blockSize in
  if (blocksX <? 2) || (blocksY <? 2) then
    {| uniformRatio := 0; uniformMap := [] |}
  else
    let '(uniformBlocks, totalBlocks, uniformMap) :=
      for_ 0 blocksY (fun by_ '(uniformBlocks, totalBlocks, uniformMap) =>
        let '(uniformBlocks, totalBlocks, row) :=
          for_ 0 blocksX (fun bx '(uniformBlocks, totalBlocks, row) =>
            let values := blockValues data width blockSize bx by_ in
            let variance := standardDeviation values in
            let uniformityScore := Math_max 0 (1 - variance / 10)%float in
            let uniformBlocks :=
              if (variance <? 3)%float then uniformBlocks + 1
              else uniformBlocks in
            (uniformBlocks, totalBlocks + 1, row ++ [uniformityScore]))
            (uniformBlocks, totalBlocks, []) in
        (uniformBlocks, totalBlocks, uniformMap ++ [row]))
        (0, 0, []) in
    {| uniformRatio :=
         if 0 <? totalBlocks then (Z2F uniformBlocks / Z2F totalBlocks)%float
         else 0%float;
       uniformMap := uniformMap |}.

Definition generateUniformAreasOverlay (imageData : ImageData)
    (uniformMap : list (list float)) : ImageData :=
  let width := i_width imageData in
  let height := i_height imageData in
  let blockSize := 16 in
  let row by_ := match get uniformMap by_ with Some r => r | None => [] end in
  let data :=
    for_ 0 (Z.of_nat (List.length uniformMap)) (fun by_ data =>
      for_ 0 (Z.of_nat (List.length (row by_))) (fun bx data =>
        let score := num (get (row by_) bx) in
        let r := Math_floor (score * 255)%float in
        let g := Math_floor ((1 - score) * 128)%float in
        let b := Math_floor ((1 - score) * 255)%float in
        let a := Math_floor (score * 200)%float in
        for_ 0 blockSize (fun dy data =>
          for_ 0 blockSize (fun dx data =>
            let x := bx * blockSize + dx in
            let y := by_ * blockSize + dy in
            if (x <? width) && (y <? height) then
              setBytes data ((y * width + x) * 4) [r; g; b; a]
            else data) data) data) data)
      (repeat x00 (Z.to_nat (4 * width * height))) in
  {| i_width := width; i_height := height; i_data := data |}.

Section CompressionChecks.
Context {fmt : Format}.

Definition checkJpegQuality (file : ImageFile) : option CheckResult :=
  let fileType := detectFileType (arrayBuffer file) in
  if negb (isJpeg fileType) then None
  else
    match estimateJpegQuality (arrayBuffer file) with
    | None =>
        Some {| id := "jpeg-quality";
                name := "JPEG Quality Analysis";
                status := info;
                summary := "Could not determine JPEG quality";
                details := [("Format", DStr "JPEG");
                            ("Quality Estimate", DStr "Unknown")];
                confidence := 0.3;
                notes := "Unable to extract quantization tables from this JPEG file.";
                overlay := None;
                regions := None |}
    | Some qualityEstimate =>
        let '(status, notes) :=
          if (qualityEstimate <? 50)%float then
            (warn, "Low quality JPEG. Heavy compression may obscure forensic analysis and suggests multiple resaves.")
          else if (qualityEstimate <? 75)%float then
            (info, "Medium quality JPEG. Some compression artifacts may be present.")
          else if (qualityEstimate <? 90)%float then
            (info, "Good quality JPEG. Minimal compression artifacts expected.")
          else
            (info, "High quality JPEG. Very little compression artifact expected.") in
        Some {| id := "jpeg-quality";
                name := "JPEG Quality Analysis";
                status := status;
                summary := ("Estimated quality: " ++ toString qualityEstimate
                            ++ "%")%string;
                details := [("Format", DStr "JPEG");
                            ("Quality Estimate",
                             DStr (toString qualityEstimate ++ "%")%string);
                            ("Quality Level",
                             DStr (getQualityLevel qualityEstimate))];
                confidence := 0.6;
                notes := notes;
                overlay := None;
                regions := None |}
    end.

Definition checkDoubleCompression (file : ImageFile) : option CheckResult :=
  let fileType := detectFileType (arrayBuffer file) in
  if negb (isJpeg fileType) then None
  else
    let blockAnalysis := analyzeBlockBoundaries (imageData file) in
    let '(status, summary, notes) :=
      if gtb (boundaryStrength blockAnalysis) 0.7 then
        (warn, "Strong block boundary artifacts detected",
         "EXPERIMENTAL: Pronounced 8x8 block boundaries may indicate double JPEG compression or heavy editing. However, this can also occur in low-quality JPEGs or after certain processing operations. Use with caution.")
      else if gtb (boundaryStrength blockAnalysis) 0.4 then
        (info, "Moderate block boundaries present",
         "Some JPEG block boundaries are visible, which is normal for JPEG compression. May indicate moderate compression quality.")
      else
        (info, "Block boundaries within normal range",
         "JPEG block boundaries are minimal, suggesting either high quality compression or non-JPEG source.") in
    Some {| id := "double-compression";
            name := "Compression Artifacts (Experimental)";
            status := status;
            summary := summary;
            details :=
              [("Block Boundary Strength",
                DStr (toFixed (boundaryStrength blockAnalysis * 100)%float 1
                      ++ "%")%string);
               ("Analysis Type", DStr "8x8 DCT Block Analysis")];
            confidence := 0.4;
            notes := notes;
            overlay := None;
            regions := None |}.

Definition checkUniformAreas (file : ImageFile) : CheckResult :=
  let analysis := analyzeUniformity (imageData file) in
  let status := info in
  let overlay :=
    generateUniformAreasOverlay (imageData file) (uniformMap analysis) in
  let '(status, summary, notes) :=
    if gtb (uniformRatio analysis) 0.3 then
      (warn,
       ("Large uniform areas detected ("
        ++ toFixed (uniformRatio analysis * 100)%float 0 ++ "%)")%string,
       "Significant portions of the image have very uniform color/texture. This can indicate editing (cloning, filling) but is also common in images with solid backgrounds, sky, or simple graphics.")
    else if gtb (uniformRatio analysis) 0.1 then
      (status,
       ("Some uniform areas present ("
        ++ toFixed (uniformRatio analysis * 100)%float 0 ++ "%)")%string,
       "Some uniform regions detected. This is often normal, especially in images with simple backgrounds.")
    else
      (status, "Natural texture variation throughout",
       "The image shows typical texture variation without suspicious uniform regions.") in
  {| id := "uniform-areas";
     name := "Uniform Area Analysis";
     status := status;
     summary := summary;
     details :=
       [("Uniform Ratio",
         DStr (toFixed (uniformRatio analysis * 100)%float 1 ++ "%")%string);
        ("Analysis", DStr "Texture variance per block")];
     confidence := 0.5;
     notes := notes;
     overlay := Some overlay;
     regions := None |}.

(** [if (r) results.push(r)] for an optional result. *)
Definition pushIf (results : list CheckResult) (r : option CheckResult)
    : list CheckResult :=
  match r with Some c => results ++ [c] | None => results end.

Definition runCompressionChecks (file : ImageFile) : list CheckResult :=
  let results := [] in
  let results := pushIf results (checkJpegQuality file) in
  let results := pushIf results (checkDoubleCompression file) in
  results ++ [checkUniformAreas file].

End CompressionChecks.

(* ================================================================== *)
(** ** pixelChecks.ts *)
(* ================================================================== *)

Definition mkRegion (x y blockSize : Z) (label : option string) : Region :=
  {| r_x := x; r_y := y; r_width := blockSize; r_height := blockSize;
     r_label := label |}.

(** The gradient magnitude at pixel index [idx]: the 3x3 Sobel responses
    [gx] and [gy] on the grayscale buffer. *)
Definition sobelMagnitude (gray : list float) (width idx : Z) : float :=
  let g i := num (get gray i) in
  let '(nw, n, ne) :=
    (g (idx - width - 1), g (idx - width), g (idx - width + 1)) in
  let '(w, e) := (g (idx - 1), g (idx + 1)) in
  let '(sw, s, se) :=
    (g (idx + width - 1), g (idx + width), g (idx + width + 1)) in
  let gx := (- nw + ne + -2 * w + 2 * e + - sw + se)%float in
  let gy := (- nw - 2 * n - ne + sw + 2 * s + se)%float in
  Math_sqrt (gx * gx + gy * gy)%float.

(** The edge map of [checkEdgeInconsistency]: a [Float32Array] filled at
    the interior pixels. *)
Definition sobelEdgeMap (width height : Z) (data : list byte) : list float :=
  let edgeMap := Float32Array (width * height) in
  let gray := grayscale32 width height data in
  for_ 1 (height - 1) (fun y edgeMap =>
    for_ 1 (width - 1) (fun x edgeMap =>
      let idx := y * width + x in
      set edgeMap idx (fround (sobelMagnitude gray width idx)))
      edgeMap) edgeMap.

(** The statistics loops of [checkEdgeInconsistency]. *)
Definition edgeSumCount (edgeMap : list float) : float * Z :=
  fold_left (fun '(edgeSum, edgeCount) v =>
               if gtb v 0 then ((edgeSum + v)%float, edgeCount + 1)
               else (edgeSum, edgeCount))
            edgeMap (0%float, 0).

Definition edgeVarianceSum (edgeMap : list float) (meanEdge : float) : float :=
  fold_left (fun varianceSum v =>
               if gtb v 0 then (varianceSum + Math_pow2 (v - meanEdge))%float
               else varianceSum)
            edgeMap 0%float.

Definition countStrongEdges (edgeMap : list float) (threshold : float) : Z :=
  fold_left (fun strongEdgeCount v =>
               if gtb v threshold then strongEdgeCount + 1
               else strongEdgeCount)
            edgeMap 0.

Record EdgeStats := {
  meanEdge : float;
  stdEdge : float;
  strongEdgeThreshold : float;
  strongEdgeCount : Z;
  strongEdgeRatio : float;
}.

Definition edgeStats (edgeMap : list float) (width height : Z) : EdgeStats :=
  let '(edgeSum, edgeCount) := edgeSumCount edgeMap in
  let meanEdge :=
    if 0 <? edgeCount then (edgeSum / Z2F edgeCount)%float else 0%float in
  let varianceSum := edgeVarianceSum edgeMap meanEdge in
  let stdEdge :=
    if 0 <? edgeCount then Math_sqrt (varianceSum / Z2F edgeCount)%float
    else 0%float in
  let strongEdgeThreshold := (meanEdge + 3 * stdEdge)%float in
  let strongEdgeCount := countStrongEdges edgeMap strongEdgeThreshold in
  {| meanEdge := meanEdge;
     stdEdge := stdEdge;
     strongEdgeThreshold := strongEdgeThreshold;
     strongEdgeCount := strongEdgeCount;
     strongEdgeRatio := (Z2F strongEdgeCount / Z2F (width * height))%float |}.

(** Two regions closer than [margin] on both axes. *)
Definition nearRegion (margin : Z) (region existing : Region) : bool :=
  (Z.abs (r_x region - r_x existing) <? margin)
  && (Z.abs (r_y region - r_y existing) <? margin).

Definition deduplicateRegions (regions : list Region) (margin : Z)
    : list Region :=
  fold_left (fun unique region =>
               let isDuplicate := existsb (nearRegion margin region) unique in
               if negb isDuplicate then unique ++ [region] else unique)
            regions [].

(** The insertion-ordered [Map] from block hash to positions. *)
Definition HashMap := list (Z * list (Z * Z)).

Fixpoint hashMapPush (m : HashMap) (hash : Z) (pos : Z * Z) : HashMap :=
  match m with
  | [] => [(hash, [pos])]
  | (k, positions) :: rest =>
      if k =? hash then (k, positions ++ [pos]) :: rest
      else (k, positions) :: hashMapPush rest hash pos
  end.

Definition buildHashMap (imageData : ImageData) (blocksX blocksY step blockSize : Z)
    : HashMap :=
  for_ 0 blocksY (fun by_ hashMap =>
    for_ 0 blocksX (fun bx hashMap =>
      let x := bx * step in
      let y := by_ * step in
      let hash := hashBlock imageData x y blockSize in
      hashMapPush hashMap hash (x, y)) hashMap) [].

(** The pair loop over one bucket of positions. *)
Definition bucketDuplicates (positions : list (Z * Z)) (blockSize minDistance : Z)
    (duplicateRegions : list Region) : list Region :=
  let n := Z.of_nat (List.length positions) in
  let pos i := match get positions i with Some p => p | None => (0, 0) end in
  if 1 <? n then
    for_ 0 n (fun i duplicateRegions =>
      for_ (i + 1) n (fun j duplicateRegions =>
        let dx := fst (pos i) - fst (pos j) in
        let dy := snd (pos i) - snd (pos j) in
        let distance := Math_sqrt (Z2F (dx * dx + dy * dy)) in
        if gtb distance (Z2F minDistance) then
          duplicateRegions
            ++ [mkRegion (fst (pos i)) (snd (pos i)) blockSize None;
                mkRegion (fst (pos j)) (snd (pos j)) blockSize None]
        else duplicateRegions) duplicateRegions) duplicateRegions
  else duplicateRegions.

Section PixelChecks.
Context {fmt : Format}.

(** The color-mapping function imported from [utils]; the checks are
    written against the import, [grayscaleToHeatmap] being the one the
    library links. *)
Variable heatmap : list float -> Z -> Z -> bool -> ImageData.

Definition checkNoiseConsistencyWith (file : ImageFile) : CheckResult :=
  let laplacian := applyLaplacian (imageData file) in
  let blockSize := 32 in
  let blocksX := floorDiv (width file) blockSize in
  let blocksY := floorDiv (height file) blockSize in
  if (blocksX <? 3) || (blocksY <? 3) then
    {| id := "noise-consistency";
       name := "Noise Consistency Analysis";
       status := info;
       summary := "Image too small for reliable noise analysis";
       details := [("Analysis", DStr "Skipped - insufficient resolution")];
       confidence := 0.2;
       notes := "The image is too small to perform meaningful noise consistency analysis.";
       overlay := None;
       regions := None |}
  else
    let '(blockEnergies, blockMap) :=
      for_ 0 blocksY (fun by_ '(blockEnergies, blockMap) =>
        let '(blockEnergies, row) :=
          for_ 0 blocksX (fun bx '(blockEnergies, row) =>
            let '(energy, count) :=
              for_ 0 blockSize (fun dy acc =>
                for_ 0 blockSize (fun dx '(energy, count) =>
                  let x := bx * blockSize + dx in
                  let y := by_ * blockSize + dy in
                  let idx := y * width file + x in
                  if idx <? Z.of_nat (List.length laplacian) then
                    ((energy + num (get laplacian idx))%float, count + 1)
                  else (energy, count)) acc) (0%float, 0) in
            let avgEnergy :=
              if 0 <? count then (energy / Z2F count)%float else 0%float in
            (blockEnergies ++ [avgEnergy], row ++ [avgEnergy]))
            (blockEnergies, []) in
        (blockEnergies, blockMap ++ [row])) ([], []) in
    let meanEnergy := mean blockEnergies in
    let stdEnergy := standardDeviation blockEnergies in
    let outlierThreshold := 2.5%float in
    let outlierBlocks :=
      for_ 0 blocksY (fun by_ outlierBlocks =>
        for_ 0 blocksX (fun bx outlierBlocks =>
          let row := match get blockMap by_ with
                     | Some r => r | None => [] end in
          let energy := num (get row bx) in
          let zScore :=
            if gtb stdEnergy 0 then
              (Math_abs (energy - meanEnergy) / stdEnergy)%float
            else 0%float in
          if gtb zScore outlierThreshold then
            outlierBlocks
              ++ [mkRegion (bx * blockSize) (by_ * blockSize) blockSize
                    (Some ("Z-score: " ++ toFixed zScore 1)%string)]
          else outlierBlocks) outlierBlocks) [] in
    let overlay := heatmap laplacian (width file) (height file) true in
    let outlierRatio :=
      (nat2F (List.length outlierBlocks)
       / nat2F (List.length blockEnergies))%float in
    let nOutliers := showZ (Z.of_nat (List.length outlierBlocks)) in
    let '(status, summary, notes) :=
      if gtb outlierRatio 0.15 then
        (warn,
         ("Significant noise inconsistencies detected (" ++ nOutliers
          ++ " regions)")%string,
         "Multiple regions show significantly different noise/texture characteristics. This could indicate editing, compositing, or different image sources. However, it can also occur naturally at boundaries between textured and smooth areas.")
      else if gtb outlierRatio 0.05 then
        (info,
         ("Some noise variation detected (" ++ nOutliers
          ++ " regions)")%string,
         "A few regions show different noise characteristics. This is often normal and can occur at natural boundaries in images.")
      else
        (ok, "Noise characteristics appear consistent",
         "The image shows relatively uniform noise characteristics throughout, which is expected for unedited photos.") in
    {| id := "noise-consistency";
       name := "Noise Consistency Analysis";
       status := status;
       summary := summary;
       details :=
         [("Blocks Analyzed", DNum (nat2F (List.length blockEnergies)));
          ("Outlier Blocks", DNum (nat2F (List.length outlierBlocks)));
          ("Outlier Ratio",
           DStr (toFixed (outlierRatio * 100)%float 1 ++ "%")%string);
          ("Mean Energy", DStr (toFixed meanEnergy 2));
          ("Std Dev", DStr (toFixed stdEnergy 2))];
       confidence := 0.6;
       notes := notes;
       overlay := Some overlay;
       regions := Some outlierBlocks |}.

Definition checkEdgeInconsistencyWith (file : ImageFile) : CheckResult :=
  let data := i_data (imageData file) in
  let edgeMap := sobelEdgeMap (width file) (height file) data in
  let stats := edgeStats edgeMap (width file) (height file) in
  let overlay := heatmap edgeMap (width file) (height file) true in
  let '(status, summary, notes) :=
    if gtb (strongEdgeRatio stats) 0.02 then
      (info, "Contains sharp edges worth reviewing",
       "The image contains notable sharp edges. Sharp edges can indicate artificial boundaries from editing, but are also common in high-contrast photos, text, or graphics.")
    else
      (ok, "Edge characteristics appear natural",
       "Edge distribution appears typical for a natural photograph.") in
  {| id := "edge-consistency";
     name := "Edge Analysis";
     status := status;
     summary := summary;
     details :=
       [("Mean Edge Strength", DStr (toFixed (meanEdge stats) 2));
        ("Strong Edge Ratio",
         DStr (toFixed (strongEdgeRatio stats * 100)%float 2 ++ "%")%string)];
     confidence := 0.5;
     notes := notes;
     overlay := Some overlay;
     regions := None |}.

Definition checkCloneDetection (file : ImageFile) (deepScan : bool)
    : CheckResult :=
  let blockSize := if deepScan then 16 else 32 in
  let step := if deepScan then 8 else 16 in
  let blocksX := floorDiv (width file - blockSize) step in
  let blocksY := floorDiv (height file - blockSize) step in
  if (blocksX <? 4) || (blocksY <? 4) then
    {| id := "clone-detection";
       name := "Clone Detection";
       status := info;
       summary := "Image too small for clone analysis";
       details := [("Analysis", DStr "Skipped - insufficient resolution")];
       confidence := 0.2;
       notes := "The image is too small to perform meaningful clone detection.";
       overlay := None;
       regions := None |}
  else
    let hashMap :=
      buildHashMap (imageData file) blocksX blocksY step blockSize in
    let minDistance := blockSize * 2 in
    let duplicateRegions :=
      fold_left (fun duplicateRegions '(_, positions) =>
                   bucketDuplicates positions blockSize minDistance
                     duplicateRegions)
                hashMap [] in
    let uniqueRegions := deduplicateRegions duplicateRegions blockSize in
    let nUnique := Z.of_nat (List.length uniqueRegions) in
    let '(status, summary, notes) :=
      if 10 <? nUnique then
        (warn,
         ("Potential cloned regions detected (" ++ showZ nUnique
          ++ " matches)")%string,
         "Multiple similar regions found that are spatially separated. This could indicate copy-paste editing. However, patterns, textures, and repeated elements in scenes can cause false positives.")
      else if 0 <? nUnique then
        (info,
         ("Some similar regions found (" ++ showZ nUnique
          ++ " matches)")%string,
         "A few similar regions were detected. This is often caused by natural patterns or textures in the image.")
      else
        (ok, "No obvious cloned regions detected",
         "No significantly similar regions found. This doesn't guarantee no cloning occurred, as sophisticated edits may not be detected.") in
    {| id := "clone-detection";
       name := if deepScan then "Clone Detection (Deep Scan)"
               else "Clone Detection";
       status := status;
       summary := summary;
       details :=
         [("Scan Type",
           DStr (if deepScan then "Deep (slower, more thorough)"
                 else "Quick"));
          ("Block Size", DStr (showZ blockSize ++ "px")%string);
          ("Matches Found", DNum (Z2F nUnique));
          ("Blocks Analyzed", DNum (Z2F (blocksX * blocksY)))];
       confidence := if deepScan then 0.6 else 0.4;
       notes := notes;
       overlay := None;
       regions := Some uniqueRegions |}.

Definition runPixelChecksWith (file : ImageFile) (deepCloneScan : bool)
    : list CheckResult :=
  [ checkNoiseConsistencyWith file;
    checkEdgeInconsistencyWith file;
    checkCloneDetection file deepCloneScan ].

End PixelChecks.

Definition checkNoiseConsistency {fmt : Format} : ImageFile -> CheckResult :=
  checkNoiseConsistencyWith grayscaleToHeatmap.

Definition checkEdgeInconsistency {fmt : Format} : ImageFile -> CheckResult :=
  checkEdgeInconsistencyWith grayscaleToHeatmap.

Definition runPixelChecks {fmt : Format} : ImageFile -> bool -> list CheckResult :=
  runPixelChecksWith grayscaleToHeatmap.

(* ================================================================== *)
(** ** Effects: external calls and rejected promises *)
(* ================================================================== *)

(** What a run does to the outside world, in order: calls of the external
    re-encoder and notifications of the progress sink. *)
Inductive Event :=
| Reencode (canvas : nat) (quality : float)
| Progress (stage : string) (progress : Z).

(** An asynchronous computation: it extends the event trace and either
    resolves with a value or rejects with a thrown value. *)
Definition Async (A : Type) : Type := list Event -> (Thrown + A) * list Event.

Definition ret {A} (a : A) : Async A := fun tr => (inr a, tr).

Definition throw {A} (e : Thrown) : Async A := fun tr => (inl e, tr).

Definition bind {A B} (m : Async A) (k : A -> Async B) : Async B :=
  fun tr =>
    match m tr with
    | (inl e, tr') => (inl e, tr')
    | (inr a, tr') => k a tr'
    end.

(** [try { body } catch (error) { handler }]. *)
Definition tryCatch {A} (body : Async A) (handler : Thrown -> Async A)
    : Async A :=
  fun tr =>
    match body tr with
    | (inl e, tr') => handler e tr'
    | (inr a, tr') => (inr a, tr')
    end.

Definition emit (ev : Event) : Async unit := fun tr => (inr tt, tr ++ [ev]).

Notation "x <- m ;; k" := (bind m (fun x => k))
  (at level 61, m at next level, right associativity).
Notation "m ;;; k" := (bind m (fun _ => k))
  (at level 61, right associativity).

(* ================================================================== *)
(** ** elaCheck.ts *)
(* ================================================================== *)

Definition ELA_QUALITY : Z := 90.

(** The per-pixel difference loop of [performELA]. *)
Definition elaDiffs (originalData reencodedData : list byte) (n : Z)
    : list float * float * float :=
  for_ 0 n (fun i '(diffValues, maxDiff, totalDiff) =>
    let idx := i * 4 in
    let chan k :=
      Math_abs (numByte (get originalData (idx + k))
                - numByte (get reencodedData (idx + k)))%float in
    let '(diffR, diffG, diffB) := (chan 0, chan 1, chan 2) in
    let diff := ((diffR + diffG + diffB) / 3)%float in
    (set diffValues i (fround diff),
     if gtb diff maxDiff then diff else maxDiff,
     (totalDiff + diff)%float))
    (Float32Array n, 0%float, 0%float).

Definition elaNotes : string :=
  "IMPORTANT CAVEATS: ELA results are highly prone to false positives. Previously compressed/resaved images will show varied ELA regardless of editing. Social media reuploads typically produce noisy ELA results. Solid colors and smooth gradients naturally show different error levels than textured areas. ELA cannot definitively prove or disprove image manipulation. Use ELA as ONE data point among many, never as sole evidence. The overlay shows areas of higher error (potential edits) in warm colors. Look for unusual patterns that don't correspond to the image content, but interpret with extreme caution.".

Section ELA.
Context {fmt : Format}.

(** The external re-encoder (canvas to JPEG blob and back). *)
Variable reencoder : nat -> float -> Thrown + ImageData.

Definition reencodeJpeg (canvas : nat) (quality : float) : Async ImageData :=
  fun tr => (reencoder canvas quality, tr ++ [Reencode canvas quality]).

(** The result returned for a non-JPEG file. *)
Definition elaNotApplicable (fileType : option string) : CheckResult :=
  {| id := "ela";
     name := "Error Level Analysis";
     status := info;
     summary := "ELA not applicable (non-JPEG)";
     details :=
       [("Format", DStr (match fileType with
                         | Some t => if String.eqb t "" then "Unknown" else t
                         | None => "Unknown"
                         end));
        ("Note", DStr "ELA is designed for JPEG images")];
     confidence := 0.3;
     notes := "Error Level Analysis is most meaningful for JPEG images. For PNG or other formats, the analysis would not provide useful results.";
     overlay := None;
     regions := None |}.

(** The result returned by the [catch] block. *)
Definition elaFailed (error : Thrown) : CheckResult :=
  {| id := "ela";
     name := "Error Level Analysis";
     status := info;
     summary := "ELA analysis failed";
     details :=
       [("Error", DStr (match error with
                        | ErrorObject message => message
                        | OtherValue => "Unknown error"
                        end))];
     confidence := 0.1;
     notes := "Could not perform Error Level Analysis. This may be due to image format issues or browser limitations.";
     overlay := None;
     regions := None |}.

(** The analysis after a successful re-encoding. *)
Definition elaAnalyze (file : ImageFile) (reencoded : ImageData)
    : CheckResult :=
  let originalData := i_data (imageData file) in
  let reencodedData := i_data reencoded in
  let width := width file in
  let height := height file in
  let '(diffValues, maxDiff, totalDiff) :=
    elaDiffs originalData reencodedData (width * height) in
  let avgDiff := (totalDiff / Z2F (width * height))%float in
  let variance :=
    fold_left (fun variance d => (variance + Math_pow2 (d - avgDiff))%float)
              diffValues 0%float in
  let variance :=
    Math_sqrt (variance / nat2F (List.length diffValues))%float in
  let scale := if gtb maxDiff 0 then (255 / maxDiff)%float else 1%float in
  let scaledDiff :=
    map (fun d => fround (Math_min (d * scale * 2)%float 255)) diffValues in
  let overlay := grayscaleToHeatmap scaledDiff width height false in
  let '(status, summary) :=
    if gtb variance 20 then
      (warn, "ELA shows notable variation (review recommended)")
    else (info, "ELA shows relatively uniform error levels") in
  {| id := "ela";
     name := "Error Level Analysis";
     status := status;
     summary := summary;
     details :=
       [("Re-encode Quality", DStr (showZ ELA_QUALITY ++ "%")%string);
        ("Average Difference", DStr (toFixed avgDiff 2));
        ("Max Difference", DStr (toFixed maxDiff 2));
        ("Variance", DStr (toFixed variance 2))];
     confidence := 0.4;
     notes := elaNotes;
     overlay := Some overlay;
     regions := None |}.

Definition performELA (file : ImageFile) : Async (option CheckResult) :=
  let fileType := detectFileType (arrayBuffer file) in
  if negb (isJpeg fileType) then ret (Some (elaNotApplicable fileType))
  else
    tryCatch
      (reencoded <- reencodeJpeg (canvas file) (Z2F ELA_QUALITY / 100)%float ;;
       ret (Some (elaAnalyze file reencoded)))
      (fun error => ret (Some (elaFailed error))).

Definition runELACheck (file : ImageFile) : Async (list CheckResult) :=
  result <- performELA file ;;
  ret (match result with Some r => [r] | None => [] end).

End ELA.

(* ================================================================== *)
(** ** socialMediaHint.ts *)
(* ================================================================== *)

(** The loop over [SOCIAL_MEDIA_DIMENSIONS], which stops at the first
    exact or near match: the signal text and the score increment. *)
Fixpoint dimensionSignal (maxDim : Z) (patterns : list (Z * string))
    : option (string * Z) :=
  match patterns with
  | [] => None
  | (pwidth, platform) :: rest =>
      if maxDim =? pwidth then
        Some (("Max dimension " ++ showZ pwidth ++ "px (common for "
               ++ platform ++ ")")%string, 2)
      else if Z.abs (maxDim - pwidth) <? 10 then
        Some (("Max dimension ~" ++ showZ pwidth ++ "px (close to "
               ++ platform ++ " limit)")%string, 1)
      else dimensionSignal maxDim rest
  end.

Definition nearRatio (aspectRatio target tolerance : float) : bool :=
  (Math_abs (aspectRatio - target) <? tolerance)%float.

Section SocialMediaHint.
Context {fmt : Format}.

(** The signal list and the score accumulated by the four checks. *)
Definition socialSignals (file : ImageFile) (exifData : option ExifData)
    (jpegQuality : option float) : list string * Z :=
  let signals : list string := [] in
  let score := 0 in
  (* Check 1 *)
  let '(signals, score) :=
    if match exifData with
       | None => true
       | Some e => (List.length e =? 0)%nat
       end
    then (signals ++ ["No EXIF metadata (stripped by most platforms)"],
          score + 2)
    else (signals, score) in
  (* Check 2 *)
  let maxDim := Z.max (width file) (height file) in
  let '(signals, score) :=
    match dimensionSignal maxDim SOCIAL_MEDIA_DIMENSIONS with
    | Some (signal, points) => (signals ++ [signal], score + points)
    | None => (signals, score)
    end in
  (* Check 3 *)
  let fileType := detectFileType (arrayBuffer file) in
  let '(signals, score) :=
    match jpegQuality with
    | Some jpegQuality =>
        if isJpeg fileType then
          let '(signals, score) :=
            if (jpegQuality <? 85)%float then
              (signals ++ [("JPEG quality ~" ++ toString jpegQuality
                            ++ "% (social platforms often recompress)")%string],
               score + 1)
            else (signals, score) in
          if (jpegQuality <? 70)%float then (signals, score + 1)
          else (signals, score)
        else (signals, score)
    | None => (signals, score)
    end in
  (* Check 4 *)
  let aspectRatio := (Z2F (width file) / Z2F (height file))%float in
  let '(signals, score) :=
    if nearRatio aspectRatio 1.0 0.01 then
      (signals ++ ["Square aspect ratio (1:1) - common on Instagram"],
       score + 1)
    else (signals, score) in
  let '(signals, score) :=
    if nearRatio aspectRatio 0.8 0.02 || nearRatio aspectRatio 1.25 0.02 then
      (signals ++ ["4:5 or 5:4 aspect ratio - common on Instagram"],
       score + 1)
    else (signals, score) in
  let '(signals, score) :=
    if nearRatio aspectRatio 1.778 0.02
       || nearRatio aspectRatio 0.5625 0.02 then
      (signals ++ ["16:9 aspect ratio - common for video thumbnails"],
       score + 1)
    else (signals, score) in
  (signals, score).

(** [signals.forEach((signal, idx) => details[`Signal ${idx + 1}`] = signal)]. *)
Fixpoint signalDetails (signals : list string) (idx : Z)
    : list (string * Detail) :=
  match signals with
  | [] => []
  | signal :: rest =>
      (("Signal " ++ showZ (idx + 1))%string, DStr signal)
        :: signalDetails rest (idx + 1)
  end.

Definition checkSocialMediaHint (file : ImageFile)
    (exifData : option ExifData) (jpegQuality : option float) : CheckResult :=
  let '(signals, score) := socialSignals file exifData jpegQuality in
  let '(status, summary, confidence) :=
    if 4 <=? score then
      (info, "Likely re-shared through social media", 0.7%float)
    else if 2 <=? score then
      (info, "Some signs of possible social media sharing", 0.5%float)
    else
      (ok, "No strong indicators of social media reupload", 0.4%float) in
  let details :=
    [("Detection Score", DStr (showZ score ++ "/8")%string);
     ("Signals Found", DNum (nat2F (List.length signals)))]
      ++ signalDetails signals 0 in
  {| id := "social-media-hint";
     name := "Social Media Detection";
     status := status;
     summary := summary;
     details := details;
     confidence := confidence;
     notes :=
       if 2 <=? score then
         "This image shows characteristics commonly associated with social media reuploads. Social platforms typically strip metadata, resize images, and recompress them. This is informational only and doesn't indicate manipulation."
       else
         "No strong indicators that this image has been shared through social media. The metadata and dimensions don't match common social media patterns.";
     overlay := None;
     regions := None |}.

Definition runSocialMediaCheck (file : ImageFile)
    (exifData : option ExifData) (jpegQuality : option float)
    : list CheckResult :=
  [checkSocialMediaHint file exifData jpegQuality].

End SocialMediaHint.

(* ================================================================== *)
(** ** pipeline.ts *)
(* ================================================================== *)

Record PipelineOptions := {
  deepCloneScan : option bool;
  onProgress : bool;   (* whether a progress sink was supplied *)
}.

(** [allChecks.filter(c => c.status === s).length]. *)
Definition countStatus (s : CheckStatus) (allChecks : list CheckResult) : nat :=
  List.length (filter (fun c => CheckStatus_eqb (status c) s) allChecks).

Definition summarize (allChecks : list CheckResult) : Summary :=
  {| okCount := countStatus ok allChecks;
     warnCount := countStatus warn allChecks;
     failCount := countStatus fail allChecks;
     infoCount := countStatus info allChecks |}.

(** The "determine overall status" step. *)
Definition determineOverall (summary : Summary) : OverallStatus :=
  let overallStatus := clean in
  if (0 <? failCount summary)%nat || (3 <=? warnCount summary)%nat then
    suspicious
  else if (0 <? warnCount summary)%nat then review
  else overallStatus.

(** JavaScript truthiness of a detail value. *)
Definition truthy (d : option Detail) : bool :=
  match d with
  | Some (DStr s) => negb (String.eqb s "")
  | Some (DNum n) => negb (is_nan n || PrimFloat.eqb n 0)
  | Some (DBool b) => b
  | Some DNull | None => false
  end.

Fixpoint lookup (key : string) (details : list (string * Detail))
    : option Detail :=
  match details with
  | [] => None
  | (k, v) :: rest => if String.eqb k key then Some v else lookup key rest
  end.

(** [parseInt] on an unsigned decimal prefix; NaN when there is none. *)
Fixpoint leadingDigits (s : string) (acc : option Z) : option Z :=
  match s with
  | EmptyString => acc
  | String c rest =>
      let n := Z.of_nat (nat_of_ascii c) in
      if (48 <=? n) && (n <=? 57) then
        leadingDigits rest
          (Some (10 * match acc with Some a => a | None => 0 end + (n - 48)))
      else acc
  end.

Definition parseInt (s : string) : float :=
  match leadingDigits s None with
  | Some n => Z2F n
  | None => nan
  end.

Definition getStatusMessage (status : OverallStatus) : string :=
  match status with
  | clean => "No strong signs of editing"
  | review => "Some signals worth reviewing"
  | suspicious => "Multiple anomalies detected"
  end.

Section Pipeline.
Context {fmt : Format}.

(** What the orchestrator receives from outside: the file/container
    stage (the library links [runFileChecks] of fileChecks.ts, embedded
    further down), the metadata stage with its EXIF parser, the
    re-encoder and the clock. *)
Variable runFileChecks : ImageFile -> list CheckResult.
Variable runMetadataChecks : ImageFile -> list CheckResult.
Variable extractExif : ImageFile -> option ExifData.
Variable reencoder : nat -> float -> Thrown + ImageData.
Variable now : string.

Definition notify (options : PipelineOptions) (stage : string) (progress : Z)
    : Async unit :=
  if onProgress options then emit (Progress stage progress) else ret tt.

Definition runForensicPipeline (imageFile : ImageFile)
    (options : PipelineOptions) : Async ForensicReport :=
  let deepCloneScan :=
    match deepCloneScan options with Some b => b | None => false end in
  let allChecks : list CheckResult := [] in
  (* Stage 1 *)
  notify options "Analyzing file structure..." 10 ;;;
  let fileResults := runFileChecks imageFile in
  let allChecks := allChecks ++ fileResults in
  (* Stage 2 *)
  notify options "Extracting metadata..." 25 ;;;
  let metadataResults := runMetadataChecks imageFile in
  let allChecks := allChecks ++ metadataResults in
  let exifData := extractExif imageFile in
  (* Stage 3 *)
  notify options "Analyzing compression..." 40 ;;;
  let compressionResults := runCompressionChecks imageFile in
  let allChecks := allChecks ++ compressionResults in
  let jpegQualityResult :=
    find (fun r => String.eqb (id r) "jpeg-quality") compressionResults in
  let jpegQuality :=
    match jpegQualityResult with
    | Some r =>
        if truthy (lookup "Quality Estimate" (details r)) then
          match lookup "Quality Estimate" (details r) with
          | Some (DStr s) => Some (parseInt s)
          | _ => None
          end
        else None
    | None => None
    end in
  (* Stage 4 *)
  notify options "Analyzing pixel consistency..." 55 ;;;
  let pixelResults := runPixelChecks imageFile deepCloneScan in
  let allChecks := allChecks ++ pixelResults in
  (* Stage 5 *)
  notify options "Performing Error Level Analysis..." 75 ;;;
  elaResults <- runELACheck reencoder imageFile ;;
  let allChecks := allChecks ++ elaResults in
  (* Stage 6 *)
  notify options "Checking for social media patterns..." 90 ;;;
  let socialResults := runSocialMediaCheck imageFile exifData jpegQuality in
  let allChecks := allChecks ++ socialResults in
  let summary := summarize allChecks in
  let overallStatus := determineOverall summary in
  notify options "Analysis complete" 100 ;;;
  ret {| filename := f_name imageFile;
         fileSize := f_size imageFile;
         dimensions := (width imageFile, height imageFile);
         mimeType :=
           if negb (String.eqb (f_type imageFile) "") then f_type imageFile
           else match detectFileType (arrayBuffer imageFile) with
                | Some t => t
                | None => "unknown"
                end;
         timestamp := now;
         checks := allChecks;
         overallStatus := overallStatus;
         rsummary := summary |}.

(** [pixelChecks.find(c => c.id === 'clone-detection')!]: [None] is the
    missing-element outcome that the non-null assertion rules out. *)
Definition runDeepCloneScan (imageFile : ImageFile) : option CheckResult :=
  let pixelChecks := runPixelChecks imageFile true in
  find (fun c => String.eqb (id c) "clone-detection") pixelChecks.

End Pipeline.

(* ================================================================== *)
(** ** utils.ts: animation probes and size formatting *)
(* ================================================================== *)

(** A loop whose body may return and otherwise updates the loop state. *)
Fixpoint firstReturnWith {S A} (body : Z -> S -> S + A) (l : list Z) (s : S)
    : S + A :=
  match l with
  | [] => inl s
  | i :: rest =>
      match body i s with
      | inr r => inr r
      | inl s' => firstReturnWith body rest s'
      end
  end.

(** A Graphic Control Extension introducer (21 F9) at offset [i]. *)
Definition gceAt (bytes : list byte) (i : Z) : bool :=
  byteIs bytes i x21 && byteIs bytes (i + 1) xf9.

Definition isAnimatedGif (buffer : list byte) : bool :=
  let bytes := buffer in
  match
    firstReturnWith (fun i frameCount =>
        if gceAt bytes i then
          let frameCount := frameCount + 1 in
          if 1 <? frameCount then inr true else inl frameCount
        else inl frameCount)
      (range 0 (Z.of_nat (List.length bytes) - 3)) 0
  with
  | inr r => r
  | inl _ => false
  end.

(** The chunk tag "ANIM" at offset [i]. *)
Definition animAt (bytes : list byte) (i : Z) : bool :=
  byteIs bytes i x41 && byteIs bytes (i + 1) x4e
  && byteIs bytes (i + 2) x49 && byteIs bytes (i + 3) x4d.

Definition isAnimatedWebP (buffer : list byte) : bool :=
  let bytes := buffer in
  match
    firstReturn (fun i => if animAt bytes i then Some true else None)
      (range 0 (Z.of_nat (List.length bytes) - 4))
  with
  | Some r => r
  | None => false
  end.

Section FormatFileSize.
Context {fmt : Format}.

Definition formatFileSize (bytes : Z) : string :=
  if bytes <? 1024 then (showZ bytes ++ " B")%string
  else if bytes <? 1024 * 1024 then
    (toFixed (Z2F bytes / 1024)%float 1 ++ " KB")%string
  else (toFixed (Z2F bytes / (1024 * 1024))%float 2 ++ " MB")%string.

End FormatFileSize.

(* ================================================================== *)
(** ** fileChecks.ts *)
(* ================================================================== *)

(** [s.split(sep)] for a one-character separator. *)
Fixpoint split (sep : ascii) (s : string) : list string :=
  match s with
  | EmptyString => [EmptyString]
  | String c rest =>
      if Ascii.eqb c sep then EmptyString :: split sep rest
      else
        match split sep rest with
        | segment :: segments => String c segment :: segments
        | [] => [String c EmptyString]
        end
  end.

(** [array.pop()]: the last element, [undefined] on an empty array. *)
Definition pop {A} (l : list A) : option A :=
  match rev l with
  | [] => None
  | x :: _ => Some x
  end.

(** The value of a property read [object[key]] on an object literal: an
    own property, a member inherited from [Object.prototype], or
    [undefined]. *)
Inductive Property :=
| Own (value : string)
| Inherited
| Undefined.

(** The property names of [Object.prototype]. *)
Definition OBJECT_PROTOTYPE_KEYS : list string :=
  [ "constructor"; "hasOwnProperty"; "isPrototypeOf"; "propertyIsEnumerable";
    "toLocaleString"; "toString"; "valueOf"; "__proto__";
    "__defineGetter__"; "__defineSetter__"; "__lookupGetter__";
    "__lookupSetter__" ].

Definition extensionToMime (extension : string) : Property :=
  if String.eqb extension "jpg" then Own "image/jpeg"
  else if String.eqb extension "jpeg" then Own "image/jpeg"
  else if String.eqb extension "png" then Own "image/png"
  else if String.eqb extension "gif" then Own "image/gif"
  else if String.eqb extension "webp" then Own "image/webp"
  else if existsb (String.eqb extension) OBJECT_PROTOTYPE_KEYS then Inherited
  else Undefined.

(** Truthiness of a [string | null | undefined]. *)
Definition nonEmpty (s : option string) : bool :=
  match s with
  | Some t => negb (String.eqb t "")
  | None => false
  end.

(** [a || fallback] on such a value. *)
Definition orElse (s : option string) (fallback : string) : string :=
  match s with
  | Some t => if String.eqb t "" then fallback else t
  | None => fallback
  end.

(** A [string | null | undefined] inside a template string. *)
Definition template (s : option string) (absent : string) : string :=
  match s with
  | Some t => t
  | None => absent
  end.

(** [detectedType === declaredType]. *)
Definition sameType (detectedType : option string) (declaredType : string)
    : bool :=
  match detectedType with
  | Some t => String.eqb t declaredType
  | None => false
  end.

(** The loop index list of [for (let i = lo; i < hi; i += step)]. *)
Definition rangeBy (lo hi step : Z) : list Z :=
  map (fun k => lo + step * Z.of_nat k)
      (seq 0 (Z.to_nat ((hi - lo + step - 1) / step))).

Definition checkAlphaChannel (imageData : ImageData) : bool :=
  let data := i_data imageData in
  match
    firstReturn (fun i =>
        match get data i with
        | Some b => if byteZ b <? 255 then Some true else None
        | None => None
        end)
      (rangeBy 3 (Z.of_nat (List.length data)) 4)
  with
  | Some r => r
  | None => false
  end.

Section FileChecks.
Context {fmt : Format}.

(** [String.prototype.toLowerCase], whose case tables are outside the
    library. *)
Variable toLowerCase : string -> string.

Definition checkFileType (file : ImageFile) : CheckResult :=
  let detectedType := detectFileType (arrayBuffer file) in
  let declaredType := f_type file in
  let extension :=
    match pop (split "." (f_name file)) with
    | Some e => Some (toLowerCase e)
    | None => None
    end in
  let expectedFromExt :=
    if nonEmpty extension then extensionToMime (orElse extension "")
    else Undefined in
  let '(status, summary, notes) :=
    if negb (nonEmpty detectedType) then
      (warn, "Could not verify file type from magic bytes",
       "The file signature could not be recognized. This may indicate a corrupted or unusual file format.")
    else if negb (sameType detectedType declaredType)
            && negb (String.eqb declaredType "") then
      (warn,
       ("File signature (" ++ template detectedType "null"
        ++ ") differs from declared type (" ++ declaredType ++ ")")%string,
       "This mismatch could indicate the file was renamed or modified. Not necessarily suspicious, but worth noting.")
    else if match expectedFromExt with
            | Own mime => negb (String.eqb mime "")
                          && negb (sameType detectedType mime)
            | Inherited => true
            | Undefined => false
            end then
      (warn,
       ("File extension (." ++ template extension "undefined"
        ++ ") doesn't match actual type (" ++ template detectedType "null"
        ++ ")")%string,
       "The file extension may have been changed. The actual content appears to be a different format.")
    else
      (ok,
       ("File type verified: " ++ orElse detectedType declaredType)%string,
       "File signature matches the expected format.") in
  {| id := "file-type";
     name := "File Type Detection";
     status := status;
     summary := summary;
     details :=
       [("Detected Type", DStr (orElse detectedType "Unknown"));
        ("Declared Type", DStr (orElse (Some declaredType) "None"));
        ("Extension", DStr (orElse extension "None"));
        ("Match", DStr (if sameType detectedType declaredType then "Yes"
                        else "No"))];
     confidence := if nonEmpty detectedType then 0.95 else 0.5;
     notes := notes;
     overlay := None;
     regions := None |}.

Definition checkFileProperties (file : ImageFile) : CheckResult :=
  let width := width file in
  let height := height file in
  let fileSize := f_size file in
  let aspectRatio := toFixed (Z2F width / Z2F height)%float 2 in
  let status := info in
  let notes :=
    if (width <? 100) || (height <? 100) then
      "Very small image dimensions. May be a thumbnail or icon."
    else if (8000 <? width) || (8000 <? height) then
      "Very high resolution image."
    else "Standard image dimensions." in
  let hasAlpha := checkAlphaChannel (imageData file) in
  {| id := "file-properties";
     name := "File Properties";
     status := status;
     summary := (showZ width ++ "x" ++ showZ height ++ " px, "
                 ++ formatFileSize fileSize)%string;
     details :=
       [("Width", DStr (showZ width ++ " px")%string);
        ("Height", DStr (showZ height ++ " px")%string);
        ("File Size", DStr (formatFileSize fileSize));
        ("Aspect Ratio", DStr aspectRatio);
        ("Has Alpha", DStr (if hasAlpha then "Yes" else "No"));
        ("Megapixels",
         DStr (toFixed (Z2F (width * height) / 1000000)%float 2
               ++ " MP")%string)];
     confidence := 1;
     notes := notes;
     overlay := None;
     regions := None |}.

Definition checkAnimation (file : ImageFile) : option CheckResult :=
  let detectedType := detectFileType (arrayBuffer file) in
  match
    if sameType detectedType "image/gif" then
      Some (isAnimatedGif (arrayBuffer file), "GIF")
    else if sameType detectedType "image/webp" then
      Some (isAnimatedWebP (arrayBuffer file), "WebP")
    else None
  with
  | None => None
  | Some (isAnimated, format) =>
      if negb isAnimated then
        Some {| id := "animation";
                name := "Animation Detection";
                status := ok;
                summary := ("Static " ++ format
                            ++ " image (not animated)")%string;
                details := [("Format", DStr format);
                            ("Animated", DStr "No")];
                confidence := 0.9;
                notes := "Single-frame image detected.";
                overlay := None;
                regions := None |}
      else
        Some {| id := "animation";
                name := "Animation Detection";
                status := warn;
                summary := ("Animated " ++ format ++ " detected")%string;
                details := [("Format", DStr format);
                            ("Animated", DStr "Yes")];
                confidence := 0.9;
                notes := "Animated images have limited forensic analysis support. Only the first frame is analyzed. Forensic checks may not reflect the full content.";
                overlay := None;
                regions := None |}
  end.

Definition runFileChecks (file : ImageFile) : list CheckResult :=
  let results := [checkFileType file; checkFileProperties file] in
  pushIf results (checkAnimation file).

End FileChecks.

(* ================================================================== *)
(** ** Specification-side definitions *)
(* ================================================================== *)

(** The verdict as the specification words it, on the four counts. *)
Definition verdictOfCounts (okC warnC failC infoC : nat) : OverallStatus :=
  if (0 <? failC)%nat || (3 <=? warnC)%nat then suspicious
  else if (0 <? warnC)%nat then review
  else clean.

(** The report a run resolved with, if any. *)
Definition reportOf (out : (Thrown + ForensicReport) * list Event)
    : option ForensicReport :=
  match fst out with
  | inr r => Some r
  | inl _ => None
  end.

(** [bytes] starts with [sig]. *)
Fixpoint hasPrefix (sig bytes : list byte) : bool :=
  match sig, bytes with
  | [], _ => true
  | _ :: _, [] => false
  | s :: sig', b :: bytes' => Byte.eqb s b && hasPrefix sig' bytes'
  end.

Definition WEBP_TAG : list byte := [x57; x45; x42; x50].

(** A buffer matches a signature of the table when it starts with the
    table's bytes; a WebP file also carries "WEBP" at offset 8. *)
Definition matchesSignature (entry : string * list byte) (bytes : list byte)
    : bool :=
  hasPrefix (snd entry) bytes
  && (if String.eqb (fst entry) "image/webp"
      then hasPrefix WEBP_TAG (skipn 8 bytes) else true).

(** Sniffing by a signature table: the first matching entry. *)
Definition sniffWith (table : list (string * list byte)) (bytes : list byte)
    : option string :=
  match find (fun entry => matchesSignature entry bytes) table with
  | Some entry => Some (fst entry)
  | None => None
  end.

(** Sniffing as [FILE_SIGNATURES] specifies it. *)
Definition sniffBySignature (bytes : list byte) : option string :=
  sniffWith FILE_SIGNATURES bytes.

(** The bytes [detectFileType] compares: the table with the PNG signature
    cut to its first four bytes. *)
Definition COMPARED_SIGNATURES : list (string * list byte) :=
  [ ("image/jpeg", [xff; xd8; xff]);
    ("image/png", [x89; x50; x4e; x47]);
    ("image/gif", [x47; x49; x46; x38]);
    ("image/webp", [x52; x49; x46; x46]) ].

(** The nearest integer to [a / b], halves upwards, for positive
    [a] and [b]. *)
Definition roundDiv (a b : Z) : Z := (2 * a + b) / (2 * b).

(** The quality as the specification words it: the piecewise function of
    the DC coefficient, clamped to 1..100. *)
Definition qualityOfCoefficient (q0 : Z) : Z :=
  let q :=
    if q0 <? 2 then 98
    else if q0 <? 10 then 100 - 2 * q0
    else if q0 <? 50 then roundDiv 5000 q0
    else 200 - 2 * q0 in
  Z.max 1 (Z.min 100 q).

(** A DQT marker at offset [i]: the bytes FF DB, a big-endian segment
    length of at least 67, and the non-zero DC coefficient [q0] behind the
    precision/table-id byte. *)
Definition dqtAt (bytes : list byte) (i : Z) (q0 : byte) : Prop :=
  get bytes i = Some xff
  /\ get bytes (i + 1) = Some xdb
  /\ (exists hi lo,
        get bytes (i + 2) = Some hi /\ get bytes (i + 3) = Some lo
        /\ 67 <= 256 * byteZ hi + byteZ lo)
  /\ get bytes (i + 5) = Some q0
  /\ q0 <> x00.

(** The offsets the scan of [estimateJpegQuality] visits. *)
Definition scanned (bytes : list byte) (i : Z) : Prop :=
  0 <= i < Z.of_nat (List.length bytes) - 70.

(** The 16x16 blocks of an image, row by row. *)
Definition blockCoords (blocksX blocksY : Z) : list (Z * Z) :=
  flat_map (fun by_ => map (fun bx => (bx, by_)) (range 0 blocksX))
           (range 0 blocksY).

(** The luminance standard deviation of block [b]. *)
Definition blockStdDev (img : ImageData) (b : Z * Z) : float :=
  standardDeviation (blockValues (i_data img) (i_width img) 16 (fst b) (snd b)).

(** A block is uniform when its standard deviation is below 3. *)
Definition isUniformBlock (img : ImageData) (b : Z * Z) : bool :=
  (blockStdDev img b <? 3)%float.

(** The ratio of uniform blocks to all blocks, as the specification words
    it. *)
Definition uniformBlockRatio (img : ImageData) : float :=
  let blocks :=
    blockCoords (floorDiv (i_width img) 16) (floorDiv (i_height img) 16) in
  (nat2F (List.length (filter (isUniformBlock img) blocks))
   / nat2F (List.length blocks))%float.

(** The three-tier status the specification gives for a uniform ratio. *)
Definition claimedUniformStatus (ratio : float) : CheckStatus :=
  if gtb ratio 0.3 then warn else if gtb ratio 0.1 then info else ok.

(** The strong-edge ratio as the specification words it: mean and standard
    deviation over the strictly positive magnitudes, the threshold
    mean + 3 * stddev, and the share of all pixels above it. *)
Definition positiveMagnitudes (edgeMap : list float) : list float :=
  filter (fun v => gtb v 0) edgeMap.

Definition strongEdgeThresholdOf (edgeMap : list float) : float :=
  (mean (positiveMagnitudes edgeMap)
   + 3 * standardDeviation (positiveMagnitudes edgeMap))%float.

Definition strongEdgeRatioOf (edgeMap : list float) (pixelCount : Z) : float :=
  (nat2F (List.length
            (filter (fun v => gtb v (strongEdgeThresholdOf edgeMap)) edgeMap))
   / Z2F pixelCount)%float.

(** The exponent of the binary64 format for a number of magnitude
    [2^e]. *)
Definition fexp64 (e : Z) : Z := Z.max (e - 53) (-1074).

(* ================================================================== *)
(** ** Further specification-side definitions *)
(* ================================================================== *)

(** The result of the ELA stage, by the sniffed type and the outcome of
    the re-encoder. *)
Definition elaResultOf {fmt : Format}
    (reencoder : nat -> float -> Thrown + ImageData) (file : ImageFile)
    : CheckResult :=
  let fileType := detectFileType (arrayBuffer file) in
  if isJpeg fileType then
    match reencoder (canvas file) (Z2F ELA_QUALITY / 100)%float with
    | inr reencoded => elaAnalyze file reencoded
    | inl error => elaFailed error
    end
  else elaNotApplicable fileType.

(** The events of a run, in order: the seven progress notifications when
    a sink is supplied, and the call of the re-encoder for a JPEG. *)
Definition expectedTrace (options : PipelineOptions) (file : ImageFile)
    : list Event :=
  let progress stage n :=
    if onProgress options then [Progress stage n] else [] in
  progress "Analyzing file structure..." 10
  ++ progress "Extracting metadata..." 25
  ++ progress "Analyzing compression..." 40
  ++ progress "Analyzing pixel consistency..." 55
  ++ progress "Performing Error Level Analysis..." 75
  ++ (if isJpeg (detectFileType (arrayBuffer file))
      then [Reencode (canvas file) (Z2F ELA_QUALITY / 100)%float] else [])
  ++ progress "Checking for social media patterns..." 90
  ++ progress "Analysis complete" 100.

(** A formatter that renders the integers 1..100 in decimal, as
    [Number.prototype.toString] does. *)
Definition printsDecimal (fmt : Format) : bool :=
  forallb (fun n => String.eqb (toString (Z2F n)) (showZ n)) (range 1 101).

(** An overlay of [w] by [h] pixels with four bytes per pixel. *)
Definition hasDimensions (o : ImageData) (w h : Z) : Prop :=
  i_width o = w /\ i_height o = h
  /\ List.length (i_data o) = Z.to_nat (4 * w * h).

(** The quality tier of an integer estimate. *)
Definition qualityTier (n : Z) : string :=
  if n <? 50 then "Low"
  else if n <? 75 then "Medium"
  else if n <? 90 then "Good"
  else "High".

(** The positions the clone scan samples, in scan order: every
    [step]-th pixel on both axes. *)
Definition scanPositions (blocksX blocksY step : Z) : list (Z * Z) :=
  flat_map (fun by_ => map (fun bx => (bx * step, by_ * step))
                           (range 0 blocksX))
           (range 0 blocksY).

(** The positions stored under a key of the hash map. *)
Definition bucketOf (m : HashMap) (hash : Z) : list (Z * Z) :=
  match find (fun e => fst e =? hash) m with
  | Some e => snd e
  | None => []
  end.

(** Two positions farther apart than [minDistance], as the pair loop of
    the clone scan measures it. *)
Definition farApart (p q : Z * Z) (minDistance : Z) : bool :=
  let dx := fst p - fst q in
  let dy := snd p - snd q in
  gtb (Math_sqrt (Z2F (dx * dx + dy * dy))) (Z2F minDistance).

(** The verdicts in order of severity. *)
Definition severity (verdict : OverallStatus) : nat :=
  match verdict with
  | clean => 0
  | review => 1
  | suspicious => 2
  end.

(** The block size, the stride and the number of sampled blocks along a
    side of [dim] pixels, for the quick and the deep clone scan. *)
Definition cloneBlockSize (deepScan : bool) : Z := if deepScan then 16 else 32.
Definition cloneStep (deepScan : bool) : Z := if deepScan then 8 else 16.
Definition cloneBlocks (deepScan : bool) (dim : Z) : Z :=
  floorDiv (dim - cloneBlockSize deepScan) (cloneStep deepScan).

(** What the notes of the JPEG-quality check say after naming the tier
    of an integer estimate. *)
Definition qualityRemark (n : Z) : string :=
  if n <? 50 then
    "Heavy compression may obscure forensic analysis and suggests multiple resaves."
  else if n <? 75 then "Some compression artifacts may be present."
  else if n <? 90 then "Minimal compression artifacts expected."
  else "Very little compression artifact expected.".

(** The average Laplacian energy of the 32x32 block at grid position
    ([bx], [by_]), as the energy loop of the noise check accumulates
    it. *)
Definition blockEnergy (laplacian : list float) (width bx by_ : Z) : float :=
  let blockSize := 32 in
  let '(energy, count) :=
    for_ 0 blockSize (fun dy acc =>
      for_ 0 blockSize (fun dx '(energy, count) =>
        let x := bx * blockSize + dx in
        let y := by_ * blockSize + dy in
        let idx := y * width + x in
        if idx <? Z.of_nat (List.length laplacian) then
          ((energy + num (get laplacian idx))%float, count + 1)
        else (energy, count)) acc) (0%float, 0) in
  if 0 <? count then (energy / Z2F count)%float else 0%float.

(** The energies of all grid blocks, row by row. *)
Definition blockEnergiesOf (laplacian : list float)
    (width blocksX blocksY : Z) : list float :=
  flat_map (fun by_ => map (fun bx => blockEnergy laplacian width bx by_)
                           (range 0 blocksX))
           (range 0 blocksY).

(** The z-score of one block energy among the energies of all blocks. *)
Definition zScoreOf (energies : list float) (energy : float) : float :=
  if gtb (standardDeviation energies) 0 then
    (Math_abs (energy - mean energies) / standardDeviation energies)%float
  else 0%float.

(** The flagged block at grid position ([bx], [by_]), if its z-score
    passes the outlier threshold. *)
Definition outlierAt {fmt : Format} (energies : list float)
    (laplacian : list float) (width bx by_ : Z) : list Region :=
  let zScore := zScoreOf energies (blockEnergy laplacian width bx by_) in
  if gtb zScore 2.5 then
    [mkRegion (bx * 32) (by_ * 32) 32
       (Some ("Z-score: " ++ toFixed zScore 1)%string)]
  else [].

(* ================================================================== *)
(** ** Sample inputs *)
(* ================================================================== *)

(** A formatter for the examples: the integer part in decimal. *)
Definition sampleFormat : Format :=
  {| toString := fun x => match floorZ x with
                          | Some z => showZ z
                          | None => "NaN"
                          end;
     toFixed := fun x _ => match floorZ x with
                           | Some z => showZ z
                           | None => "NaN"
                           end |}.

Definition PNG_SIGNATURE : list byte :=
  [x89; x50; x4e; x47; x0d; x0a; x1a; x0a].

(** A buffer that carries only the first four bytes of the PNG
    signature. *)
Definition truncatedPngSignature : list byte :=
  [x89; x50; x4e; x47; x00; x00; x00; x00; x00; x00; x00; x00].

(** One gray pixel, stored as PNG. *)
Definition onePixelPng : ImageFile :=
  {| f_name := "pixel.png";
     f_type := "image/png";
     f_size := 67;
     arrayBuffer := PNG_SIGNATURE;
     width := 1;
     height := 1;
     imageData := {| i_width := 1; i_height := 1;
                     i_data := [x80; x80; x80; xff] |};
     canvas := 0%nat |}.

(** Two black pixels side by side, stored as GIF. *)
Definition twoPixelGif : ImageFile :=
  {| f_name := "pair.gif";
     f_type := "image/gif";
     f_size := 35;
     arrayBuffer := [x47; x49; x46; x38; x39; x61];
     width := 2;
     height := 1;
     imageData := {| i_width := 2; i_height := 1;
                     i_data := [x00; x00; x00; xff; x00; x00; x00; xff] |};
     canvas := 1%nat |}.

Definition quickScan : PipelineOptions :=
  {| deepCloneScan := None; onProgress := true |}.

Definition noStage (_ : ImageFile) : list CheckResult := [].
Definition noExif (_ : ImageFile) : option ExifData := None.
Definition failingReencoder (_ : nat) (_ : float) : Thrown + ImageData :=
  inl (ErrorObject "Failed to create blob").

(** An RGBA buffer of [n] pixels whose gray level is given per pixel
    index. *)
Definition grayPixels (n : nat) (level : nat -> byte) : list byte :=
  flat_map (fun i => [level i; level i; level i; xff]) (seq 0 n).

Definition imageFileOf (fname : string) (w h : Z) (pixels : list byte)
    : ImageFile :=
  {| f_name := fname;
     f_type := "image/png";
     f_size := 4 * w * h;
     arrayBuffer := PNG_SIGNATURE;
     width := w;
     height := h;
     imageData := {| i_width := w; i_height := h; i_data := pixels |};
     canvas := 0%nat |}.

(** A 32x32 checkerboard of black and white pixels: four blocks, none of
    them uniform. *)
Definition checkerboard32 : ImageFile :=
  imageFileOf "checker.png" 32 32
    (grayPixels 1024
       (fun i => if Nat.even (i / 32 + i mod 32) then x00 else xff)).

(** A 16x32 image of one gray level: two blocks, both uniform. *)
Definition grayStrip : ImageFile :=
  imageFileOf "strip.png" 16 32 (grayPixels 512 (fun _ => x80)).

(** One gray pixel, stored as JPEG (SOI and the start of an APP0
    segment). *)
Definition onePixelJpeg : ImageFile :=
  {| f_name := "pixel.jpg";
     f_type := "image/jpeg";
     f_size := 125;
     arrayBuffer := [xff; xd8; xff; xe0; x00; x10];
     width := 1;
     height := 1;
     imageData := {| i_width := 1; i_height := 1;
                     i_data := [x80; x80; x80; xff] |};
     canvas := 2%nat |}.

(** A re-encoder that always yields one slightly darker pixel. *)
Definition darkeningReencoder (_ : nat) (_ : float) : Thrown + ImageData :=
  inr {| i_width := 1; i_height := 1; i_data := [x7e; x7f; x80; xff] |}.

(** A 4x4 image whose left half is black and whose right half is
    white. *)
Definition halves4 : ImageFile :=
  imageFileOf "halves.png" 4 4
    (grayPixels 16 (fun i => if (i mod 4 <? 2)%nat then x00 else xff)).

(** A 48x48 image of one gray level. *)
Definition grayField48 : ImageFile :=
  imageFileOf "field.png" 48 48 (grayPixels 2304 (fun _ => x80)).

(* ================================================================== *)
(** * Properties *)
(* ================================================================== *)

(** ** Orchestrator: counts and verdict *)

Lemma countStatus_cons s c l :
  countStatus s (c :: l)
  = ((if CheckStatus_eqb (status c) s then 1 else 0) + countStatus s l)%nat.
Proof.
  unfold countStatus. simpl. destruct (CheckStatus_eqb (status c) s); reflexivity.
Qed.

Lemma counts_partition (allChecks : list CheckResult) :
  (countStatus ok allChecks + countStatus warn allChecks
   + countStatus fail allChecks + countStatus info allChecks)%nat
  = List.length allChecks.
Proof.
  induction allChecks as [|c l IH]; [reflexivity|].
  rewrite !countStatus_cons. simpl List.length. rewrite <- IH.
  destruct (status c); simpl; lia.
Qed.

Lemma determineOverall_verdict (s : Summary) :
  determineOverall s
  = verdictOfCounts (okCount s) (warnCount s) (failCount s) (infoCount s).
Proof. reflexivity. Qed.

Section PipelineFacts.
Context {fmt : Format}.
Variable runFileChecks runMetadataChecks : ImageFile -> list CheckResult.
Variable extractExif : ImageFile -> option ExifData.
Variable reencoder : nat -> float -> Thrown + ImageData.
Variable now : string.

Lemma performELA_resolves file tr :
  exists r tr', performELA reencoder file tr = (inr (Some r), tr').
Proof.
  unfold performELA.
  destruct (negb (isJpeg (detectFileType (arrayBuffer file)))).
  - eexists; eexists; reflexivity.
  - unfold tryCatch, bind, reencodeJpeg, ret.
    destruct (reencoder (canvas file) _); eexists; eexists; reflexivity.
Qed.

Lemma runELACheck_resolves file tr :
  exists l tr', runELACheck reencoder file tr = (inr l, tr').
Proof.
  unfold runELACheck, bind.
  destruct (performELA_resolves file tr) as (r & tr' & ->).
  eexists; eexists; reflexivity.
Qed.

Lemma notify_resolves options stage progress tr :
  exists tr', notify options stage progress tr = (inr tt, tr').
Proof.
  unfold notify. destruct (onProgress options); eexists; reflexivity.
Qed.

(** Every run resolves with a report whose counts and verdict are
    computed from its own list of checks. *)
Lemma runForensicPipeline_resolves file options tr :
  exists r,
    reportOf (runForensicPipeline runFileChecks runMetadataChecks
                extractExif reencoder now file options tr) = Some r
    /\ rsummary r = summarize (checks r)
    /\ overallStatus r = determineOverall (rsummary r).
Proof.
  unfold runForensicPipeline, reportOf, bind.
  repeat match goal with
  | |- context [notify ?o ?s ?p ?t] =>
      let tr' := fresh "tr" in
      destruct (notify_resolves o s p t) as (tr' & ->)
  | |- context [runELACheck reencoder ?f ?t] =>
      let l := fresh "ela" in
      let tr' := fresh "tr" in
      destruct (runELACheck_resolves f t) as (l & tr' & ->)
  end.
  eexists. split; [reflexivity|]. split; reflexivity.
Qed.

End PipelineFacts.

(** C1.  The overall verdict of every report the pipeline produces is the
    function of its four status counts that the specification gives
    (a failure or three warnings: suspicious; otherwise a warning: review;
    otherwise clean), whatever the collaborators, the file and the options
    are; hence two reports with the same counts carry the same verdict. *)
Theorem verdict_is_function_of_counts
    (fmt1 fmt2 : Format)
    (files1 meta1 files2 meta2 : ImageFile -> list CheckResult)
    (exif1 exif2 : ImageFile -> option ExifData)
    (reenc1 reenc2 : nat -> float -> Thrown + ImageData)
    (now1 now2 : string) (file1 file2 : ImageFile)
    (options1 options2 : PipelineOptions) (tr1 tr2 : list Event) :
  exists r1 r2,
    reportOf (runForensicPipeline (fmt := fmt1) files1 meta1 exif1 reenc1
                now1 file1 options1 tr1) = Some r1
    /\ reportOf (runForensicPipeline (fmt := fmt2) files2 meta2 exif2 reenc2
                   now2 file2 options2 tr2) = Some r2
    /\ overallStatus r1
       = verdictOfCounts (okCount (rsummary r1)) (warnCount (rsummary r1))
           (failCount (rsummary r1)) (infoCount (rsummary r1))
    /\ (rsummary r1 = rsummary r2 -> overallStatus r1 = overallStatus r2).
Proof.
  destruct (runForensicPipeline_resolves (fmt := fmt1) files1 meta1 exif1
              reenc1 now1 file1 options1 tr1) as (r1 & H1 & _ & V1).
  destruct (runForensicPipeline_resolves (fmt := fmt2) files2 meta2 exif2
              reenc2 now2 file2 options2 tr2) as (r2 & H2 & _ & V2).
  exists r1, r2. split; [exact H1|]. split; [exact H2|]. split.
  - rewrite V1. apply determineOverall_verdict.
  - intros E. rewrite V1, V2, E. reflexivity.
Qed.

(** C2.  In every report the pipeline produces, the four status counts
    add up to the number of checks in the report. *)
Theorem counts_sum_to_number_of_checks
    (fmt : Format) (runFileChecks runMetadataChecks : ImageFile -> list CheckResult)
    (extractExif : ImageFile -> option ExifData)
    (reencoder : nat -> float -> Thrown + ImageData)
    (now : string) (file : ImageFile) (options : PipelineOptions)
    (tr : list Event) :
  exists r,
    reportOf (runForensicPipeline runFileChecks runMetadataChecks extractExif
                reencoder now file options tr) = Some r
    /\ (okCount (rsummary r) + warnCount (rsummary r)
        + failCount (rsummary r) + infoCount (rsummary r))%nat
       = List.length (checks r).
Proof.
  destruct (runForensicPipeline_resolves runFileChecks runMetadataChecks
              extractExif reencoder now file options tr) as (r & H & S & _).
  exists r. split; [exact H|]. rewrite S. apply counts_partition.
Qed.

(** A sample pair of runs with equal counts: the two reports differ in
    file name, size and dimensions and carry the same verdict. *)
Lemma verdict_is_function_of_counts_witness :
  exists r1 r2,
    reportOf (runForensicPipeline (fmt := sampleFormat) noStage noStage noExif
                failingReencoder "2024-01-01T00:00:00.000Z" onePixelPng
                quickScan []) = Some r1
    /\ reportOf (runForensicPipeline (fmt := sampleFormat) noStage noStage
                   noExif failingReencoder "2024-01-02T00:00:00.000Z"
                   twoPixelGif quickScan []) = Some r2
    /\ filename r1 <> filename r2
    /\ rsummary r1 = rsummary r2
    /\ overallStatus r1 = overallStatus r2.
Proof.
  destruct (verdict_is_function_of_counts sampleFormat sampleFormat
              noStage noStage noStage noStage noExif noExif
              failingReencoder failingReencoder
              "2024-01-01T00:00:00.000Z" "2024-01-02T00:00:00.000Z"
              onePixelPng twoPixelGif quickScan quickScan [] [])
    as (r1 & r2 & H1 & H2 & _ & E).
  exists r1, r2. split; [exact H1|]. split; [exact H2|].
  vm_compute in H1, H2.
  injection H1 as <-. injection H2 as <-.
  split; [discriminate|]. split; [reflexivity|].
  apply E. reflexivity.
Defined.

(** ** Byte sniffer *)

Lemma hasPrefix_get sig bytes :
  hasPrefix sig bytes = true ->
  forall k b, nth_error sig k = Some b -> nth_error bytes k = Some b.
Proof.
  revert bytes. induction sig as [|s sig IH]; intros bytes H k b Hk.
  - destruct k; discriminate.
  - destruct bytes as [|c bytes]; [discriminate|]. simpl in H.
    apply andb_true_iff in H as [Hs Ht].
    destruct k as [|k]; simpl in *.
    + injection Hk as <-. apply Byte.byte_dec_bl in Hs. now subst.
    + now apply IH.
Qed.

Lemma byteIs_nth bytes (i : Z) b :
  0 <= i -> nth_error bytes (Z.to_nat i) = Some b -> byteIs bytes i b = true.
Proof.
  intros Hi H. unfold byteIs, get.
  destruct (Z.ltb_spec i 0); [lia|].
  rewrite H. apply Byte.byte_dec_lb. reflexivity.
Qed.

Lemma byteIs_other bytes (i : Z) b c :
  0 <= i -> nth_error bytes (Z.to_nat i) = Some b -> Byte.eqb b c = false ->
  byteIs bytes i c = false.
Proof.
  intros Hi H N. unfold byteIs, get.
  destruct (Z.ltb_spec i 0); [lia|]. now rewrite H.
Qed.

Lemma nth_error_skipn {A} (l : list A) n k :
  nth_error (skipn n l) k = nth_error l (n + k).
Proof.
  revert l. induction n as [|n IH]; intros l; [reflexivity|].
  destruct l; simpl; [now destruct k|]. apply IH.
Qed.

(** Every buffer that matches an entry of the signature table is given
    that entry's mime type. *)
Lemma detectFileType_complete bytes mime :
  sniffBySignature bytes = Some mime -> detectFileType bytes = Some mime.
Proof.
  unfold sniffBySignature, sniffWith, FILE_SIGNATURES. simpl find.
  unfold matchesSignature. simpl fst. simpl snd.
  repeat match goal with
  | |- context [String.eqb ?a ?b] =>
      let v := eval vm_compute in (String.eqb a b) in
      change (String.eqb a b) with v
  end.
  rewrite !andb_true_r.
  destruct (hasPrefix [xff; xd8; xff] bytes) eqn:J.
  { intros [= <-]. unfold detectFileType.
    pose proof (hasPrefix_get _ _ J) as G.
    rewrite (byteIs_nth bytes 0 xff), (byteIs_nth bytes 1 xd8),
      (byteIs_nth bytes 2 xff) by (try lia; apply G; reflexivity).
    reflexivity. }
  destruct (hasPrefix [x89; x50; x4e; x47; x0d; x0a; x1a; x0a] bytes) eqn:P.
  { intros [= <-]. unfold detectFileType.
    pose proof (hasPrefix_get _ _ P) as G.
    assert (N : byteIs bytes 0 xff = false)
      by (apply (byteIs_other bytes 0 x89);
          [lia | apply G; reflexivity | reflexivity]).
    rewrite N. simpl.
    rewrite (byteIs_nth bytes 0 x89), (byteIs_nth bytes 1 x50),
      (byteIs_nth bytes 2 x4e), (byteIs_nth bytes 3 x47)
      by (try lia; apply G; reflexivity).
    reflexivity. }
  destruct (hasPrefix [x47; x49; x46; x38] bytes) eqn:F.
  { intros [= <-]. unfold detectFileType.
    pose proof (hasPrefix_get _ _ F) as G.
    assert (N : byteIs bytes 0 xff = false /\ byteIs bytes 0 x89 = false)
      by (split; apply (byteIs_other bytes 0 x47);
          solve [lia | apply G; reflexivity | reflexivity]).
    destruct N as [N1 N2]. rewrite N1, N2. simpl.
    rewrite (byteIs_nth bytes 0 x47), (byteIs_nth bytes 1 x49),
      (byteIs_nth bytes 2 x46), (byteIs_nth bytes 3 x38)
      by (try lia; apply G; reflexivity).
    reflexivity. }
  destruct (hasPrefix [x52; x49; x46; x46] bytes) eqn:R; [|discriminate].
  destruct (hasPrefix WEBP_TAG (skipn 8 bytes)) eqn:W; [|discriminate].
  intros [= <-]. unfold detectFileType.
  pose proof (hasPrefix_get _ _ R) as G.
  pose proof (hasPrefix_get _ _ W) as GW.
  assert (N : byteIs bytes 0 xff = false /\ byteIs bytes 0 x89 = false
              /\ byteIs bytes 0 x47 = false).
  { repeat split; apply (byteIs_other bytes 0 x52);
      solve [lia | apply G; reflexivity | reflexivity]. }
  destruct N as (N1 & N2 & N3). rewrite N1, N2, N3. simpl.
  rewrite (byteIs_nth bytes 0 x52), (byteIs_nth bytes 1 x49),
    (byteIs_nth bytes 2 x46), (byteIs_nth bytes 3 x46)
    by (try lia; apply G; reflexivity).
  simpl.
  rewrite (byteIs_nth bytes 8 x57), (byteIs_nth bytes 9 x45),
    (byteIs_nth bytes 10 x42), (byteIs_nth bytes 11 x50);
    try reflexivity; try lia;
    match goal with
    | |- nth_error bytes (Z.to_nat ?n) = Some _ =>
        change (Z.to_nat n) with (8 + Z.to_nat (n - 8))%nat;
        rewrite <- nth_error_skipn; apply GW; reflexivity
    end.
Qed.

(** The sniffer answers one of the four mime types or nothing. *)
Lemma detectFileType_cases bytes :
  detectFileType bytes = Some "image/jpeg"
  \/ detectFileType bytes = Some "image/png"
  \/ detectFileType bytes = Some "image/gif"
  \/ detectFileType bytes = Some "image/webp"
  \/ detectFileType bytes = None.
Proof.
  unfold detectFileType.
  repeat match goal with
  | |- context [if ?c then _ else _] => destruct c
  end; auto 6.
Qed.

Lemma byte_eqb_sym a b : Byte.eqb a b = Byte.eqb b a.
Proof.
  destruct (Byte.eqb a b) eqn:E.
  - apply Byte.byte_dec_bl in E. subst. symmetry. apply Byte.byte_dec_lb.
    reflexivity.
  - destruct (Byte.eqb b a) eqn:E'; [|reflexivity].
    apply Byte.byte_dec_bl in E'. subst.
    rewrite (Byte.byte_dec_lb eq_refl) in E. discriminate.
Qed.

Lemma hasPrefix_byteIs sig bytes (k : nat) :
  hasPrefix sig (skipn k bytes)
  = forallb (fun '(i, v) => byteIs bytes (Z.of_nat i) v)
            (combine (seq k (List.length sig)) sig).
Proof.
  revert k. induction sig as [|s sig IH]; intros k; [reflexivity|].
  simpl List.length. simpl seq. simpl combine. simpl forallb.
  unfold byteIs at 1, get. destruct (Z.ltb_spec (Z.of_nat k) 0); [lia|].
  rewrite Nat2Z.id.
  destruct (skipn k bytes) as [|b rest] eqn:E.
  - assert (N : nth_error bytes k = None).
    { apply nth_error_None. rewrite <- (firstn_skipn k bytes), E, app_nil_r.
      apply firstn_le_length. }
    rewrite N. reflexivity.
  - assert (N : nth_error bytes k = Some b).
    { rewrite <- (Nat.add_0_r k), <- nth_error_skipn, E. reflexivity. }
    assert (R : skipn (S k) bytes = rest).
    { replace (S k) with (1 + k)%nat by lia.
      rewrite <- skipn_skipn, E. reflexivity. }
    rewrite N. simpl hasPrefix. rewrite byte_eqb_sym. f_equal.
    rewrite <- R. apply IH.
Qed.

(** The prefix test of a concrete signature, as byte comparisons. *)
Ltac prefix_bytes sig bytes k :=
  let H := fresh "H" in
  pose proof (hasPrefix_byteIs sig bytes k) as H;
  cbn [skipn List.length seq combine forallb Z.of_nat Pos.of_succ_nat
       Pos.succ WEBP_TAG] in H.

(** What the sniffer does, exactly: it answers by the table of compared
    signatures, in which PNG is recognised by four bytes. *)
Lemma detectFileType_spec bytes :
  detectFileType bytes = sniffWith COMPARED_SIGNATURES bytes.
Proof.
  prefix_bytes [xff; xd8; xff] bytes 0%nat.
  prefix_bytes [x89; x50; x4e; x47] bytes 0%nat.
  prefix_bytes [x47; x49; x46; x38] bytes 0%nat.
  prefix_bytes [x52; x49; x46; x46] bytes 0%nat.
  pose proof (hasPrefix_byteIs WEBP_TAG bytes 8) as H3.
  cbn [List.length seq combine forallb Z.of_nat Pos.of_succ_nat Pos.succ
       WEBP_TAG] in H3.
  unfold detectFileType, sniffWith, COMPARED_SIGNATURES, matchesSignature.
  cbn [find fst snd].
  repeat match goal with
  | |- context [String.eqb ?a ?b] =>
      let v := eval vm_compute in (String.eqb a b) in
      change (String.eqb a b) with v
  end.
  rewrite H, H0, H1, H2, H3.
  repeat match goal with
  | |- context [byteIs ?b ?i ?v] => destruct (byteIs b i v); cbn [andb]
  end; reflexivity.
Qed.

(** C3, at the failing input.  The buffer [truncatedPngSignature] carries
    only the first four of the eight bytes of the PNG signature and matches
    no entry of [FILE_SIGNATURES]; the sniffer still answers PNG, where the
    claim asks for no match. *)
Theorem detectFileType_accepts_truncated_png_signature :
  (12 <= List.length truncatedPngSignature)%nat
  /\ sniffBySignature truncatedPngSignature = None
  /\ detectFileType truncatedPngSignature = Some "image/png".
Proof. repeat split. vm_compute. lia. Qed.

(** ** Pixel stage: identifiers and the deep rescan *)

(** Splits the tuples and the conditionals a check result is built under. *)
Ltac break_result :=
  repeat match goal with
  | |- context [let '(_, _) := ?e in _] => destruct e
  | |- context [if ?c then _ else _] => destruct c
  end.

Section PixelFacts.
Context {fmt : Format}.
Variable heatmap : list float -> Z -> Z -> bool -> ImageData.

Lemma checkNoiseConsistency_id file :
  id (checkNoiseConsistencyWith heatmap file) = "noise-consistency".
Proof. unfold checkNoiseConsistencyWith. break_result; reflexivity. Qed.

Lemma checkEdgeInconsistency_id file :
  id (checkEdgeInconsistencyWith heatmap file) = "edge-consistency".
Proof. unfold checkEdgeInconsistencyWith. break_result; reflexivity. Qed.

Lemma checkCloneDetection_id file deepScan :
  id (checkCloneDetection file deepScan) = "clone-detection".
Proof. unfold checkCloneDetection. break_result; reflexivity. Qed.

Lemma runPixelChecks_find_clone file deepScan :
  find (fun c => String.eqb (id c) "clone-detection")
       (runPixelChecksWith heatmap file deepScan)
  = Some (checkCloneDetection file deepScan)
  /\ List.length (filter (fun c => String.eqb (id c) "clone-detection")
                    (runPixelChecksWith heatmap file deepScan)) = 1%nat.
Proof.
  unfold runPixelChecksWith. simpl.
  rewrite checkNoiseConsistency_id, checkEdgeInconsistency_id,
    checkCloneDetection_id.
  split; reflexivity.
Qed.

End PixelFacts.

(** C10.  Whatever the image and the deep-scan flag, the pixel stage
    returns exactly one result whose id is 'clone-detection', the
    too-small skip result included; the lookup of the deep rescan therefore
    always finds its element, the clone-detection result of a deep scan. *)
Theorem clone_detection_result_always_present
    (fmt : Format) (file : ImageFile) (deepScan : bool) :
  List.length (filter (fun c => String.eqb (id c) "clone-detection")
                 (runPixelChecks file deepScan)) = 1%nat
  /\ find (fun c => String.eqb (id c) "clone-detection")
          (runPixelChecks file deepScan)
     = Some (checkCloneDetection file deepScan)
  /\ runDeepCloneScan file = Some (checkCloneDetection file true)
  /\ id (checkCloneDetection file deepScan) = "clone-detection".
Proof.
  unfold runDeepCloneScan, runPixelChecks.
  destruct (runPixelChecks_find_clone grayscaleToHeatmap file deepScan)
    as [F L].
  destruct (runPixelChecks_find_clone grayscaleToHeatmap file true)
    as [F' _].
  repeat split; trivial. apply checkCloneDetection_id.
Qed.

(** ** Overlay color map: noninterference *)

(** C9.  Replacing the color-mapping function by any other leaves the
    status, the summary and the details of the noise-consistency and of the
    edge-inconsistency results unchanged, for every image; the same holds
    for every field but the overlay. *)
Theorem color_map_noninterference
    (fmt : Format) (heatmap1 heatmap2 : list float -> Z -> Z -> bool -> ImageData)
    (file : ImageFile) :
  let n1 := checkNoiseConsistencyWith heatmap1 file in
  let n2 := checkNoiseConsistencyWith heatmap2 file in
  let e1 := checkEdgeInconsistencyWith heatmap1 file in
  let e2 := checkEdgeInconsistencyWith heatmap2 file in
  (status n1 = status n2 /\ summary n1 = summary n2
   /\ details n1 = details n2)
  /\ (status e1 = status e2 /\ summary e1 = summary e2
      /\ details e1 = details e2)
  /\ (id n1 = id n2 /\ name n1 = name n2 /\ confidence n1 = confidence n2
      /\ notes n1 = notes n2 /\ regions n1 = regions n2)
  /\ (id e1 = id e2 /\ name e1 = name e2 /\ confidence e1 = confidence e2
      /\ notes e1 = notes e2 /\ regions e1 = regions e2).
Proof.
  cbv zeta. unfold checkNoiseConsistencyWith, checkEdgeInconsistencyWith.
  break_result; repeat split; reflexivity.
Qed.

(** ** Error-level analysis: failure containment *)

(** C7.  [performELA] never rejects.  On a non-JPEG file it resolves at
    once with the informational not-applicable result and leaves the event
    trace untouched: the re-encoder is not called; every field of that
    result is a constant except the 'Format' detail, which names the
    detected type.  On a JPEG file whose re-encoding is rejected it
    resolves with the info-status result of confidence 0.1 whose details
    carry the error message. *)
Theorem performELA_contains_failures
    (fmt : Format) (reencoder : nat -> float -> Thrown + ImageData)
    (file : ImageFile) (tr : list Event) :
  (exists r tr', performELA reencoder file tr = (inr (Some r), tr'))
  /\ (isJpeg (detectFileType (arrayBuffer file)) = false ->
      exists format,
        (detectFileType (arrayBuffer file) = Some format
         \/ detectFileType (arrayBuffer file) = None /\ format = "Unknown")
        /\ performELA reencoder file tr
        = (inr (Some
             {| id := "ela";
                name := "Error Level Analysis";
                status := info;
                summary := "ELA not applicable (non-JPEG)";
                details :=
                  [("Format", DStr format);
                   ("Note", DStr "ELA is designed for JPEG images")];
                confidence := 0.3;
                notes := "Error Level Analysis is most meaningful for JPEG images. For PNG or other formats, the analysis would not provide useful results.";
                overlay := None;
                regions := None |}), tr))
  /\ (forall error,
      isJpeg (detectFileType (arrayBuffer file)) = true ->
      reencoder (canvas file) (Z2F ELA_QUALITY / 100)%float = inl error ->
      performELA reencoder file tr
      = (inr (Some (elaFailed error)),
         tr ++ [Reencode (canvas file) (Z2F ELA_QUALITY / 100)%float])
      /\ status (elaFailed error) = info
      /\ confidence (elaFailed error) = 0.1%float
      /\ details (elaFailed error)
         = [("Error", DStr match error with
                           | ErrorObject message => message
                           | OtherValue => "Unknown error"
                           end)]).
Proof.
  split; [apply performELA_resolves|]. split.
  - intros J. unfold performELA. rewrite J. cbn [negb]. unfold ret.
    destruct (detectFileType_cases (arrayBuffer file))
      as [E | [E | [E | [E | E]]]]; rewrite E;
      eexists; (split; [|reflexivity]); auto.
  - intros error J R. unfold performELA. rewrite J. cbn [negb].
    unfold tryCatch, bind, reencodeJpeg. rewrite R. repeat split.
Qed.

(** On the sample files: the PNG pixel gets the not-applicable result and
    no event; the JPEG pixel with a failing re-encoder gets the failure
    result after the one re-encoder call at quality 0.9. *)
Lemma performELA_contains_failures_witness :
  (exists format,
     (detectFileType (arrayBuffer onePixelPng) = Some format
      \/ detectFileType (arrayBuffer onePixelPng) = None
         /\ format = "Unknown")
     /\ performELA (fmt := sampleFormat) failingReencoder onePixelPng []
     = (inr (Some
          {| id := "ela";
             name := "Error Level Analysis";
             status := info;
             summary := "ELA not applicable (non-JPEG)";
             details :=
               [("Format", DStr format);
                ("Note", DStr "ELA is designed for JPEG images")];
             confidence := 0.3;
             notes := "Error Level Analysis is most meaningful for JPEG images. For PNG or other formats, the analysis would not provide useful results.";
             overlay := None;
             regions := None |}), []))
  /\ performELA (fmt := sampleFormat) failingReencoder onePixelJpeg []
     = (inr (Some (elaFailed (ErrorObject "Failed to create blob"))),
        [Reencode 2 0.9]).
Proof.
  split.
  - destruct (performELA_contains_failures sampleFormat failingReencoder
                onePixelPng []) as (_ & N & _).
    apply N. reflexivity.
  - destruct (performELA_contains_failures sampleFormat failingReencoder
                onePixelJpeg []) as (_ & _ & F).
    destruct (F (ErrorObject "Failed to create blob") eq_refl eq_refl)
      as (E & _).
    exact E.
Defined.

(** ** JPEG quality estimate *)

Lemma get_Some_range {A} (l : list A) i x :
  get l i = Some x -> 0 <= i < Z.of_nat (List.length l).
Proof.
  unfold get. destruct (Z.ltb_spec i 0); [discriminate|]. intros E.
  assert (nth_error l (Z.to_nat i) <> None) as N by congruence.
  apply nth_error_Some in N. lia.
Qed.

Lemma get_in_range {A} (l : list A) i :
  0 <= i < Z.of_nat (List.length l) -> exists x, get l i = Some x.
Proof.
  intros R. unfold get. destruct (Z.ltb_spec i 0); [lia|].
  destruct (nth_error l (Z.to_nat i)) eqn:E; [eauto|].
  apply nth_error_None in E. lia.
Qed.

Lemma byteIs_true bytes i v :
  byteIs bytes i v = true <-> get bytes i = Some v.
Proof.
  unfold byteIs. destruct (get bytes i) as [b|]; split; try discriminate.
  - intros H. apply Byte.byte_dec_bl in H. now subst.
  - intros [= ->]. apply Byte.byte_dec_lb. reflexivity.
Qed.

Lemma byteZ_range b : 0 <= byteZ b < 256.
Proof. unfold byteZ. pose proof (Byte.to_N_bounded b). lia. Qed.

Lemma lor_shiftl_low h l :
  0 <= h -> 0 <= l < 2 ^ 8 -> Z.lor (Z.shiftl h 8) l = 256 * h + l.
Proof.
  intros Hh Hl.
  assert (D : Z.land (Z.shiftl h 8) l = 0).
  { apply Z.bits_inj'. intros n Hn. rewrite Z.land_spec, Z.bits_0.
    destruct (Z.ltb_spec n 8).
    - rewrite Z.shiftl_spec_low by lia. reflexivity.
    - assert (B : Z.testbit l n = false).
      { destruct (Z.eq_dec l 0) as [->|]; [apply Z.bits_0|].
        apply Z.bits_above_log2; [lia|].
        apply Z.log2_lt_pow2; [lia|].
        apply Z.lt_le_trans with (2 ^ 8); [lia|].
        apply Z.pow_le_mono_r; lia. }
      rewrite B. apply andb_false_r. }
  pose proof (Z.add_lor_land (Z.shiftl h 8) l) as E.
  rewrite D, Z.add_0_r in E. rewrite E, Z.shiftl_mul_pow2 by lia. lia.
Qed.

Lemma toInt32_small z : 0 <= z < 2 ^ 31 -> toInt32 z = z.
Proof.
  intros H. unfold toInt32. rewrite Z.mod_small by lia.
  destruct (Z.ltb_spec z (2 ^ 31)); lia.
Qed.

Lemma segmentLength_bytes bytes i hi lo :
  get bytes (i + 2) = Some hi -> get bytes (i + 3) = Some lo ->
  segmentLength bytes i = 256 * byteZ hi + byteZ lo.
Proof.
  intros H2 H3. unfold segmentLength, shl32. rewrite H2, H3. simpl int32Byte.
  pose proof (byteZ_range hi). pose proof (byteZ_range lo).
  rewrite (toInt32_small (byteZ hi)) by lia.
  rewrite Z.shiftl_mul_pow2 by lia.
  rewrite toInt32_small by lia.
  rewrite <- Z.shiftl_mul_pow2 by lia.
  apply lor_shiftl_low; lia.
Qed.

(** The float computation of the quality agrees, on every byte, with the
    integer function of the specification, and stays within 1..100. *)
Lemma qualityFromQ0_byte (b : byte) :
  qualityFromQ0 (byte2F b) = Z2F (qualityOfCoefficient (byteZ b))
  /\ PrimFloat.leb 1 (qualityFromQ0 (byte2F b)) = true
  /\ PrimFloat.leb (qualityFromQ0 (byte2F b)) 100 = true.
Proof. destruct b; vm_compute; repeat split. Qed.

Lemma qualityOfCoefficient_range q0 : 1 <= qualityOfCoefficient q0 <= 100.
Proof. unfold qualityOfCoefficient. cbv zeta. lia. Qed.

Lemma dqtStep_Some bytes i q :
  0 <= i ->
  dqtStep bytes i = Some q <->
  exists q0, dqtAt bytes i q0 /\ q = qualityFromQ0 (byte2F q0).
Proof.
  intros Hi. unfold dqtStep, dqtAt. split.
  - destruct (byteIs bytes i xff) eqn:B0; [|discriminate].
    destruct (byteIs bytes (i + 1) xdb) eqn:B1; [|discriminate].
    simpl andb. cbv zeta.
    destruct (Z.leb_spec 67 (segmentLength bytes i)) as [L|]; [|discriminate].
    destruct (get bytes (i + 5)) as [q0|] eqn:G5; [|discriminate].
    destruct (Byte.eqb q0 x00) eqn:Z0; [discriminate|].
    intros [= <-]. exists q0.
    apply byteIs_true in B0. apply byteIs_true in B1.
    pose proof (get_Some_range _ _ _ G5) as R5.
    destruct (get_in_range bytes (i + 2)) as [hi Hhi]; [lia|].
    destruct (get_in_range bytes (i + 3)) as [lo Hlo]; [lia|].
    rewrite (segmentLength_bytes _ _ _ _ Hhi Hlo) in L.
    repeat split; trivial.
    + exists hi, lo. auto.
    + intros ->. discriminate.
  - intros (q0 & (G0 & G1 & (hi & lo & Hhi & Hlo & L) & G5 & N) & ->).
    apply byteIs_true in G0. apply byteIs_true in G1. rewrite G0, G1.
    simpl andb. cbv zeta.
    rewrite (segmentLength_bytes _ _ _ _ Hhi Hlo).
    destruct (Z.leb_spec 67 (256 * byteZ hi + byteZ lo)); [|lia].
    rewrite G5.
    destruct (Byte.eqb q0 x00) eqn:Z0; [|reflexivity].
    apply Byte.byte_dec_bl in Z0. contradiction.
Qed.

Lemma dqtStep_None bytes i :
  0 <= i -> (forall q0, ~ dqtAt bytes i q0) -> dqtStep bytes i = None.
Proof.
  intros Hi N. destruct (dqtStep bytes i) as [q|] eqn:E; [|reflexivity].
  apply dqtStep_Some in E as (q0 & D & _); [|exact Hi].
  exfalso. exact (N q0 D).
Qed.

Lemma In_range i lo hi : In i (range lo hi) <-> lo <= i < hi.
Proof.
  unfold range. rewrite in_map_iff. split.
  - intros (k & <- & Hk). apply in_seq in Hk. lia.
  - intros H. exists (Z.to_nat (i - lo)). split; [lia|].
    apply in_seq. lia.
Qed.

Lemma map_seq_from lo a n :
  map (fun k => lo + Z.of_nat k) (seq a n)
  = map (fun k => lo + Z.of_nat a + Z.of_nat k) (seq 0 n).
Proof.
  revert lo a. induction n as [|n IH]; intros lo a; [reflexivity|].
  simpl. f_equal; [lia|].
  rewrite (IH lo (S a)), (IH (lo + Z.of_nat a) 1%nat).
  apply map_ext. intros k. lia.
Qed.

Lemma range_split lo i hi :
  lo <= i < hi -> range lo hi = range lo i ++ i :: range (i + 1) hi.
Proof.
  intros H. unfold range.
  replace (Z.to_nat (hi - lo))
    with (Z.to_nat (i - lo) + S (Z.to_nat (hi - (i + 1))))%nat by lia.
  rewrite seq_app, map_app. f_equal. simpl seq. simpl map. f_equal; [lia|].
  rewrite map_seq_from. apply map_ext. intros k. lia.
Qed.

Lemma firstReturn_None {A} (body : Z -> option A) l :
  (forall i, In i l -> body i = None) -> firstReturn body l = None.
Proof.
  induction l as [|i l IH]; intros H; [reflexivity|]. simpl.
  rewrite (H i) by now left. apply IH. intros j Hj. apply H. now right.
Qed.

Lemma firstReturn_first {A} (body : Z -> option A) l1 i l2 r :
  (forall j, In j l1 -> body j = None) -> body i = Some r ->
  firstReturn body (l1 ++ i :: l2) = Some r.
Proof.
  intros H Hi. induction l1 as [|j l1 IH]; simpl.
  - now rewrite Hi.
  - rewrite (H j) by now left. apply IH. intros k Hk. apply H. now right.
Qed.

Lemma firstReturn_Some {A} (body : Z -> option A) l r :
  firstReturn body l = Some r -> exists i, In i l /\ body i = Some r.
Proof.
  induction l as [|i l IH]; [discriminate|]. simpl.
  destruct (body i) as [x|] eqn:E.
  - intros [= <-]. exists i. split; [now left|exact E].
  - intros H. destruct (IH H) as (j & Hj & Ej). exists j. split; [now right|exact Ej].
Qed.

(** C4.  The estimate is decided by the first DQT marker the scan finds
    (FF DB, segment length at least 67, non-zero DC coefficient [q0]): it
    is the piecewise function of [q0] of the specification, clamped to
    1..100.  Every estimate produced arises this way and lies in 1..100;
    when the scan finds no such marker, no estimate is produced. *)
Theorem estimateJpegQuality_correct (bytes : list byte) :
  (forall i q0,
      scanned bytes i -> dqtAt bytes i q0 ->
      (forall j q, scanned bytes j -> j < i -> ~ dqtAt bytes j q) ->
      estimateJpegQuality bytes = Some (Z2F (qualityOfCoefficient (byteZ q0))))
  /\ (forall q,
         estimateJpegQuality bytes = Some q ->
         exists i q0,
           scanned bytes i /\ dqtAt bytes i q0
           /\ q = Z2F (qualityOfCoefficient (byteZ q0))
           /\ 1 <= qualityOfCoefficient (byteZ q0) <= 100
           /\ PrimFloat.leb 1 q = true /\ PrimFloat.leb q 100 = true)
  /\ ((forall i q0, scanned bytes i -> ~ dqtAt bytes i q0) ->
      estimateJpegQuality bytes = None).
Proof.
  unfold estimateJpegQuality, scanned. split; [|split].
  - intros i q0 Hi D First.
    rewrite (range_split 0 i _ Hi).
    apply firstReturn_first.
    + intros j Hj. apply In_range in Hj. apply dqtStep_None; [lia|].
      intros q. apply First; lia.
    + destruct (qualityFromQ0_byte q0) as (<- & _).
      apply dqtStep_Some; [lia|]. exists q0. auto.
  - intros q H. apply firstReturn_Some in H as (i & Hi & E).
    apply In_range in Hi.
    apply dqtStep_Some in E as (q0 & D & ->); [|lia].
    exists i, q0. destruct (qualityFromQ0_byte q0) as (Q & L1 & L2).
    split; [lia|]. split; [exact D|]. split; [exact Q|].
    split; [apply qualityOfCoefficient_range|]. split; assumption.
  - intros N. apply firstReturn_None. intros i Hi. apply In_range in Hi.
    apply dqtStep_None; [lia|]. intros q0. apply N. lia.
Qed.

(** A sample buffer: SOI, then a DQT segment of length 67 whose DC
    coefficient is 8, followed by filler. *)
Lemma estimateJpegQuality_correct_witness :
  estimateJpegQuality
    ([xff; xd8; xff; xdb; x00; x43; x00; x08] ++ repeat x01 70)
  = Some 84%float.
Proof.
  pose (bytes := [xff; xd8; xff; xdb; x00; x43; x00; x08] ++ repeat x01 70).
  destruct (estimateJpegQuality_correct bytes) as (First & _ & _).
  apply (First 2 x08).
  - unfold scanned. vm_compute. split; [discriminate|reflexivity].
  - split; [reflexivity|]. split; [reflexivity|].
    split; [exists x00, x43; repeat split; vm_compute; discriminate|].
    split; [reflexivity|discriminate].
  - intros j q [Hj _] Hlt (G0 & G1 & _).
    assert (j = 0 \/ j = 1) as [-> | ->] by lia; discriminate.
Defined.

(** How the check reports the estimate: nothing for a non-JPEG file, the
    'Unknown' info result when no estimate is produced, the estimate
    otherwise. *)
Lemma checkJpegQuality_cases (fmt : Format) (file : ImageFile) :
  (isJpeg (detectFileType (arrayBuffer file)) = false ->
   checkJpegQuality file = None)
  /\ (isJpeg (detectFileType (arrayBuffer file)) = true ->
      estimateJpegQuality (arrayBuffer file) = None ->
      exists r, checkJpegQuality file = Some r /\ status r = info
                /\ lookup "Quality Estimate" (details r)
                   = Some (DStr "Unknown"))
  /\ (forall q,
      isJpeg (detectFileType (arrayBuffer file)) = true ->
      estimateJpegQuality (arrayBuffer file) = Some q ->
      exists r, checkJpegQuality file = Some r
                /\ lookup "Quality Estimate" (details r)
                   = Some (DStr (toString q ++ "%")%string)).
Proof.
  unfold checkJpegQuality. split; [|split].
  - intros J. rewrite J. reflexivity.
  - intros J E. rewrite J, E. eexists. repeat split.
  - intros q J E. rewrite J, E. cbn [negb].
    destruct (PrimFloat.ltb q 50); [eexists; split; reflexivity|].
    destruct (PrimFloat.ltb q 75); [eexists; split; reflexivity|].
    destruct (PrimFloat.ltb q 90); eexists; split; reflexivity.
Qed.

(** ** Uniform-area check *)

Lemma length_range lo hi : List.length (range lo hi) = Z.to_nat (hi - lo).
Proof. unfold range. now rewrite length_map, length_seq. Qed.

Lemma length_grid {A B} (lx : list A) (ly : list B) :
  List.length (flat_map (fun y => map (fun x => (x, y)) lx) ly)
  = (List.length ly * List.length lx)%nat.
Proof.
  induction ly as [|k l IH]; [reflexivity|].
  simpl. rewrite length_app, length_map, IH. reflexivity.
Qed.

Lemma length_blockCoords blocksX blocksY :
  List.length (blockCoords blocksX blocksY)
  = (Z.to_nat blocksY * Z.to_nat blocksX)%nat.
Proof.
  unfold blockCoords. rewrite length_grid, !length_range, !Z.sub_0_r.
  reflexivity.
Qed.

(** Loop invariants: a property of the indices done so far and the loop
    state, kept by every iteration, holds of the whole loop. *)
Lemma fold_left_invariant {S A} (P : list A -> S -> Prop)
    (f : S -> A -> S) (l : list A) (s0 : S) :
  P [] s0 ->
  (forall done x s, P done s -> P (done ++ [x]) (f s x)) ->
  P l (fold_left f l s0).
Proof.
  intros H0 Step.
  assert (G : forall done s, P done s -> P (done ++ l) (fold_left f l s)).
  { induction l as [|x l IH]; intros done s H; simpl.
    - now rewrite app_nil_r.
    - replace (done ++ x :: l) with ((done ++ [x]) ++ l)
        by (rewrite <- app_assoc; reflexivity).
      apply IH, Step, H. }
  exact (G [] s0 H0).
Qed.

Lemma for_invariant {S} (P : list Z -> S -> Prop) (lo hi : Z)
    (body : Z -> S -> S) (s0 : S) :
  P [] s0 ->
  (forall done i s, P done s -> P (done ++ [i]) (body i s)) ->
  P (range lo hi) (for_ lo hi body s0).
Proof.
  intros H0 Step. unfold for_. apply fold_left_invariant; [exact H0|].
  intros done x s. apply Step.
Qed.

Lemma analyzeUniformity_ratio (img : ImageData) :
  uniformRatio (analyzeUniformity img)
  = if (floorDiv (i_width img) 16 <? 2) || (floorDiv (i_height img) 16 <? 2)
    then 0%float
    else uniformBlockRatio img.
Proof.
  unfold analyzeUniformity. cbv zeta.
  destruct ((floorDiv (i_width img) 16 <? 2)
            || (floorDiv (i_height img) 16 <? 2)) eqn:G; [reflexivity|].
  apply orb_false_iff in G as [GX GY].
  apply Z.ltb_ge in GX. apply Z.ltb_ge in GY.
  set (blocksX := floorDiv (i_width img) 16) in *.
  set (blocksY := floorDiv (i_height img) 16) in *.
  pose (rowOf := fun by_ : Z => map (fun bx => (bx, by_)) (range 0 blocksX)).
  pose (count := fun l : list (Z * Z) =>
                   Z.of_nat (List.length (filter (isUniformBlock img) l))).
  match goal with
  | |- context [for_ 0 blocksY ?body ?init] =>
      pose proof (for_invariant
        (fun done (s : Z * Z * list (list float)) =>
           fst (fst s) = count (flat_map rowOf done)
           /\ snd (fst s) = Z.of_nat (List.length (flat_map rowOf done)))
        0 blocksY body init) as Inv;
      destruct (for_ 0 blocksY body init) as [[uniformBlocks totalBlocks] um]
  end.
  destruct Inv as [U T].
  - split; reflexivity.
  - intros done by_ [[ub tb] um'] [Hu Ht]. simpl in Hu, Ht.
    match goal with
    | |- context [for_ 0 blocksX ?body ?init] =>
        pose proof (for_invariant
          (fun done' (s : Z * Z * list float) =>
             fst (fst s) = ub + count (map (fun bx => (bx, by_)) done')
             /\ snd (fst s) = tb + Z.of_nat (List.length done'))
          0 blocksX body init) as Inner;
        destruct (for_ 0 blocksX body init) as [[ub' tb'] row]
    end.
    destruct Inner as [U' T'].
    + simpl. unfold count. simpl. split; lia.
    + intros done' bx [[ub1 tb1] row1] [Hu1 Ht1]. simpl in Hu1, Ht1. simpl.
      rewrite map_app, length_app. unfold count in *.
      rewrite filter_app, length_app. simpl.
      unfold isUniformBlock at 2, blockStdDev. simpl.
      destruct (PrimFloat.ltb _ 3); simpl; split; lia.
    + simpl in U', T'. simpl.
      rewrite !flat_map_app. simpl. rewrite !app_nil_r.
      unfold count, rowOf in *.
      rewrite filter_app, !length_app, length_map. split; lia.
  - simpl in U, T. simpl.
    assert (L : flat_map rowOf (range 0 blocksY) = blockCoords blocksX blocksY)
      by reflexivity.
    rewrite L in U, T.
    assert (0 < totalBlocks).
    { rewrite T, length_blockCoords. nia. }
    destruct (Z.ltb_spec 0 totalBlocks); [|lia].
    unfold uniformBlockRatio, nat2F. fold blocksX blocksY.
    rewrite U, T. reflexivity.
Qed.

(** C5, as amended.  The uniform-area check takes the ratio of uniform
    16x16 blocks (luminance standard deviation below 3) to all blocks when
    the image holds at least two blocks along each axis, and 0 otherwise;
    its status is 'warn' when the ratio exceeds 0.3 and 'info' in every
    other case.  It is never 'ok'. *)
Theorem checkUniformAreas_status (fmt : Format) (file : ImageFile) :
  let img := imageData file in
  let ratio :=
    if (floorDiv (i_width img) 16 <? 2) || (floorDiv (i_height img) 16 <? 2)
    then 0%float
    else uniformBlockRatio img in
  uniformRatio (analyzeUniformity img) = ratio
  /\ status (checkUniformAreas file) = (if gtb ratio 0.3 then warn else info)
  /\ status (checkUniformAreas file) <> ok.
Proof.
  cbv zeta. rewrite <- analyzeUniformity_ratio.
  split; [reflexivity|].
  unfold checkUniformAreas. cbv zeta.
  destruct (gtb (uniformRatio (analyzeUniformity (imageData file))) 0.3);
    [split; [reflexivity|discriminate]|].
  destruct (gtb (uniformRatio (analyzeUniformity (imageData file))) 0.1);
    split; solve [reflexivity|discriminate].
Qed.

(** C5 as stated fails twice.  On the checkerboard no block is uniform:
    the ratio is 0 and the stated status is 'ok', but the check answers
    'info'.  On the gray strip both blocks are uniform: the stated ratio is
    1 and the stated status 'warn', but the image has a single column of
    blocks, the check takes the ratio as 0 and answers 'info'. *)
Lemma checkUniformAreas_claim_fails :
  (claimedUniformStatus (uniformBlockRatio (imageData checkerboard32)) = ok
   /\ status (checkUniformAreas (fmt := sampleFormat) checkerboard32) = info)
  /\ (claimedUniformStatus (uniformBlockRatio (imageData grayStrip)) = warn
      /\ status (checkUniformAreas (fmt := sampleFormat) grayStrip) = info).
Proof. vm_compute. repeat split. Qed.

(** ** Typed-array stores and raster loops *)

Lemma length_set_nat {A} (l : list A) i v :
  List.length (set_nat l i v) = List.length l.
Proof.
  revert i. induction l as [|h t IH]; intros [|i]; simpl; auto.
Qed.

Lemma length_set {A} (l : list A) i v :
  List.length (set l i v) = List.length l.
Proof. unfold set. destruct (i <? 0); [reflexivity|apply length_set_nat]. Qed.

Lemma nth_set_nat_same {A} (l : list A) i v :
  (i < List.length l)%nat -> nth_error (set_nat l i v) i = Some v.
Proof.
  revert i. induction l as [|h t IH]; intros [|i] H; simpl in *; try lia; auto.
  apply IH. lia.
Qed.

Lemma nth_set_nat_other {A} (l : list A) i j v :
  i <> j -> nth_error (set_nat l i v) j = nth_error l j.
Proof.
  revert i j.
  induction l as [|h t IH]; intros [|i] [|j] H; simpl; auto; try congruence.
Qed.

Lemma get_set_same {A} (l : list A) i v :
  0 <= i < Z.of_nat (List.length l) -> get (set l i v) i = Some v.
Proof.
  intros H. unfold get, set. destruct (Z.ltb_spec i 0); [lia|].
  apply nth_set_nat_same. lia.
Qed.

Lemma get_set_other {A} (l : list A) i j v :
  i <> j -> get (set l i v) j = get l j.
Proof.
  intros H. unfold get, set.
  destruct (Z.ltb_spec j 0); [reflexivity|].
  destruct (Z.ltb_spec i 0); [reflexivity|].
  apply nth_set_nat_other. lia.
Qed.

Lemma fold_left_invariant_in {S A} (P : list A -> S -> Prop)
    (f : S -> A -> S) (l : list A) (s0 : S) :
  P [] s0 ->
  (forall done x s, In x l -> P done s -> P (done ++ [x]) (f s x)) ->
  P l (fold_left f l s0).
Proof.
  intros H0 Step.
  assert (G : forall rest done s,
             (forall x, In x rest -> In x l) ->
             P done s -> P (done ++ rest) (fold_left f rest s)).
  { induction rest as [|x rest IH]; intros done s Sub H; simpl.
    - now rewrite app_nil_r.
    - replace (done ++ x :: rest) with ((done ++ [x]) ++ rest)
        by (rewrite <- app_assoc; reflexivity).
      apply IH; [intros y Hy; apply Sub; now right|].
      apply Step; [apply Sub; now left|exact H]. }
  exact (G l [] s0 (fun x H => H) H0).
Qed.

Lemma for_invariant_in {S} (P : list Z -> S -> Prop) (lo hi : Z)
    (body : Z -> S -> S) (s0 : S) :
  P [] s0 ->
  (forall done i s, lo <= i < hi -> P done s -> P (done ++ [i]) (body i s)) ->
  P (range lo hi) (for_ lo hi body s0).
Proof.
  intros H0 Step. unfold for_. apply fold_left_invariant_in; [exact H0|].
  intros done x s Hx. apply Step. now apply In_range.
Qed.

(** The raster loop over the interior pixels: every interior cell receives
    its value, every other cell is left as it was. *)
Lemma raster_interior {A} (w h : Z) (F : Z -> A) (a0 : list A) :
  List.length a0 = Z.to_nat (w * h) ->
  let a :=
    for_ 1 (h - 1) (fun y a =>
      for_ 1 (w - 1) (fun x a => set a (y * w + x) (F (y * w + x))) a) a0 in
  List.length a = List.length a0
  /\ (forall x y, 1 <= x < w - 1 -> 1 <= y < h - 1 ->
      get a (y * w + x) = Some (F (y * w + x)))
  /\ (forall j,
      (forall x y, 1 <= x < w - 1 -> 1 <= y < h - 1 -> j <> y * w + x) ->
      get a j = get a0 j).
Proof.
  intros L. cbv zeta.
  pose (P := fun (done : list Z) (a : list A) =>
    List.length a = List.length a0
    /\ (forall x y, 1 <= x < w - 1 -> In y done ->
        get a (y * w + x) = Some (F (y * w + x)))
    /\ (forall j,
        (forall x y, 1 <= x < w - 1 -> In y done -> j <> y * w + x) ->
        get a j = get a0 j)).
  assert (H : P (range 1 (h - 1))
                (for_ 1 (h - 1) (fun y a =>
                   for_ 1 (w - 1)
                     (fun x a => set a (y * w + x) (F (y * w + x))) a) a0)).
  { apply for_invariant_in.
    - split; [reflexivity|]. split; [intros x y _ []|reflexivity].
    - intros done y a Hy (L0 & I1 & I2).
      pose (Q := fun (dx : list Z) (b : list A) =>
        List.length b = List.length a
        /\ (forall x, In x dx -> get b (y * w + x) = Some (F (y * w + x)))
        /\ (forall j, (forall x, In x dx -> j <> y * w + x) ->
            get b j = get a j)).
      assert (HQ : Q (range 1 (w - 1))
                     (for_ 1 (w - 1)
                        (fun x a => set a (y * w + x) (F (y * w + x))) a)).
      { apply for_invariant_in.
        - split; [reflexivity|]. split; [intros x []|reflexivity].
        - intros dx x b Hx (Lb & J1 & J2).
          split; [rewrite length_set; exact Lb|]. split.
          + intros x' Hx'. apply in_app_or in Hx' as [Hx'|[<-|[]]].
            * destruct (Z.eq_dec (y * w + x) (y * w + x')) as [E|N].
              -- rewrite <- E. apply get_set_same. rewrite Lb, L0, L. nia.
              -- rewrite get_set_other by exact N. now apply J1.
            * apply get_set_same. rewrite Lb, L0, L. nia.
          + intros j Hj. rewrite get_set_other.
            * apply J2. intros x' Hx'. apply Hj. apply in_or_app. now left.
            * intros E. apply (Hj x); [apply in_or_app; right; now left|].
              now symmetry. }
      destruct HQ as (Lb & J1 & J2).
      split; [rewrite Lb; exact L0|]. split.
      + intros x y' Hx Hy'. apply in_app_or in Hy' as [Hy'|[<-|[]]].
        * destruct (Z.eq_dec y y') as [<-|N].
          -- apply J1. now apply In_range.
          -- rewrite J2; [now apply I1|].
             intros x' Hx'. apply In_range in Hx'. nia.
        * apply J1. now apply In_range.
      + intros j Hj. rewrite J2.
        * apply I2. intros x y' Hx Hy'. apply Hj; [exact Hx|].
          apply in_or_app. now left.
        * intros x Hx. apply In_range in Hx. apply Hj; [lia|].
          apply in_or_app. right. now left. }
  destruct H as (L0 & I1 & I2).
  split; [exact L0|]. split.
  - intros x y Hx Hy. apply I1; [exact Hx|]. now apply In_range.
  - intros j Hj. apply I2. intros x y Hx Hy. apply In_range in Hy. now apply Hj.
Qed.

(** ** Edge-inconsistency check *)

Lemma edgeSumCount_positive (edgeMap : list float) :
  edgeSumCount edgeMap
  = (sum (positiveMagnitudes edgeMap),
     Z.of_nat (List.length (positiveMagnitudes edgeMap))).
Proof.
  unfold edgeSumCount, sum, positiveMagnitudes.
  assert (G : forall l s c,
             fold_left (fun '(edgeSum, edgeCount) v =>
                          if gtb v 0 then ((edgeSum + v)%float, edgeCount + 1)
                          else (edgeSum, edgeCount)) l (s, c)
             = (fold_left PrimFloat.add (filter (fun v => gtb v 0) l) s,
                c + Z.of_nat (List.length (filter (fun v => gtb v 0) l)))).
  { induction l as [|v l IH]; intros s c; simpl.
    - now rewrite Z.add_0_r.
    - destruct (gtb v 0); simpl; rewrite IH; f_equal; lia. }
  rewrite G. reflexivity.
Qed.

Lemma edgeVarianceSum_positive (edgeMap : list float) (m : float) :
  edgeVarianceSum edgeMap m
  = sum (map (fun v => Math_pow2 (v - m)%float) (positiveMagnitudes edgeMap)).
Proof.
  unfold edgeVarianceSum, sum, positiveMagnitudes.
  assert (G : forall l s,
             fold_left (fun varianceSum v =>
                          if gtb v 0
                          then (varianceSum + Math_pow2 (v - m))%float
                          else varianceSum) l s
             = fold_left PrimFloat.add
                 (map (fun v => Math_pow2 (v - m)%float)
                      (filter (fun v => gtb v 0) l)) s).
  { induction l as [|v l IH]; intros s; simpl; [reflexivity|].
    destruct (gtb v 0); simpl; apply IH. }
  apply G.
Qed.

Lemma countStrongEdges_filter (edgeMap : list float) (threshold : float) :
  countStrongEdges edgeMap threshold
  = Z.of_nat (List.length (filter (fun v => gtb v threshold) edgeMap)).
Proof.
  unfold countStrongEdges.
  assert (G : forall l c,
             fold_left (fun strongEdgeCount v =>
                          if gtb v threshold then strongEdgeCount + 1
                          else strongEdgeCount) l c
             = c + Z.of_nat (List.length
                               (filter (fun v => gtb v threshold) l))).
  { induction l as [|v l IH]; intros c; simpl.
    - now rewrite Z.add_0_r.
    - destruct (gtb v threshold); simpl; rewrite IH; lia. }
  rewrite G. reflexivity.
Qed.

(** The loops of the check compute the statistics of the specification. *)
Lemma edgeStats_spec (edgeMap : list float) (width height : Z) :
  meanEdge (edgeStats edgeMap width height) = mean (positiveMagnitudes edgeMap)
  /\ stdEdge (edgeStats edgeMap width height)
     = standardDeviation (positiveMagnitudes edgeMap)
  /\ strongEdgeThreshold (edgeStats edgeMap width height)
     = strongEdgeThresholdOf edgeMap
  /\ strongEdgeRatio (edgeStats edgeMap width height)
     = strongEdgeRatioOf edgeMap (width * height).
Proof.
  unfold edgeStats. rewrite edgeSumCount_positive. cbv zeta.
  rewrite edgeVarianceSum_positive, countStrongEdges_filter.
  unfold strongEdgeRatioOf, strongEdgeThresholdOf, mean, standardDeviation,
    nat2F.
  set (pos := positiveMagnitudes edgeMap).
  destruct (List.length pos) as [|n] eqn:L.
  - simpl. repeat split.
  - assert (E : (0 <? Z.of_nat (S n)) = true) by (apply Z.ltb_lt; lia).
    rewrite E. simpl Nat.eqb. cbv iota. repeat split.
Qed.

Lemma length_Float32Array n : List.length (Float32Array n) = Z.to_nat n.
Proof. unfold Float32Array. apply repeat_length. Qed.

Lemma get_Float32Array n j :
  0 <= j < n -> get (Float32Array n) j = Some 0%float.
Proof.
  intros H. unfold get, Float32Array.
  destruct (Z.ltb_spec j 0); [lia|].
  apply nth_error_repeat. lia.
Qed.

(** The edge map holds the rounded Sobel magnitude at every interior
    pixel and 0 on the one-pixel border. *)
Lemma sobelEdgeMap_cells (width height : Z) (data : list byte) :
  let gray := grayscale32 width height data in
  let edgeMap := sobelEdgeMap width height data in
  List.length edgeMap = Z.to_nat (width * height)
  /\ (forall x y, 1 <= x < width - 1 -> 1 <= y < height - 1 ->
      get edgeMap (y * width + x)
      = Some (fround (sobelMagnitude gray width (y * width + x))))
  /\ (forall j, 0 <= j < width * height ->
      (forall x y, 1 <= x < width - 1 -> 1 <= y < height - 1 ->
                   j <> y * width + x) ->
      get edgeMap j = Some 0%float).
Proof.
  cbv zeta. unfold sobelEdgeMap.
  destruct (raster_interior width height
              (fun idx => fround (sobelMagnitude
                                    (grayscale32 width height data) width idx))
              (Float32Array (width * height))
              (length_Float32Array _)) as (L & I & O).
  split; [rewrite <- (length_Float32Array (width * height)); exact L|].
  split; [exact I|].
  intros j Hj Hborder. rewrite <- (get_Float32Array (width * height) j Hj).
  apply O, Hborder.
Qed.

(** C6.  The edge-inconsistency check computes Sobel gradient magnitudes:
    its edge map has one cell per pixel, every interior cell holds
    [sqrt (gx * gx + gy * gy)] rounded to binary32, where [gx] and [gy]
    are the 3x3 Sobel responses on the grayscale image (west and east
    columns weighted -1 -2 -1 and 1 2 1 for [gx], north and south rows
    for [gy]), and every cell of the one-pixel border is 0.  The check
    takes mean and standard deviation over the strictly positive entries
    of that map only, counts the entries above mean + 3 * stddev, and
    answers 'info' when that count divided by the pixel count exceeds
    0.02 and 'ok' otherwise; it never answers 'warn' or 'fail'.  The
    'Mean Edge Strength' it reports is the mean over the positive
    entries. *)
Theorem checkEdgeInconsistency_status
    (fmt : Format) (heatmap : list float -> Z -> Z -> bool -> ImageData)
    (file : ImageFile) :
  let gray :=
    grayscale32 (width file) (height file) (i_data (imageData file)) in
  let g i := num (get gray i) in
  let edgeMap :=
    sobelEdgeMap (width file) (height file) (i_data (imageData file)) in
  let positive := filter (fun v => gtb v 0) edgeMap in
  let threshold :=
    (mean positive + 3 * standardDeviation positive)%float in
  let strong := List.length (filter (fun v => gtb v threshold) edgeMap) in
  let ratio := (nat2F strong / Z2F (width file * height file))%float in
  List.length edgeMap = Z.to_nat (width file * height file)
  /\ (forall x y, 1 <= x < width file - 1 -> 1 <= y < height file - 1 ->
      let idx := y * width file + x in
      let nw := g (idx - width file - 1) in
      let n := g (idx - width file) in
      let ne := g (idx - width file + 1) in
      let w := g (idx - 1) in
      let e := g (idx + 1) in
      let sw := g (idx + width file - 1) in
      let s := g (idx + width file) in
      let se := g (idx + width file + 1) in
      let gx := (- nw + ne + -2 * w + 2 * e + - sw + se)%float in
      let gy := (- nw - 2 * n - ne + sw + 2 * s + se)%float in
      get edgeMap idx = Some (fround (Math_sqrt (gx * gx + gy * gy)%float)))
  /\ (forall j, 0 <= j < width file * height file ->
      (forall x y, 1 <= x < width file - 1 -> 1 <= y < height file - 1 ->
                   j <> y * width file + x) ->
      get edgeMap j = Some 0%float)
  /\ status (checkEdgeInconsistencyWith heatmap file)
     = (if gtb ratio 0.02 then info else ok)
  /\ status (checkEdgeInconsistencyWith heatmap file) <> warn
  /\ status (checkEdgeInconsistencyWith heatmap file) <> fail
  /\ lookup "Mean Edge Strength"
       (details (checkEdgeInconsistencyWith heatmap file))
     = Some (DStr (toFixed (mean positive) 2)).
Proof.
  cbv zeta.
  destruct (sobelEdgeMap_cells (width file) (height file)
              (i_data (imageData file))) as (L & I & O).
  split; [exact L|]. split; [exact I|]. split; [exact O|].
  unfold checkEdgeInconsistencyWith. cbv zeta.
  destruct (edgeStats_spec
              (sobelEdgeMap (width file) (height file) (i_data (imageData file)))
              (width file) (height file)) as (M & _ & _ & R).
  rewrite R, M.
  unfold strongEdgeRatioOf, strongEdgeThresholdOf, positiveMagnitudes.
  match goal with
  | |- context [if ?c then _ else _] => destruct c
  end; repeat split; discriminate.
Qed.

(** ** Binary64 arithmetic: a coarse bound on rounded differences

    The social heuristic compares [|aspectRatio - target|] with a
    tolerance in binary64 arithmetic.  The lemmas below read the
    specification of the primitive operations ([SpecFloat]) and show that
    such a comparison can only hold when the exact difference is below the
    power of two above the tolerance. *)

Lemma digits2_pos_bounds p :
  2 ^ (Zpos (digits2_pos p) - 1) <= Zpos p < 2 ^ Zpos (digits2_pos p).
Proof.
  induction p as [p IH|p IH|]; simpl digits2_pos.
  - rewrite Pos2Z.inj_succ.
    replace (Z.succ (Zpos (digits2_pos p)) - 1) with (Z.succ (Zpos (digits2_pos p) - 1)) by lia.
    rewrite !Z.pow_succ_r by lia. lia.
  - rewrite Pos2Z.inj_succ.
    replace (Z.succ (Zpos (digits2_pos p)) - 1) with (Z.succ (Zpos (digits2_pos p) - 1)) by lia.
    rewrite !Z.pow_succ_r by lia. lia.
  - simpl. lia.
Qed.

Lemma shr_1_m mrs : 0 <= shr_m mrs -> shr_m (shr_1 mrs) = shr_m mrs / 2.
Proof.
  destruct mrs as [m r s]. simpl. intros H.
  destruct m as [|p|p]; [reflexivity| |lia].
  destruct p as [p|p|]; simpl.
  - rewrite Pos2Z.inj_xI. apply Z.div_unique with 1; lia.
  - rewrite Pos2Z.inj_xO. apply Z.div_unique with 0; lia.
  - reflexivity.
Qed.

Lemma pow2_xO p : 2 ^ Zpos p~0 = 2 ^ Zpos p * 2 ^ Zpos p.
Proof. rewrite Pos2Z.inj_xO, <- Z.pow_add_r by lia. f_equal. lia. Qed.

Lemma pow2_xI p : 2 ^ Zpos p~1 = 2 * (2 ^ Zpos p * 2 ^ Zpos p).
Proof.
  rewrite Pos2Z.inj_xI, <- Z.pow_add_r, <- Z.pow_succ_r by lia. f_equal. lia.
Qed.

Lemma iter_shr_m p mrs :
  0 <= shr_m mrs ->
  shr_m (iter_pos shr_1 p mrs) = shr_m mrs / 2 ^ Zpos p.
Proof.
  revert mrs. induction p as [p IH|p IH|]; intros mrs H; simpl iter_pos.
  - assert (H1 : 0 <= shr_m (shr_1 mrs))
      by (rewrite shr_1_m by lia; apply Z.div_pos; lia).
    assert (H2 : 0 <= shr_m (iter_pos shr_1 p (shr_1 mrs)))
      by (rewrite IH by lia; apply Z.div_pos; lia).
    rewrite IH, IH, shr_1_m by lia.
    rewrite !Z.div_div by lia. rewrite pow2_xI. f_equal; lia.
  - assert (H2 : 0 <= shr_m (iter_pos shr_1 p mrs))
      by (rewrite IH by lia; apply Z.div_pos; lia).
    rewrite IH, IH by lia.
    rewrite !Z.div_div by lia. rewrite pow2_xO. reflexivity.
  - rewrite shr_1_m by lia. reflexivity.
Qed.

Lemma fexp_eq e : fexp prec emax e = fexp64 e.
Proof. reflexivity. Qed.

Lemma Zdigits2_pos p : Zdigits2 (Zpos p) = Zpos (digits2_pos p).
Proof. reflexivity. Qed.

Lemma Zdigits2_bounds m :
  0 < m -> 2 ^ (Zdigits2 m - 1) <= m < 2 ^ Zdigits2 m.
Proof.
  destruct m as [|p|p]; try lia. intros _. apply digits2_pos_bounds.
Qed.

Lemma Zdigits2_nonneg m : 0 <= Zdigits2 m.
Proof. destruct m; simpl; lia. Qed.

(** [shr_fexp] on a positive mantissa: the exponent rises to [fexp] when
    it is below, and the mantissa is divided accordingly. *)
Lemma shr_fexp_spec m e l :
  0 < m ->
  let '(mrs, e') := shr_fexp prec emax m e l in
  e' = Z.max e (fexp64 (Zdigits2 m + e))
  /\ shr_m mrs = m / 2 ^ (e' - e).
Proof.
  intros Hm. unfold shr_fexp, shr. rewrite fexp_eq.
  destruct (fexp64 (Zdigits2 m + e) - e) as [|p|p] eqn:E.
  - split; [lia|].
    rewrite Z.sub_diag. simpl Z.pow. rewrite Z.div_1_r.
    destruct l as [|[| |]]; reflexivity.
  - split; [lia|].
    rewrite iter_shr_m.
    + replace (e + Zpos p - e) with (Zpos p) by lia.
      destruct l as [|[| |]]; reflexivity.
    + destruct l as [|[| |]]; simpl; lia.
  - split; [lia|].
    rewrite Z.sub_diag. simpl Z.pow. rewrite Z.div_1_r.
    destruct l as [|[| |]]; reflexivity.
Qed.

(** In the normal range the shifted mantissa stays positive. *)
Lemma shifted_mantissa_pos m e :
  0 < m -> -1074 <= Zdigits2 m + e - 53 ->
  0 < m / 2 ^ (Z.max e (fexp64 (Zdigits2 m + e)) - e).
Proof.
  intros Hm Hn. pose proof (Zdigits2_bounds m Hm) as [Lo _].
  unfold fexp64.
  destruct (Z.le_gt_cases (Zdigits2 m + e - 53) e) as [H|H].
  - replace (Z.max e (Z.max (Zdigits2 m + e - 53) (-1074)) - e) with 0 by lia.
    simpl Z.pow. rewrite Z.div_1_r. exact Hm.
  - replace (Z.max e (Z.max (Zdigits2 m + e - 53) (-1074)) - e)
      with (Zdigits2 m - 53) by lia.
    apply Z.div_str_pos. split; [apply Z.pow_pos_nonneg; lia|].
    apply Z.le_trans with (2 ^ (Zdigits2 m - 1)); [|exact Lo].
    apply Z.pow_le_mono_r; lia.
Qed.

Lemma round_nearest_even_ge mx lx : mx <= round_nearest_even mx lx.
Proof.
  destruct lx as [|[| |]]; simpl; try lia. destruct (Z.even mx); lia.
Qed.

(** A positive mantissa of the normal range rounds to a finite number
    whose exponent is at least [fexp], or to an infinity: never to zero. *)
Lemma binary_round_aux_exponent s m e l k :
  0 < m -> -1074 <= k -> k <= Zdigits2 m + e - 53 ->
  match binary_round_aux prec emax s m e l with
  | S754_finite _ _ e' => k <= e'
  | S754_infinity _ => True
  | _ => False
  end.
Proof.
  intros Hm Hk Hd. unfold binary_round_aux.
  pose proof (shr_fexp_spec m e l Hm) as S1.
  pose proof (shifted_mantissa_pos m e Hm ltac:(lia)) as P1.
  destruct (shr_fexp prec emax m e l) as [mrs' e'].
  destruct S1 as [E1 M1]. rewrite <- E1, <- M1 in P1.
  set (m1 := round_nearest_even (shr_m mrs') (loc_of_shr_record mrs')).
  assert (Hm1 : 0 < m1)
    by (pose proof (round_nearest_even_ge (shr_m mrs') (loc_of_shr_record mrs'));
        unfold m1; lia).
  assert (He' : k <= e') by (unfold fexp64 in E1; lia).
  pose proof (shr_fexp_spec m1 e' loc_Exact Hm1) as S2.
  assert (P2 : 0 < m1 / 2 ^ (Z.max e' (fexp64 (Zdigits2 m1 + e')) - e')).
  { destruct (Z.le_gt_cases (-1074) (Zdigits2 m1 + e' - 53)) as [N|N].
    - apply shifted_mantissa_pos; assumption.
    - unfold fexp64.
      replace (Z.max e' (Z.max (Zdigits2 m1 + e' - 53) (-1074)) - e')
        with 0 by lia.
      simpl Z.pow. rewrite Z.div_1_r. exact Hm1. }
  destruct (shr_fexp prec emax m1 e' loc_Exact) as [mrs'' e''].
  destruct S2 as [E2 M2]. rewrite <- E2, <- M2 in P2.
  destruct (shr_m mrs'') as [|p|p]; try lia.
  destruct (e'' <=? emax - prec); [lia|exact I].
Qed.

Lemma iter_xO_spec m d :
  Zpos (Pos.iter xO m d) = Zpos m * 2 ^ Zpos d
  /\ Zpos (digits2_pos (Pos.iter xO m d)) = Zpos (digits2_pos m) + Zpos d.
Proof.
  induction d as [|d [IH1 IH2]] using Pos.peano_ind.
  - simpl Pos.iter. simpl digits2_pos. rewrite Pos2Z.inj_xO, Pos2Z.inj_succ.
    simpl Z.pow. lia.
  - rewrite Pos.iter_succ. simpl digits2_pos.
    rewrite Pos2Z.inj_xO, !Pos2Z.inj_succ, IH1, IH2, Z.pow_succ_r by lia. lia.
Qed.

Lemma shl_align_spec mx ex ex' :
  let '(mz, ez) := shl_align mx ex ex' in
  ez = Z.min ex ex'
  /\ Zpos mz = Zpos mx * 2 ^ (ex - ez)
  /\ Zpos (digits2_pos mz) + ez = Zpos (digits2_pos mx) + ex.
Proof.
  unfold shl_align. destruct (ex' - ex) as [|d|d] eqn:E.
  - split; [lia|]. rewrite Z.sub_diag. simpl Z.pow. lia.
  - split; [lia|]. rewrite Z.sub_diag. simpl Z.pow. lia.
  - destruct (iter_xO_spec mx d) as [I1 I2].
    split; [lia|]. rewrite I1, I2.
    replace (ex - ex') with (Zpos d) by lia. lia.
Qed.

Lemma binary_round_exponent s m e k :
  -1074 <= k -> k <= Zpos (digits2_pos m) + e - 53 ->
  match binary_round prec emax s m e with
  | S754_finite _ _ e' => k <= e'
  | S754_infinity _ => True
  | _ => False
  end.
Proof.
  intros Hk Hd. unfold binary_round.
  pose proof (shl_align_spec m e (fexp prec emax (Zpos (digits2_pos m) + e)))
    as A.
  destruct (shl_align m e (fexp prec emax (Zpos (digits2_pos m) + e)))
    as [mz ez].
  destruct A as (_ & _ & D).
  apply binary_round_aux_exponent; [lia|exact Hk|].
  rewrite Zdigits2_pos. lia.
Qed.

Lemma binary_normalize_exponent M e k :
  M <> 0 -> -1074 <= k -> k <= Zdigits2 M + e - 53 ->
  match binary_normalize prec emax M e false with
  | S754_finite _ _ e' => k <= e'
  | S754_infinity _ => True
  | _ => False
  end.
Proof.
  intros HM Hk Hd. destruct M as [|p|p]; [contradiction| |];
    apply binary_round_exponent; assumption.
Qed.

Lemma Zdigits2_abs M : Zdigits2 (Z.abs M) = Zdigits2 M.
Proof. destruct M; reflexivity. Qed.

(** The coarse reading of [|x - k| < c] on finite binary64 numbers: when
    the comparison holds, the exact difference, scaled to any common
    exponent [E], is below the power of two above [c]. *)
Lemma near_bound sx mx ex mk ek mc ec E :
  E <= ex -> E <= ek -> -1074 <= ec -> E <= ec + 53 ->
  SFltb (SFabs (SFsub prec emax (S754_finite sx mx ex)
                  (S754_finite false mk ek)))
        (S754_finite false mc ec) = true ->
  Z.abs (cond_Zopp sx (Zpos mx) * 2 ^ (ex - E) - Zpos mk * 2 ^ (ek - E))
  < 2 ^ (ec + 53 - E).
Proof.
  intros Hex Hek Hec HE. simpl SFsub. set (ez := Z.min ex ek).
  pose proof (shl_align_spec mx ex ez) as Ax.
  pose proof (shl_align_spec mk ek ez) as Ak.
  destruct (shl_align mx ex ez) as [ax ex'].
  destruct (shl_align mk ek ez) as [ak ek'].
  destruct Ax as (Ex & Vx & _). destruct Ak as (Ek & Vk & _).
  simpl fst. simpl cond_Zopp at 2.
  assert (Ex' : Z.min ex ez = ez) by (unfold ez; lia).
  assert (Ek' : Z.min ek ez = ez) by (unfold ez; lia).
  subst ex' ek'. rewrite Ex' in *. rewrite Ek' in *.
  set (M := cond_Zopp sx (Zpos ax) - Zpos ak).
  assert (Scale : cond_Zopp sx (Zpos mx) * 2 ^ (ex - E) - Zpos mk * 2 ^ (ek - E)
                  = M * 2 ^ (ez - E)).
  { unfold M, cond_Zopp. rewrite Vx, Vk.
    replace (ex - E) with ((ex - ez) + (ez - E)) by lia.
    replace (ek - E) with ((ek - ez) + (ez - E)) by lia.
    rewrite !Z.pow_add_r by (unfold ez; lia).
    destruct sx; ring. }
  rewrite Scale, Z.abs_mul.
  assert (P : 0 < 2 ^ (ez - E)) by (apply Z.pow_pos_nonneg; unfold ez; lia).
  rewrite (Z.abs_eq (2 ^ (ez - E))) by lia.
  intros Lt.
  destruct (Z.eq_dec M 0) as [Z0|NZ].
  { rewrite Z0. simpl. apply Z.pow_pos_nonneg; lia. }
  destruct (Z.lt_ge_cases (Z.abs M * 2 ^ (ez - E)) (2 ^ (ec + 53 - E)))
    as [Done|Big]; [exact Done|exfalso].
  assert (Dig : ec + 53 - ez < Zdigits2 M).
  { rewrite <- Zdigits2_abs.
    destruct (Zdigits2_bounds (Z.abs M) ltac:(lia)) as [_ Up].
    apply (Z.pow_lt_mono_r_iff 2); [lia|apply Zdigits2_nonneg|].
    apply Z.le_lt_trans with (Z.abs M); [|exact Up].
    destruct (Z.le_gt_cases 0 (ec + 53 - ez)) as [Pos|Neg].
    - replace (ec + 53 - E) with ((ec + 53 - ez) + (ez - E)) in Big by lia.
      rewrite Z.pow_add_r in Big by (unfold ez in *; lia).
      apply Z.mul_le_mono_pos_r in Big; assumption.
    - rewrite Z.pow_neg_r by lia. lia. }
  pose proof (binary_normalize_exponent M ez (ec + 1) NZ ltac:(lia) ltac:(lia))
    as R.
  destruct (binary_normalize prec emax M ez false) as [s'|s'| |s' m' e'];
    try contradiction.
  - simpl in Lt. discriminate.
  - unfold SFltb, SFabs, SFcompare in Lt.
    assert (C : (e' ?= ec) = Gt) by (apply Z.compare_gt_iff; lia).
    rewrite C in Lt. discriminate.
Qed.

Lemma nearRatio_spec r t tol :
  nearRatio r t tol
  = SFltb (SFabs (SFsub prec emax (Prim2SF r) (Prim2SF t))) (Prim2SF tol).
Proof.
  unfold nearRatio, Math_abs. rewrite ltb_spec, abs_spec, sub_spec. reflexivity.
Qed.

Lemma pow2_split a b : 0 <= a -> 0 <= b -> 2 ^ (a + b) = 2 ^ a * 2 ^ b.
Proof. intros. apply Z.pow_add_r; assumption. Qed.

(** The five aspect-ratio windows of the heuristic, on the specification
    of binary64 arithmetic. *)
Lemma aspect_windows_exclusive (x : spec_float) :
  let near t tol :=
    SFltb (SFabs (SFsub prec emax x (Prim2SF t))) (Prim2SF tol) in
  (near 1.0%float 0.01%float = true ->
   near 0.8%float 0.02%float = false /\ near 1.25%float 0.02%float = false
   /\ near 1.778%float 0.02%float = false
   /\ near 0.5625%float 0.02%float = false)
  /\ (near 0.8%float 0.02%float = true ->
      near 1.778%float 0.02%float = false
      /\ near 0.5625%float 0.02%float = false)
  /\ (near 1.25%float 0.02%float = true ->
      near 1.778%float 0.02%float = false
      /\ near 0.5625%float 0.02%float = false).
Proof.
  cbv beta zeta.
  change (Prim2SF 1.0) with (S754_finite false 4503599627370496 (-52)).
  change (Prim2SF 0.01) with (S754_finite false 5764607523034235 (-59)).
  change (Prim2SF 0.02) with (S754_finite false 5764607523034235 (-58)).
  change (Prim2SF 0.8) with (S754_finite false 7205759403792794 (-53)).
  change (Prim2SF 1.25) with (S754_finite false 5629499534213120 (-52)).
  change (Prim2SF 1.778) with (S754_finite false 8007400137464742 (-52)).
  change (Prim2SF 0.5625) with (S754_finite false 5066549580791808 (-53)).
  destruct x as [s|s| |sx mx ex];
    [ (split; [|split]); intros H; vm_compute in H; discriminate ..
    | ].
  set (E := Z.min ex (-53)).
  set (T := 2 ^ (-53 - E)).
  assert (HT : 0 < T) by (apply Z.pow_pos_nonneg; unfold E; lia).
  assert (P52 : 2 ^ (-52 - E) = 2 * T).
  { unfold T. replace (-52 - E) with (1 + (-53 - E)) by lia.
    rewrite pow2_split by (unfold E; lia). reflexivity. }
  assert (P6 : 2 ^ (-59 + 53 - E) = 2 ^ 47 * T).
  { unfold T. replace (-59 + 53 - E) with (47 + (-53 - E)) by lia.
    rewrite pow2_split by (unfold E; lia). reflexivity. }
  assert (P5 : 2 ^ (-58 + 53 - E) = 2 ^ 48 * T).
  { unfold T. replace (-58 + 53 - E) with (48 + (-53 - E)) by lia.
    rewrite pow2_split by (unfold E; lia). reflexivity. }
  (split; [|split]); intros A;
    apply (near_bound _ _ _ _ _ _ _ E) in A; try (unfold E; lia);
    repeat split;
    (destruct (SFltb _ _) eqn:C; [exfalso|reflexivity]);
    apply (near_bound _ _ _ _ _ _ _ E) in C; unfold E in *; lia.
Qed.

Lemma nearRatio_windows_exclusive (r : float) :
  (nearRatio r 1.0 0.01 = true ->
   nearRatio r 0.8 0.02 = false /\ nearRatio r 1.25 0.02 = false
   /\ nearRatio r 1.778 0.02 = false /\ nearRatio r 0.5625 0.02 = false)
  /\ (nearRatio r 0.8 0.02 = true ->
      nearRatio r 1.778 0.02 = false /\ nearRatio r 0.5625 0.02 = false)
  /\ (nearRatio r 1.25 0.02 = true ->
      nearRatio r 1.778 0.02 = false /\ nearRatio r 0.5625 0.02 = false).
Proof. rewrite !nearRatio_spec. apply aspect_windows_exclusive. Qed.

(** ** Social-reupload heuristic *)

Lemma dimensionSignal_points maxDim patterns signal points :
  dimensionSignal maxDim patterns = Some (signal, points) ->
  points = 1 \/ points = 2.
Proof.
  induction patterns as [|[pwidth platform] rest IH]; [discriminate|].
  simpl. destruct (maxDim =? pwidth); [intros [= _ <-]; now right|].
  destruct (Z.abs (maxDim - pwidth) <? 10); [intros [= _ <-]; now left|].
  exact IH.
Qed.

(** At most one of the three aspect-ratio signals fires. *)
Lemma aspect_signals_at_most_one (r : float) :
  (if nearRatio r 1.0 0.01 then 1 else 0)
  + (if nearRatio r 0.8 0.02 || nearRatio r 1.25 0.02 then 1 else 0)
  + (if nearRatio r 1.778 0.02 || nearRatio r 0.5625 0.02 then 1 else 0)
  <= 1.
Proof.
  destruct (nearRatio_windows_exclusive r) as (XA & XB1 & XB2).
  destruct (nearRatio r 1.0 0.01);
  destruct (nearRatio r 0.8 0.02);
  destruct (nearRatio r 1.25 0.02);
  destruct (nearRatio r 1.778 0.02);
  destruct (nearRatio r 0.5625 0.02);
  simpl; try lia;
  try (destruct (XA eq_refl) as (? & ? & ? & ?); discriminate);
  try (destruct (XB1 eq_refl) as (? & ?); discriminate);
  try (destruct (XB2 eq_refl) as (? & ?); discriminate).
Qed.

(** The score is at most 2 + 2 + 2 + 1. *)
Lemma socialSignals_score (fmt : Format) (file : ImageFile)
    (exifData : option ExifData) (jpegQuality : option float) :
  0 <= snd (socialSignals file exifData jpegQuality) <= 7.
Proof.
  unfold socialSignals. cbv zeta.
  set (aspectRatio := (Z2F (width file) / Z2F (height file))%float).
  pose proof (aspect_signals_at_most_one aspectRatio) as X.
  destruct (match exifData with
            | Some e => (List.length e =? 0)%nat
            | None => true
            end);
  (destruct (dimensionSignal (Z.max (width file) (height file))
               SOCIAL_MEDIA_DIMENSIONS) as [[signal points]|] eqn:D;
   [destruct (dimensionSignal_points _ _ _ _ D) as [-> | ->]|]);
  (destruct jpegQuality as [q|];
   [destruct (isJpeg (detectFileType (arrayBuffer file)));
    [destruct (PrimFloat.ltb q 85); destruct (PrimFloat.ltb q 70)|]|]);
  destruct (nearRatio aspectRatio 1.0 0.01);
  destruct (nearRatio aspectRatio 0.8 0.02 || nearRatio aspectRatio 1.25 0.02);
  destruct (nearRatio aspectRatio 1.778 0.02
            || nearRatio aspectRatio 0.5625 0.02);
  simpl in *; lia.
Qed.

(** C8.  The additive score never exceeds 8 and decides the result: a
    score of at least 4 gives status 'info', the 'likely re-shared'
    summary and confidence 0.7; a score of 2 or 3 gives 'info', the 'some
    signs' summary and confidence 0.5; a lower score gives 'ok', the 'no
    strong indicators' summary and confidence 0.4. *)
Theorem checkSocialMediaHint_score_and_tiers
    (fmt : Format) (file : ImageFile) (exifData : option ExifData)
    (jpegQuality : option float) :
  let score := snd (socialSignals file exifData jpegQuality) in
  let r := checkSocialMediaHint file exifData jpegQuality in
  0 <= score <= 8
  /\ (status r, summary r, confidence r)
     = (if 4 <=? score then
          (info, "Likely re-shared through social media", 0.7%float)
        else if 2 <=? score then
          (info, "Some signs of possible social media sharing", 0.5%float)
        else
          (ok, "No strong indicators of social media reupload", 0.4%float))
  /\ lookup "Detection Score" (details r)
     = Some (DStr (showZ score ++ "/8")%string).
Proof.
  cbv zeta.
  split; [pose proof (socialSignals_score fmt file exifData jpegQuality); lia|].
  unfold checkSocialMediaHint.
  destruct (socialSignals file exifData jpegQuality) as [signals score].
  simpl snd.
  destruct (4 <=? score); [split; reflexivity|].
  destruct (2 <=? score); split; reflexivity.
Qed.

(** ** Worked examples *)

(** The number helpers on the corner cases of their JavaScript
    counterparts. *)
Example Math_round_examples :
  Math_round 2.5 = 3%float /\ Math_round (-2.5) = (-2)%float
  /\ Math_round 312.5 = 313%float /\ Math_round 0.49 = 0%float
  /\ Math_floor (-0.5) = (-1)%float /\ Math_floor 7.9 = 7%float.
Proof. vm_compute. repeat split. Qed.

Example toUint8Clamped_examples :
  toUint8Clamped 1.5 = x02 /\ toUint8Clamped 2.5 = x02
  /\ toUint8Clamped 300 = xff /\ toUint8Clamped (-3) = x00
  /\ toUint8Clamped nan = x00 /\ toUint8Clamped 254.4 = xfe.
Proof. vm_compute. repeat split. Qed.

Example fround_examples :
  fround 0.5 = 0.5%float /\ fround 16777217 = 16777216%float
  /\ fround 0.1 = 0.100000001490116119384765625%float.
Proof. vm_compute. repeat split. Qed.

Example detectFileType_examples :
  detectFileType [xff; xd8; xff; xe0] = Some "image/jpeg"
  /\ detectFileType PNG_SIGNATURE = Some "image/png"
  /\ detectFileType [x47; x49; x46; x38; x39; x61] = Some "image/gif"
  /\ detectFileType [x52; x49; x46; x46; x00; x00; x00; x00;
                     x57; x45; x42; x50] = Some "image/webp"
  /\ detectFileType [x52; x49; x46; x46; x00; x00; x00; x00;
                     x57; x41; x56; x45] = None
  /\ detectFileType [] = None.
Proof. vm_compute. repeat split. Qed.

Example qualityFromQ0_examples :
  qualityFromQ0 1 = 98%float /\ qualityFromQ0 5 = 90%float
  /\ qualityFromQ0 16 = 100%float /\ qualityFromQ0 60 = 80%float
  /\ qualityFromQ0 120 = 1%float.
Proof. vm_compute. repeat split. Qed.

(** The scan stops 70 bytes before the end of the buffer: a marker and its
    complete 67-byte segment are read only when at least two more bytes
    follow the segment. *)
Example estimateJpegQuality_scan_window :
  estimateJpegQuality ([xff; xdb; x00; x43; x00; x08] ++ repeat x01 64) = None
  /\ estimateJpegQuality ([xff; xdb; x00; x43; x00; x08] ++ repeat x01 65)
     = Some 84%float.
Proof. vm_compute. repeat split. Qed.

(** A successful re-encoding: the analysis runs and reports 'info'. *)
Example performELA_success :
  match performELA (fmt := sampleFormat) darkeningReencoder onePixelJpeg [] with
  | (inr (Some r), tr) =>
      status r = info
      /\ summary r = "ELA shows relatively uniform error levels"
      /\ lookup "Max Difference" (details r) = Some (DStr "1")
      /\ tr = [Reencode 2 0.9]
  | _ => False
  end.
Proof. vm_compute. repeat split. Qed.

(** The one-pixel PNG without EXIF: no EXIF (+2) and a square aspect
    ratio (+1). *)
Example checkSocialMediaHint_example :
  snd (socialSignals (fmt := sampleFormat) onePixelPng None None) = 3
  /\ status (checkSocialMediaHint (fmt := sampleFormat) onePixelPng None None)
     = info
  /\ summary (checkSocialMediaHint (fmt := sampleFormat) onePixelPng None None)
     = "Some signs of possible social media sharing".
Proof. vm_compute. repeat split. Qed.

(** A vertical black/white boundary: the four interior pixels carry the
    horizontal Sobel response 4 * 255, the border stays 0; all positive
    magnitudes are equal, none exceeds the threshold, the status is 'ok'. *)
Example checkEdgeInconsistency_example :
  sobelEdgeMap 4 4 (i_data (imageData halves4))
  = [0; 0; 0; 0;
     0; 1020; 1020; 0;
     0; 1020; 1020; 0;
     0; 0; 0; 0]%float
  /\ status (checkEdgeInconsistency (fmt := sampleFormat) halves4) = ok.
Proof. vm_compute. repeat split. Qed.

(* ================================================================== *)
(** * Further properties of the library *)
(* ================================================================== *)

(** ** Byte sniffer: what it reads *)

Lemma get_firstn {A} (l : list A) (n : nat) i :
  0 <= i < Z.of_nat n -> get (firstn n l) i = get l i.
Proof.
  intros H. unfold get. destruct (Z.ltb_spec i 0); [lia|].
  rewrite nth_error_firstn.
  destruct (Nat.ltb_spec (Z.to_nat i) n); [reflexivity|lia].
Qed.

Lemma byteIs_firstn bytes (n : nat) i v :
  0 <= i < Z.of_nat n -> byteIs (firstn n bytes) i v = byteIs bytes i v.
Proof. intros H. unfold byteIs. now rewrite get_firstn. Qed.

(** X1.  The sniffer answers by first match in the table of the
    signatures it compares (JPEG FF D8 FF, PNG 89 50 4E 47, GIF 47 49 46
    38, WebP "RIFF" with "WEBP" at offset 8), and answers nothing when no
    entry matches. *)
Theorem detectFileType_first_match (bytes : list byte) :
  detectFileType bytes = sniffWith COMPARED_SIGNATURES bytes.
Proof. exact (detectFileType_spec bytes). Qed.

(** X2.  The sniffer reads the first twelve bytes only: cutting the
    buffer after them, and so changing or appending anything behind them,
    never changes its answer. *)
Theorem detectFileType_header_only (bytes : list byte) :
  detectFileType (firstn 12 bytes) = detectFileType bytes.
Proof.
  unfold detectFileType.
  rewrite !byteIs_firstn by (simpl; lia). reflexivity.
Qed.

(** ** Animation probes and the alpha probe *)

Lemma range_nil lo hi : hi <= lo -> range lo hi = [].
Proof.
  intros H. unfold range. replace (Z.to_nat (hi - lo)) with 0%nat by lia.
  reflexivity.
Qed.

Lemma range_cons lo hi : lo < hi -> range lo hi = lo :: range (lo + 1) hi.
Proof.
  intros H. rewrite (range_split lo lo hi) by lia.
  now rewrite (range_nil lo lo) by lia.
Qed.

(** The frame-counting loop started with [c] frames seen: it returns as
    soon as the count passes one. *)
Lemma gif_loop bytes l c :
  0 <= c <= 1 ->
  let n := Z.of_nat (List.length (filter (gceAt bytes) l)) in
  firstReturnWith (fun i frameCount =>
      if gceAt bytes i then
        let frameCount := frameCount + 1 in
        if 1 <? frameCount then inr true else inl frameCount
      else inl frameCount) l c
  = if 1 <? c + n then inr true else inl (c + n).
Proof.
  revert c. induction l as [|i l IH]; intros c Hc; cbv zeta in *.
  - simpl. destruct (Z.ltb_spec 1 (c + 0)); [lia|]. f_equal. lia.
  - simpl. destruct (gceAt bytes i) eqn:G.
    + simpl List.length. destruct (Z.ltb_spec 1 (c + 1)).
      * destruct (Z.ltb_spec 1 (c + Z.of_nat (S (List.length
                   (filter (gceAt bytes) l))))); [reflexivity|lia].
      * rewrite IH by lia.
        replace (c + 1 + Z.of_nat (List.length (filter (gceAt bytes) l)))
          with (c + Z.of_nat (S (List.length (filter (gceAt bytes) l))))
          by lia.
        reflexivity.
    + apply IH, Hc.
Qed.

Lemma filter_nonempty {A} (p : A -> bool) l :
  (1 <= List.length (filter p l))%nat <-> exists x, In x l /\ p x = true.
Proof.
  split.
  - destruct (filter p l) as [|x r] eqn:E; simpl; [lia|]. intros _.
    assert (H : In x (filter p l)) by (rewrite E; now left).
    apply filter_In in H. now exists x.
  - intros (x & Hx & Px).
    assert (H : In x (filter p l)) by (apply filter_In; now split).
    destruct (filter p l); [destruct H|simpl; lia].
Qed.

Lemma filter_range_two (p : Z -> bool) (k : nat) lo :
  (2 <= List.length (filter p (range lo (lo + Z.of_nat k))))%nat <->
  exists i j, lo <= i /\ i < j /\ j < lo + Z.of_nat k
              /\ p i = true /\ p j = true.
Proof.
  revert lo. induction k as [|k IH]; intros lo.
  - rewrite range_nil by lia. simpl. split; [lia|].
    intros (i & j & H); lia.
  - rewrite range_cons by lia.
    replace (lo + Z.of_nat (S k)) with (lo + 1 + Z.of_nat k) by lia.
    simpl filter. destruct (p lo) eqn:P.
    + simpl List.length. split.
      * intros H.
        assert (H1 : (1 <= List.length
                        (filter p (range (lo + 1) (lo + 1 + Z.of_nat k))))%nat)
          by lia.
        apply filter_nonempty in H1 as (j & Hj & Pj).
        apply In_range in Hj. exists lo, j. repeat split; try lia; assumption.
      * intros (i & j & Hi & Hij & Hj & Pi & Pj).
        assert (H1 : (1 <= List.length
                        (filter p (range (lo + 1) (lo + 1 + Z.of_nat k))))%nat).
        { apply filter_nonempty. exists j. split; [|exact Pj].
          apply In_range. lia. }
        lia.
    + rewrite IH. split.
      * intros (i & j & Hi & Hij & Hj & Pi & Pj).
        exists i, j. repeat split; try lia; assumption.
      * intros (i & j & Hi & Hij & Hj & Pi & Pj).
        assert (i <> lo) by congruence.
        exists i, j. repeat split; try lia; assumption.
Qed.

Lemma gceAt_true bytes i :
  gceAt bytes i = true <->
  get bytes i = Some x21 /\ get bytes (i + 1) = Some xf9.
Proof.
  unfold gceAt. rewrite andb_true_iff, !byteIs_true. reflexivity.
Qed.

(** X3.  A GIF buffer is reported as animated exactly when two Graphic
    Control Extension introducers (bytes 21 F9) start at two different
    offsets below [length - 3]; the last three bytes of the buffer are
    never inspected as the start of an introducer. *)
Theorem isAnimatedGif_two_introducers (bytes : list byte) :
  isAnimatedGif bytes = true <->
  exists i j,
    0 <= i /\ i < j /\ j < Z.of_nat (List.length bytes) - 3
    /\ (get bytes i = Some x21 /\ get bytes (i + 1) = Some xf9)
    /\ (get bytes j = Some x21 /\ get bytes (j + 1) = Some xf9).
Proof.
  unfold isAnimatedGif. cbv zeta.
  rewrite gif_loop by lia. cbv zeta.
  set (n := Z.of_nat (List.length bytes) - 3).
  assert (E : (2 <= List.length (filter (gceAt bytes) (range 0 n)))%nat <->
              exists i j, 0 <= i /\ i < j /\ j < n
                /\ gceAt bytes i = true /\ gceAt bytes j = true).
  { destruct (Z_lt_le_dec n 0) as [Hn|Hn].
    - rewrite range_nil by lia. simpl. split; [lia|].
      intros (i & j & H); lia.
    - replace n with (0 + Z.of_nat (Z.to_nat n)) at 1 by lia.
      rewrite filter_range_two.
      replace (0 + Z.of_nat (Z.to_nat n)) with n by lia. reflexivity. }
  setoid_rewrite gceAt_true in E. rewrite <- E.
  destruct (Z.ltb_spec 1
              (0 + Z.of_nat (List.length (filter (gceAt bytes) (range 0 n)))));
    split; intros H0; try reflexivity; try lia; discriminate.
Qed.

Lemma animAt_true bytes i :
  animAt bytes i = true <->
  get bytes i = Some x41 /\ get bytes (i + 1) = Some x4e
  /\ get bytes (i + 2) = Some x49 /\ get bytes (i + 3) = Some x4d.
Proof.
  unfold animAt. rewrite !andb_true_iff, !byteIs_true. tauto.
Qed.

(** A loop that returns [true] at the first index satisfying a test. *)
Lemma firstReturn_exists (p : Z -> bool) l :
  match firstReturn (fun i => if p i then Some true else None) l with
  | Some r => r
  | None => false
  end = existsb p l.
Proof.
  induction l as [|i l IH]; [reflexivity|]. simpl.
  destruct (p i); [reflexivity|exact IH].
Qed.

(** X4.  A WebP buffer is reported as animated exactly when the four
    bytes "ANIM" occur at some offset below [length - 4], wherever that
    is (chunk boundaries are not parsed). *)
Theorem isAnimatedWebP_anim_tag (bytes : list byte) :
  isAnimatedWebP bytes = true <->
  exists i,
    0 <= i < Z.of_nat (List.length bytes) - 4
    /\ get bytes i = Some x41 /\ get bytes (i + 1) = Some x4e
    /\ get bytes (i + 2) = Some x49 /\ get bytes (i + 3) = Some x4d.
Proof.
  unfold isAnimatedWebP. cbv zeta.
  rewrite (firstReturn_exists (animAt bytes)), existsb_exists.
  setoid_rewrite In_range. setoid_rewrite animAt_true. reflexivity.
Qed.

Lemma In_rangeBy i lo hi step :
  0 < step ->
  In i (rangeBy lo hi step) <->
  exists k, 0 <= k /\ i = lo + step * k /\ i < hi.
Proof.
  intros Hs. unfold rangeBy. rewrite in_map_iff. split.
  - intros (k & <- & Hk). apply in_seq in Hk.
    exists (Z.of_nat k). split; [lia|]. split; [reflexivity|].
    assert (Z.of_nat k < (hi - lo + step - 1) / step) by lia.
    assert (Z.of_nat k + 1 <= (hi - lo + step - 1) / step) by lia.
    assert (step * (Z.of_nat k + 1) <= hi - lo + step - 1).
    { etransitivity; [apply Z.mul_le_mono_nonneg_l; [lia|eassumption]|].
      apply Z.mul_div_le. lia. }
    lia.
  - intros (k & Hk & -> & Hlt). exists (Z.to_nat k). split; [f_equal; lia|].
    apply in_seq. split; [lia|]. simpl.
    assert (k + 1 <= (hi - lo + step - 1) / step); [|lia].
    apply Z.div_le_lower_bound; lia.
Qed.

(** X5.  The alpha probe answers yes exactly when some pixel of the
    buffer has an alpha byte below 255; it reads every fourth byte from
    offset 3 and nothing else. *)
Theorem checkAlphaChannel_some_transparent_pixel (imageData : ImageData) :
  checkAlphaChannel imageData = true <->
  exists p a,
    0 <= p /\ get (i_data imageData) (4 * p + 3) = Some a /\ byteZ a < 255.
Proof.
  unfold checkAlphaChannel. cbv zeta.
  set (data := i_data imageData).
  set (test := fun i => match get data i with
                        | Some b => byteZ b <? 255
                        | None => false
                        end).
  assert (E : forall l,
            firstReturn (fun i => match get data i with
                                  | Some b =>
                                      if byteZ b <? 255 then Some true
                                      else None
                                  | None => None
                                  end) l
            = firstReturn (fun i => if test i then Some true else None) l).
  { induction l as [|i l IH]; [reflexivity|]. simpl. rewrite IH.
    unfold test. destruct (get data i) as [b|]; [|reflexivity].
    destruct (byteZ b <? 255); reflexivity. }
  rewrite E, (firstReturn_exists test), existsb_exists.
  setoid_rewrite (In_rangeBy _ 3 _ 4 ltac:(lia)). split.
  - intros (i & (k & Hk & -> & Hlt) & T). unfold test in T.
    destruct (get data (3 + 4 * k)) as [b|] eqn:G; [|discriminate].
    exists k, b. split; [exact Hk|]. split; [|lia].
    rewrite <- G. f_equal. lia.
  - intros (p & a & Hp & G & Ha). exists (4 * p + 3). split.
    + exists p. split; [exact Hp|]. split; [lia|].
      apply get_Some_range in G. lia.
    + unfold test. rewrite G. lia.
Qed.

(** ** File stage *)

(** [split] never returns an empty array, so [pop] finds an element. *)
Lemma pop_split sep s : exists e, pop (split sep s) = Some e.
Proof.
  unfold pop.
  assert (N : split sep s <> []).
  { destruct s as [|c s]; simpl; [discriminate|].
    destruct (Ascii.eqb c sep); [discriminate|].
    destruct (split sep s); discriminate. }
  destruct (rev (split sep s)) as [|x l] eqn:E.
  - apply (f_equal (@rev _)) in E. rewrite rev_involutive in E.
    now destruct N.
  - now exists x.
Qed.

Lemma extensionToMime_Own extension mime :
  extensionToMime extension = Own mime -> mime <> "".
Proof.
  unfold extensionToMime.
  repeat match goal with
  | |- context [if ?c then _ else _] => destruct c
  end; intros [= <-]; discriminate.
Qed.

Lemma detectFileType_nonempty bytes t :
  detectFileType bytes = Some t -> t <> "".
Proof.
  destruct (detectFileType_cases bytes) as [D | [D | [D | [D | D]]]];
    rewrite D; intros [= <-]; discriminate.
Qed.

(** The status of the file-type check, as its chain of tests decides
    it. *)
Lemma checkFileType_status_eq
    (fmt : Format) (toLowerCase : string -> string) (file : ImageFile) :
  status (checkFileType toLowerCase file)
  = let detectedType := detectFileType (arrayBuffer file) in
    let extension :=
      match pop (split "." (f_name file)) with
      | Some e => Some (toLowerCase e)
      | None => None
      end in
    if negb (nonEmpty detectedType) then warn
    else if negb (sameType detectedType (f_type file))
            && negb (String.eqb (f_type file) "") then warn
    else if match (if nonEmpty extension
                   then extensionToMime (orElse extension "")
                   else Undefined) with
            | Own mime => negb (String.eqb mime "")
                          && negb (sameType detectedType mime)
            | Inherited => true
            | Undefined => false
            end then warn
    else ok.
Proof.
  unfold checkFileType. cbv zeta.
  repeat match goal with
  | |- context [if ?c then _ else _] => destruct c
  end; reflexivity.
Qed.

Lemma checkFileType_status
    (fmt : Format) (toLowerCase : string -> string) (file : ImageFile) :
  id (checkFileType toLowerCase file) = "file-type"
  /\ (status (checkFileType toLowerCase file) = ok
      \/ status (checkFileType toLowerCase file) = warn).
Proof.
  split.
  - unfold checkFileType. cbv zeta.
    repeat match goal with
    | |- context [if ?c then _ else _] => destruct c
    end; reflexivity.
  - rewrite (checkFileType_status_eq fmt). cbv zeta.
    destruct (negb (nonEmpty (detectFileType (arrayBuffer file))));
      [now right|].
    destruct (negb (sameType (detectFileType (arrayBuffer file))
                      (f_type file))
              && negb (String.eqb (f_type file) "")); [now right|].
    match goal with
    | |- context [if ?c then warn else ok] => destruct c
    end; auto.
Qed.

Ltac pick_branch :=
  solve [ reflexivity | congruence | left; pick_branch | right; pick_branch ].

(** X6.  The file-type check answers 'ok' or 'warn', and 'ok' exactly
    when the sniffer recognises the bytes, the declared type is empty or
    equal to the sniffed one, and the lower-cased text after the last dot
    of the name is empty, no key of the extension table (nor a member
    every object inherits), or a key whose mime type is the sniffed one.
    A declared type that disagrees with the extension goes unnoticed. *)
Theorem checkFileType_ok_iff
    (fmt : Format) (toLowerCase : string -> string) (file : ImageFile) :
  let r := checkFileType toLowerCase file in
  (status r = ok \/ status r = warn)
  /\ (status r = ok <->
      exists detected extension,
        detectFileType (arrayBuffer file) = Some detected
        /\ (f_type file = "" \/ f_type file = detected)
        /\ pop (split "." (f_name file)) = Some extension
        /\ (toLowerCase extension = ""
            \/ extensionToMime (toLowerCase extension) = Undefined
            \/ extensionToMime (toLowerCase extension) = Own detected)).
Proof.
  cbv zeta. rewrite (checkFileType_status_eq fmt). cbv zeta.
  destruct (pop_split "." (f_name file)) as (e & ->).
  pose proof (detectFileType_nonempty (arrayBuffer file)) as N.
  pose proof (extensionToMime_Own (toLowerCase e)) as M.
  destruct (detectFileType (arrayBuffer file)) as [t|];
    unfold nonEmpty, sameType, orElse;
    [|cbn [negb]; split; [now right|]; split; [discriminate|];
      intros (d & x & [=] & _)].
  specialize (N t eq_refl).
  destruct (String.eqb_spec t ""); [contradiction|]. cbn [negb].
  destruct (String.eqb_spec t (f_type file)) as [T1|T1];
    destruct (String.eqb_spec (f_type file) "") as [T0|T0];
    cbn [negb andb];
    try (split; [now right|]; split; [discriminate|];
         intros (d & x & [= <-] & [T|T] & _); congruence).
  all: destruct (String.eqb_spec (toLowerCase e) "") as [L0|L0];
    cbn [negb];
    try (split; [now left|]; split; [intros _|reflexivity];
         exists t, e; split; [reflexivity|]; split; [pick_branch|];
         split; [reflexivity|pick_branch]).
  all: destruct (extensionToMime (toLowerCase e)) as [mime| |] eqn:X;
    try (split; [now right|]; split; [discriminate|];
         intros (d & x & [= <-] & _ & [= <-] & [L|[L|L]]); congruence);
    try (split; [now left|]; split; [intros _|reflexivity];
         exists t, e; split; [reflexivity|]; split; [pick_branch|];
         split; [reflexivity|pick_branch]).
  all: specialize (M mime eq_refl);
    destruct (String.eqb_spec mime ""); [contradiction|]; cbn [negb andb];
    destruct (String.eqb_spec t mime) as [T2|T2]; cbn [negb];
    try (split; [now right|]; split; [discriminate|];
         intros (d & x & [= <-] & _ & [= <-] & [L|[L|L]]); congruence);
    try (split; [now left|]; split; [intros _|reflexivity];
         exists t, e; split; [reflexivity|]; split; [pick_branch|];
         split; [reflexivity|pick_branch]).
Qed.

Lemma checkAnimation_cases (file : ImageFile) :
  let t := detectFileType (arrayBuffer file) in
  let animated :=
    if sameType t "image/gif" then isAnimatedGif (arrayBuffer file)
    else isAnimatedWebP (arrayBuffer file) in
  if sameType t "image/gif" || sameType t "image/webp" then
    exists r, checkAnimation file = Some r /\ id r = "animation"
              /\ status r = (if animated then warn else ok)
  else checkAnimation file = None.
Proof.
  cbv zeta. unfold checkAnimation. cbv zeta.
  destruct (sameType (detectFileType (arrayBuffer file)) "image/gif").
  - cbn [orb]. destruct (isAnimatedGif (arrayBuffer file)); cbn [negb];
      eexists; split; try reflexivity; split; reflexivity.
  - cbn [orb].
    destruct (sameType (detectFileType (arrayBuffer file)) "image/webp");
      [|reflexivity].
    destruct (isAnimatedWebP (arrayBuffer file)); cbn [negb];
      eexists; split; try reflexivity; split; reflexivity.
Qed.

(** X7.  The file stage returns the file-type result, then the
    file-properties result, then an animation result exactly when the
    sniffed type is GIF or WebP.  The file-type result is 'ok' or 'warn',
    the file-properties result is always 'info', and the animation result
    is 'warn' when its probe finds animation and 'ok' otherwise. *)
Theorem runFileChecks_results
    (fmt : Format) (toLowerCase : string -> string) (file : ImageFile) :
  let t := detectFileType (arrayBuffer file) in
  let animated :=
    if sameType t "image/gif" then isAnimatedGif (arrayBuffer file)
    else isAnimatedWebP (arrayBuffer file) in
  map (fun r => (id r, status r)) (runFileChecks toLowerCase file)
  = [("file-type", status (checkFileType toLowerCase file));
     ("file-properties", info)]
    ++ (if sameType t "image/gif" || sameType t "image/webp"
        then [("animation", if animated then warn else ok)] else [])
  /\ (status (checkFileType toLowerCase file) = ok
      \/ status (checkFileType toLowerCase file) = warn).
Proof.
  cbv zeta.
  split; [|exact (proj2 (checkFileType_status fmt toLowerCase file))].
  unfold runFileChecks. cbv zeta.
  pose proof (checkAnimation_cases file) as A. cbv zeta in A.
  destruct (checkFileType_status fmt toLowerCase file) as (I & _).
  destruct (sameType (detectFileType (arrayBuffer file)) "image/gif"
            || sameType (detectFileType (arrayBuffer file)) "image/webp").
  - destruct A as (r & -> & Ir & Sr). unfold pushIf. simpl.
    rewrite I, Ir, Sr. reflexivity.
  - rewrite A. unfold pushIf. simpl. rewrite I. reflexivity.
Qed.

(** ** Compression stage *)

Lemma checkDoubleCompression_cases (fmt : Format) (file : ImageFile) :
  if isJpeg (detectFileType (arrayBuffer file)) then
    exists r, checkDoubleCompression file = Some r
              /\ id r = "double-compression"
              /\ (status r = info \/ status r = warn)
  else checkDoubleCompression file = None.
Proof.
  unfold checkDoubleCompression. cbv zeta.
  destruct (isJpeg (detectFileType (arrayBuffer file))); cbn [negb];
    [|reflexivity].
  destruct (gtb (boundaryStrength (analyzeBlockBoundaries (imageData file)))
              0.7);
    [eexists; split; [reflexivity|]; split; [reflexivity|now right]|].
  destruct (gtb (boundaryStrength (analyzeBlockBoundaries (imageData file)))
              0.4);
    eexists; (split; [reflexivity|]; split; [reflexivity|now left]).
Qed.

Lemma checkJpegQuality_status (fmt : Format) (file : ImageFile) :
  if isJpeg (detectFileType (arrayBuffer file)) then
    exists r, checkJpegQuality file = Some r
              /\ id r = "jpeg-quality"
              /\ (status r = info \/ status r = warn)
  else checkJpegQuality file = None.
Proof.
  unfold checkJpegQuality. cbv zeta.
  destruct (isJpeg (detectFileType (arrayBuffer file))); cbn [negb];
    [|reflexivity].
  destruct (estimateJpegQuality (arrayBuffer file)) as [q|];
    [|eexists; split; [reflexivity|]; split; [reflexivity|now left]].
  destruct (PrimFloat.ltb q 50);
    [eexists; split; [reflexivity|]; split; [reflexivity|now right]|].
  destruct (PrimFloat.ltb q 75);
    [eexists; split; [reflexivity|]; split; [reflexivity|now left]|].
  destruct (PrimFloat.ltb q 90);
    eexists; (split; [reflexivity|]; split; [reflexivity|now left]).
Qed.

Lemma checkUniformAreas_id_status (fmt : Format) (file : ImageFile) :
  id (checkUniformAreas file) = "uniform-areas"
  /\ (status (checkUniformAreas file) = info
      \/ status (checkUniformAreas file) = warn).
Proof.
  unfold checkUniformAreas. cbv zeta.
  destruct (gtb (uniformRatio (analyzeUniformity (imageData file))) 0.3);
    [split; [reflexivity|now right]|].
  destruct (gtb (uniformRatio (analyzeUniformity (imageData file))) 0.1);
    (split; [reflexivity|now left]).
Qed.

(** X8.  The compression stage returns the JPEG-quality and
    double-compression results, in this order, exactly when the sniffer
    answers JPEG, and always ends with the uniform-areas result; none of
    its results is ever 'ok' or 'fail'. *)
Theorem runCompressionChecks_results (fmt : Format) (file : ImageFile) :
  map id (runCompressionChecks file)
  = (if isJpeg (detectFileType (arrayBuffer file))
     then ["jpeg-quality"; "double-compression"] else [])
    ++ ["uniform-areas"]
  /\ (forall r, In r (runCompressionChecks file) ->
      status r = info \/ status r = warn).
Proof.
  unfold runCompressionChecks. cbv zeta.
  pose proof (checkJpegQuality_status fmt file) as Q.
  pose proof (checkDoubleCompression_cases fmt file) as C.
  destruct (checkUniformAreas_id_status fmt file) as (UI & US).
  destruct (isJpeg (detectFileType (arrayBuffer file))).
  - destruct Q as (q & -> & QI & QS). destruct C as (c & -> & CI & CS).
    unfold pushIf. simpl. rewrite QI, CI, UI. split; [reflexivity|].
    intros r [<- | [<- | [<- | []]]]; assumption.
  - rewrite Q, C. unfold pushIf. simpl. rewrite UI. split; [reflexivity|].
    intros r [<- | []]; assumption.
Qed.

(** ** Pixel stage: resolution guards *)

Lemma floorDiv_lt a b q : 0 < b -> (floorDiv a b <? q) = (a <? b * q).
Proof.
  intros Hb. unfold floorDiv.
  destruct (Z.ltb_spec (a / b) q) as [H|H];
    destruct (Z.ltb_spec a (b * q)) as [H'|H']; try reflexivity.
  - exfalso. apply (Z.div_le_lower_bound a b q Hb) in H'. lia.
  - exfalso. apply (Z.div_lt_upper_bound a b q Hb) in H'. lia.
Qed.

(** X9.  The noise check and the quick clone scan analyse an image
    exactly when it is at least 96 pixels wide and 96 pixels high, the
    deep clone scan exactly when it is at least 48 by 48; below that they
    return their skip result, which carries neither regions nor (for the
    noise check) an overlay and has confidence 0.2. *)
Theorem pixel_checks_resolution_guard
    (fmt : Format) (heatmap : list float -> Z -> Z -> bool -> ImageData)
    (file : ImageFile) (deepScan : bool) :
  let small side := (width file <? side) || (height file <? side) in
  let noise := checkNoiseConsistencyWith heatmap file in
  let clone := checkCloneDetection file deepScan in
  (if small 96
   then regions noise = None /\ overlay noise = None
        /\ status noise = info /\ confidence noise = 0.2%float
        /\ summary noise = "Image too small for reliable noise analysis"
   else regions noise <> None /\ overlay noise <> None
        /\ confidence noise = 0.6%float)
  /\ (if small (if deepScan then 48 else 96)
      then regions clone = None /\ status clone = info
           /\ confidence clone = 0.2%float
           /\ summary clone = "Image too small for clone analysis"
      else regions clone <> None
           /\ confidence clone = (if deepScan then 0.6 else 0.4)%float).
Proof.
  cbv zeta. split.
  - unfold checkNoiseConsistencyWith. cbv zeta.
    rewrite !floorDiv_lt by lia. change (32 * 3) with 96.
    destruct ((width file <? 96) || (height file <? 96));
      [repeat split|].
    break_result; repeat split; discriminate.
  - unfold checkCloneDetection. cbv zeta.
    rewrite !floorDiv_lt by (destruct deepScan; lia).
    replace (width file - (if deepScan then 16 else 32)
             <? (if deepScan then 8 else 16) * 4)
      with (width file <? (if deepScan then 48 else 96))
      by (destruct deepScan;
          [destruct (Z.ltb_spec (width file) 48);
           destruct (Z.ltb_spec (width file - 16) (8 * 4))
          |destruct (Z.ltb_spec (width file) 96);
           destruct (Z.ltb_spec (width file - 32) (16 * 4))];
          try reflexivity; lia).
    replace (height file - (if deepScan then 16 else 32)
             <? (if deepScan then 8 else 16) * 4)
      with (height file <? (if deepScan then 48 else 96))
      by (destruct deepScan;
          [destruct (Z.ltb_spec (height file) 48);
           destruct (Z.ltb_spec (height file - 16) (8 * 4))
          |destruct (Z.ltb_spec (height file) 96);
           destruct (Z.ltb_spec (height file - 32) (16 * 4))];
          try reflexivity; lia).
    destruct ((width file <? (if deepScan then 48 else 96))
              || (height file <? (if deepScan then 48 else 96)));
      [repeat split|].
    break_result; repeat split; discriminate.
Qed.

(** ** Region de-duplication *)

Lemma ForallOrdPairs_snoc {A} (R : A -> A -> Prop) l x :
  ForallOrdPairs R l -> (forall a, In a l -> R a x) ->
  ForallOrdPairs R (l ++ [x]).
Proof.
  induction 1 as [|a l Ha Hl IH]; intros H; simpl.
  - constructor; [constructor|constructor].
  - constructor.
    + apply Forall_app. split; [exact Ha|].
      constructor; [apply H; now left|constructor].
    + apply IH. intros b Hb. apply H. now right.
Qed.

(** What the de-duplication loop keeps. *)
Lemma deduplicateRegions_facts (regions : list Region) (margin : Z) :
  let unique := deduplicateRegions regions margin in
  (forall r, In r unique -> In r regions)
  /\ ForallOrdPairs (fun kept later => nearRegion margin later kept = false)
       unique
  /\ (forall r, In r regions ->
      In r unique
      \/ exists kept, In kept unique /\ nearRegion margin r kept = true)
  /\ (forall r rest, regions = r :: rest -> exists more, unique = r :: more).
Proof.
  cbv zeta. unfold deduplicateRegions.
  pose (P := fun (done : list Region) (unique : list Region) =>
    (forall r, In r unique -> In r done)
    /\ ForallOrdPairs (fun kept later => nearRegion margin later kept = false)
         unique
    /\ (forall r, In r done ->
        In r unique
        \/ exists kept, In kept unique /\ nearRegion margin r kept = true)
    /\ (forall r rest, done = r :: rest -> exists more, unique = r :: more)).
  apply (fold_left_invariant P); unfold P.
  - split; [intros r []|]. split; [constructor|].
    split; [intros r []|]. intros r rest [=].
  - intros done region unique (Sub & Sep & Cov & Fst).
    destruct (existsb (nearRegion margin region) unique) eqn:E; cbn [negb].
    + split; [intros r Hr; apply in_or_app; left; now apply Sub|].
      split; [exact Sep|]. split.
      * intros r Hr. apply in_app_or in Hr as [Hr | [<- | []]].
        -- now apply Cov.
        -- right. apply existsb_exists in E as (kept & Hk & Nk).
           now exists kept.
      * intros r rest Hd. destruct done as [|d done'].
        -- exfalso. simpl in Hd. injection Hd as <- <-.
           destruct unique as [|u unique']; [discriminate|].
           destruct (Sub u (or_introl eq_refl)).
        -- simpl in Hd. injection Hd as <- _. now apply (Fst d done').
    + split.
      * intros r Hr. apply in_app_or in Hr as [Hr | [<- | []]];
          apply in_or_app; [left; now apply Sub|right; now left].
      * split.
        -- apply ForallOrdPairs_snoc; [exact Sep|]. intros a Ha.
           destruct (nearRegion margin region a) eqn:N; [|reflexivity].
           assert (X : existsb (nearRegion margin region) unique = true)
             by (apply existsb_exists; now exists a).
           congruence.
        -- split.
           ++ intros r Hr. apply in_app_or in Hr as [Hr | [<- | []]].
              ** destruct (Cov r Hr) as [H | (kept & Hk & Nk)].
                 --- left. apply in_or_app. now left.
                 --- right. exists kept. split; [|exact Nk].
                     apply in_or_app. now left.
              ** left. apply in_or_app. right. now left.
           ++ intros r rest Hd. destruct done as [|d done'].
              ** simpl in Hd. injection Hd as <- <-.
                 destruct unique as [|u unique'];
                   [now exists []|destruct (Sub u (or_introl eq_refl))].
              ** simpl in Hd. injection Hd as <- _.
                 destruct (Fst d done' eq_refl) as (more & ->).
                 now exists (more ++ [region]).
Qed.

(** X10.  De-duplication keeps a sub-selection of the regions it is
    given, the first one always among them; no kept region lies within
    [margin] (on both axes) of a region kept before it; and every region
    that was dropped lies within [margin] of a kept one. *)
Theorem deduplicateRegions_separated (regions : list Region) (margin : Z) :
  let unique := deduplicateRegions regions margin in
  (forall r, In r unique -> In r regions)
  /\ ForallOrdPairs (fun kept later => nearRegion margin later kept = false)
       unique
  /\ (forall r, In r regions ->
      In r unique
      \/ exists kept, In kept unique /\ nearRegion margin r kept = true)
  /\ (forall r rest, regions = r :: rest -> exists more, unique = r :: more).
Proof. exact (deduplicateRegions_facts regions margin). Qed.

(** ** Social-reupload heuristic: the dimension signal *)

(** X11.  On the library's dimension list the first-match loop is
    independent of the list order: the signal is worth 2 points exactly
    when the larger side equals a listed width, 1 point exactly when it
    differs from a listed width by 1 to 9 pixels, and nothing otherwise
    (the listed widths lie more than 18 pixels apart). *)
Theorem dimensionSignal_order_independent (maxDim : Z) :
  let widths := map fst SOCIAL_MEDIA_DIMENSIONS in
  match dimensionSignal maxDim SOCIAL_MEDIA_DIMENSIONS with
  | Some (_, points) => points
  | None => 0
  end
  = if existsb (Z.eqb maxDim) widths then 2
    else if existsb (fun w => Z.abs (maxDim - w) <? 10) widths then 1
    else 0.
Proof.
  cbv zeta. unfold SOCIAL_MEDIA_DIMENSIONS.
  cbn [map fst existsb dimensionSignal].
  repeat match goal with
  | |- context [maxDim =? ?w] =>
      destruct (Z.eqb_spec maxDim w); [subst maxDim; reflexivity|]
  end.
  cbn [orb].
  repeat match goal with
  | |- context [Z.abs (maxDim - ?w) <? 10] =>
      destruct (Z.ltb_spec (Z.abs (maxDim - w)) 10); try lia
  end; reflexivity.
Qed.

(** X12.  The social score never reaches the denominator 8 of its
    display: it is at most 7, because the aspect-ratio windows exclude
    one another.  At most four signals are listed, each signal stands for
    at least one point, and the 'Signals Found' detail is their
    number. *)
Theorem socialSignals_bounds
    (fmt : Format) (file : ImageFile) (exifData : option ExifData)
    (jpegQuality : option float) :
  let signals := fst (socialSignals file exifData jpegQuality) in
  let score := snd (socialSignals file exifData jpegQuality) in
  0 <= score <= 7
  /\ (List.length signals <= 4)%nat
  /\ Z.of_nat (List.length signals) <= score
  /\ lookup "Signals Found"
       (details (checkSocialMediaHint file exifData jpegQuality))
     = Some (DNum (nat2F (List.length signals))).
Proof.
  cbv zeta. split; [apply socialSignals_score|].
  assert (D : lookup "Signals Found"
                (details (checkSocialMediaHint file exifData jpegQuality))
              = Some (DNum (nat2F (List.length
                   (fst (socialSignals file exifData jpegQuality)))))).
  { unfold checkSocialMediaHint.
    destruct (socialSignals file exifData jpegQuality) as [signals score].
    destruct (4 <=? score); [reflexivity|].
    destruct (2 <=? score); reflexivity. }
  rewrite D. clear D.
  unfold socialSignals. cbv zeta.
  set (aspectRatio := (Z2F (width file) / Z2F (height file))%float).
  pose proof (aspect_signals_at_most_one aspectRatio) as X.
  destruct (match exifData with
            | Some e => (List.length e =? 0)%nat
            | None => true
            end);
  (destruct (dimensionSignal (Z.max (width file) (height file))
               SOCIAL_MEDIA_DIMENSIONS) as [[signal points]|] eqn:D;
   [destruct (dimensionSignal_points _ _ _ _ D) as [-> | ->]|]);
  (destruct jpegQuality as [q|];
   [destruct (isJpeg (detectFileType (arrayBuffer file)));
    [destruct (PrimFloat.ltb q 85); destruct (PrimFloat.ltb q 70)|]|]);
  destruct (nearRatio aspectRatio 1.0 0.01);
  destruct (nearRatio aspectRatio 0.8 0.02 || nearRatio aspectRatio 1.25 0.02);
  destruct (nearRatio aspectRatio 1.778 0.02
            || nearRatio aspectRatio 0.5625 0.02);
  simpl in *; repeat split; try reflexivity; lia.
Qed.

(** ** Orchestrator: what a run returns and does *)

Lemma find_jpeg_quality (fmt : Format) (file : ImageFile) :
  find (fun r => String.eqb (id r) "jpeg-quality") (runCompressionChecks file)
  = checkJpegQuality file.
Proof.
  unfold runCompressionChecks. cbv zeta.
  pose proof (checkJpegQuality_status fmt file) as Q.
  pose proof (checkDoubleCompression_cases fmt file) as C.
  destruct (checkUniformAreas_id_status fmt file) as (UI & _).
  destruct (isJpeg (detectFileType (arrayBuffer file))).
  - destruct Q as (q & -> & QI & _). destruct C as (c & -> & _).
    unfold pushIf. simpl. rewrite QI. reflexivity.
  - rewrite Q, C. unfold pushIf. simpl. rewrite UI. reflexivity.
Qed.

(** The quality the orchestrator reads back from the 'Quality Estimate'
    detail: the parsed text for a JPEG, nothing otherwise. *)
Lemma pipeline_quality (fmt : Format) (file : ImageFile) :
  match checkJpegQuality file with
  | Some r =>
      if truthy (lookup "Quality Estimate" (details r)) then
        match lookup "Quality Estimate" (details r) with
        | Some (DStr s) => Some (parseInt s)
        | _ => None
        end
      else None
  | None => None
  end
  = if isJpeg (detectFileType (arrayBuffer file)) then
      Some (parseInt (match estimateJpegQuality (arrayBuffer file) with
                      | Some q => (toString q ++ "%")%string
                      | None => "Unknown"
                      end))
    else None.
Proof.
  destruct (checkJpegQuality_cases fmt file) as (N & U & K).
  destruct (isJpeg (detectFileType (arrayBuffer file))).
  - destruct (estimateJpegQuality (arrayBuffer file)) as [q|].
    + destruct (K q eq_refl eq_refl) as (r & -> & ->).
      assert (T : truthy (Some (DStr (toString q ++ "%")%string)) = true).
      { unfold truthy. destruct (toString q); reflexivity. }
      rewrite T. reflexivity.
    + destruct (U eq_refl eq_refl) as (r & -> & _ & ->). reflexivity.
  - rewrite (N eq_refl). reflexivity.
Qed.

Section RunFacts.
Context {fmt : Format}.
Variable runFileChecks runMetadataChecks : ImageFile -> list CheckResult.
Variable extractExif : ImageFile -> option ExifData.
Variable reencoder : nat -> float -> Thrown + ImageData.
Variable now : string.

(** A run, spelled out: the report and the events it adds to the
    trace. *)
Lemma runForensicPipeline_run file options tr :
  let deep :=
    match deepCloneScan options with Some b => b | None => false end in
  let quality :=
    if isJpeg (detectFileType (arrayBuffer file)) then
      Some (parseInt (match estimateJpegQuality (arrayBuffer file) with
                      | Some q => (toString q ++ "%")%string
                      | None => "Unknown"
                      end))
    else None in
  exists r,
    runForensicPipeline runFileChecks runMetadataChecks extractExif
      reencoder now file options tr
    = (inr r, tr ++ expectedTrace options file)
    /\ checks r
       = runFileChecks file ++ runMetadataChecks file
         ++ runCompressionChecks file ++ runPixelChecks file deep
         ++ [elaResultOf reencoder file;
             checkSocialMediaHint file (extractExif file) quality]
    /\ rsummary r = summarize (checks r)
    /\ overallStatus r = determineOverall (rsummary r)
    /\ (filename r, fileSize r, dimensions r, timestamp r)
       = (f_name file, f_size file, (width file, height file), now).
Proof.
  cbv zeta.
  unfold runForensicPipeline, expectedTrace, elaResultOf, runELACheck,
    performELA, reencodeJpeg, tryCatch, bind, notify, emit, ret,
    runSocialMediaCheck.
  cbv zeta. rewrite find_jpeg_quality, pipeline_quality.
  destruct (onProgress options);
    (destruct (isJpeg (detectFileType (arrayBuffer file))); cbn [negb];
     [destruct (reencoder (canvas file) (Z2F ELA_QUALITY / 100)%float)|]);
    eexists;
    (split;
     [apply (f_equal2 pair);
      [reflexivity
      |rewrite <- ?app_assoc; cbn [app]; rewrite ?app_nil_r; reflexivity]|]);
    cbn [checks rsummary overallStatus filename fileSize dimensions
         timestamp app];
    rewrite <- ?app_assoc; repeat split.
Qed.

End RunFacts.

(** X13.  Every run resolves with a report whose checks are, in this
    order, the results of the file stage, the metadata stage, the
    compression stage and the pixel stage (with the deep flag of the
    options, off by default), then the one ELA result (not applicable for
    a non-JPEG, the analysis of the re-encoded image, or the failure
    result when the re-encoder rejects), then the one social-media result
    computed from the parsed EXIF data.  The report carries the file's
    name, size and dimensions and the time of the run. *)
Theorem runForensicPipeline_report
    (fmt : Format)
    (runFileChecks runMetadataChecks : ImageFile -> list CheckResult)
    (extractExif : ImageFile -> option ExifData)
    (reencoder : nat -> float -> Thrown + ImageData)
    (now : string) (file : ImageFile) (options : PipelineOptions)
    (tr : list Event) :
  let deep :=
    match deepCloneScan options with Some b => b | None => false end in
  exists r quality,
    reportOf (runForensicPipeline runFileChecks runMetadataChecks
                extractExif reencoder now file options tr) = Some r
    /\ checks r
       = runFileChecks file ++ runMetadataChecks file
         ++ runCompressionChecks file ++ runPixelChecks file deep
         ++ [elaResultOf reencoder file;
             checkSocialMediaHint file (extractExif file) quality]
    /\ (filename r, fileSize r, dimensions r, timestamp r)
       = (f_name file, f_size file, (width file, height file), now).
Proof.
  cbv zeta.
  destruct (runForensicPipeline_run runFileChecks runMetadataChecks
              extractExif reencoder now file options tr)
    as (r & E & C & _ & _ & M).
  cbv zeta in C. exists r. eexists. unfold reportOf. rewrite E.
  split; [reflexivity|]. split; [exact C|exact M].
Qed.

(** X14.  The events of a run are exactly: the seven progress
    notifications 10, 25, 40, 55, 75, 90, 100 in this order when a
    progress sink is supplied, none otherwise; and one call of the
    re-encoder, with the file's canvas and quality 0.9, between the
    notifications 75 and 90, when the sniffer answers JPEG, none
    otherwise.  Events recorded before the run are kept. *)
Theorem runForensicPipeline_events
    (fmt : Format)
    (runFileChecks runMetadataChecks : ImageFile -> list CheckResult)
    (extractExif : ImageFile -> option ExifData)
    (reencoder : nat -> float -> Thrown + ImageData)
    (now : string) (file : ImageFile) (options : PipelineOptions)
    (tr : list Event) :
  snd (runForensicPipeline runFileChecks runMetadataChecks extractExif
         reencoder now file options tr)
  = tr ++ expectedTrace options file
  /\ (Z2F ELA_QUALITY / 100 = 0.9)%float.
Proof.
  destruct (runForensicPipeline_run runFileChecks runMetadataChecks
              extractExif reencoder now file options tr) as (r & E & _).
  rewrite E. split; reflexivity.
Qed.

Lemma leadingDigits_showZ n :
  1 <= n <= 100 -> leadingDigits (showZ n ++ "%") None = Some n.
Proof.
  intros H.
  assert (A : forallb (fun n =>
                match leadingDigits (showZ n ++ "%") None with
                | Some m => m =? n
                | None => false
                end) (range 1 101) = true) by (vm_compute; reflexivity).
  rewrite forallb_forall in A. specialize (A n).
  rewrite In_range in A. specialize (A ltac:(lia)).
  destruct (leadingDigits (showZ n ++ "%") None) as [m|]; [|discriminate].
  apply Z.eqb_eq in A. now subst.
Qed.

Lemma estimate_is_integer bytes q :
  estimateJpegQuality bytes = Some q -> exists n, 1 <= n <= 100 /\ q = Z2F n.
Proof.
  unfold estimateJpegQuality. cbv zeta. intros E.
  apply firstReturn_Some in E as (i & Hi & E).
  apply In_range in Hi.
  apply dqtStep_Some in E as (q0 & _ & ->); [|lia].
  exists (qualityOfCoefficient (byteZ q0)).
  split; [apply qualityOfCoefficient_range|apply qualityFromQ0_byte].
Qed.

(** The quality enters the score only for a JPEG, and an unparsable
    quality counts like a missing one. *)
Lemma socialSignals_quality (fmt : Format) (file : ImageFile)
    (exifData : option ExifData) (q : float) :
  (isJpeg (detectFileType (arrayBuffer file)) = false ->
   socialSignals file exifData (Some q) = socialSignals file exifData None)
  /\ socialSignals file exifData (Some nan)
     = socialSignals file exifData None.
Proof.
  unfold socialSignals. cbv zeta. split.
  - intros ->. reflexivity.
  - change (PrimFloat.ltb nan 85) with false.
    change (PrimFloat.ltb nan 70) with false.
    destruct (isJpeg (detectFileType (arrayBuffer file)));
      repeat match goal with
      | |- context [let '(_, _) := ?e in _] => destruct e
      end; reflexivity.
Qed.

(** X15.  With a formatter that prints the integers 1..100 in decimal,
    the quality the orchestrator recovers by parsing the 'Quality
    Estimate' text loses nothing: the social-media result of the report
    is the one computed from the estimate of the compression stage
    itself. *)
Theorem runForensicPipeline_hands_over_quality
    (fmt : Format)
    (runFileChecks runMetadataChecks : ImageFile -> list CheckResult)
    (extractExif : ImageFile -> option ExifData)
    (reencoder : nat -> float -> Thrown + ImageData)
    (now : string) (file : ImageFile) (options : PipelineOptions)
    (tr : list Event)
    (decimal : printsDecimal fmt = true) :
  exists r front,
    reportOf (runForensicPipeline runFileChecks runMetadataChecks
                extractExif reencoder now file options tr) = Some r
    /\ checks r
       = front
         ++ [checkSocialMediaHint file (extractExif file)
               (estimateJpegQuality (arrayBuffer file))].
Proof.
  destruct (runForensicPipeline_run runFileChecks runMetadataChecks
              extractExif reencoder now file options tr)
    as (r & E & C & _).
  cbv zeta in C. exists r.
  exists (runFileChecks file ++ runMetadataChecks file
          ++ runCompressionChecks file
          ++ runPixelChecks file
               (match deepCloneScan options with
                | Some b => b
                | None => false
                end)
          ++ [elaResultOf reencoder file]).
  unfold reportOf. rewrite E. split; [reflexivity|].
  rewrite C, <- !app_assoc. do 4 f_equal. cbn [app]. do 2 f_equal.
  unfold checkSocialMediaHint.
  match goal with
  | |- (let '(_, _) := socialSignals _ _ ?a in _)
       = (let '(_, _) := socialSignals _ _ ?b in _) =>
      replace (socialSignals file (extractExif file) a)
        with (socialSignals file (extractExif file) b); [reflexivity|]
  end.
  destruct (isJpeg (detectFileType (arrayBuffer file))) eqn:J.
  - destruct (estimateJpegQuality (arrayBuffer file)) as [q|] eqn:Q.
    + destruct (estimate_is_integer _ _ Q) as (n & Hn & ->).
      unfold printsDecimal in decimal. rewrite forallb_forall in decimal.
      specialize (decimal n). rewrite In_range in decimal.
      specialize (decimal ltac:(lia)). apply String.eqb_eq in decimal.
      rewrite decimal. unfold parseInt.
      rewrite (leadingDigits_showZ n Hn). reflexivity.
    + symmetry. apply (socialSignals_quality fmt file _ nan).
  - destruct (estimateJpegQuality (arrayBuffer file)) as [q|];
      [|reflexivity].
    apply (socialSignals_quality fmt file _ q). exact J.
Qed.

(** A sample run with the decimal formatter of the examples. *)
Lemma runForensicPipeline_hands_over_quality_witness :
  printsDecimal sampleFormat = true
  /\ exists r front,
       reportOf (runForensicPipeline (fmt := sampleFormat) noStage noStage
                   noExif failingReencoder "2024-01-01T00:00:00.000Z"
                   onePixelJpeg quickScan []) = Some r
       /\ checks r
          = front
            ++ [checkSocialMediaHint (fmt := sampleFormat) onePixelJpeg
                  (noExif onePixelJpeg)
                  (estimateJpegQuality (arrayBuffer onePixelJpeg))].
Proof.
  split; [vm_compute; reflexivity|].
  apply (runForensicPipeline_hands_over_quality sampleFormat noStage noStage
           noExif failingReencoder "2024-01-01T00:00:00.000Z" onePixelJpeg
           quickScan []).
  vm_compute. reflexivity.
Defined.

Lemma countStatus_app s l1 l2 :
  countStatus s (l1 ++ l2) = (countStatus s l1 + countStatus s l2)%nat.
Proof. unfold countStatus. now rewrite filter_app, length_app. Qed.

Lemma countStatus_none s l :
  (forall c, In c l -> status c <> s) -> countStatus s l = 0%nat.
Proof.
  unfold countStatus. induction l as [|c l IH]; intros H; [reflexivity|].
  simpl. destruct (CheckStatus_eqb (status c) s) eqn:E.
  - exfalso. apply (H c (or_introl eq_refl)).
    destruct (status c), s; (reflexivity || discriminate).
  - apply IH. intros d Hd. apply H. now right.
Qed.

(** Splits the conditionals that decide the status of a result before
    the tuples of the loops. *)
Ltac break_status :=
  repeat match goal with
  | |- context [let '(_, _) := (if ?c then _ else _) in _] => destruct c
  | |- context [let '(_, _) := ?e in _] => destruct e
  | |- context [if ?c then _ else _] => destruct c
  end.

Lemma runPixelChecks_never_fail (fmt : Format)
    (heatmap : list float -> Z -> Z -> bool -> ImageData) file deep c :
  In c (runPixelChecksWith heatmap file deep) -> status c <> fail.
Proof.
  unfold runPixelChecksWith. intros [<- | [<- | [<- | []]]].
  - unfold checkNoiseConsistencyWith. break_status; discriminate.
  - unfold checkEdgeInconsistencyWith. break_status; discriminate.
  - unfold checkCloneDetection. break_status; discriminate.
Qed.

Lemma elaResultOf_status (fmt : Format) reencoder file :
  id (elaResultOf reencoder file) = "ela"
  /\ (status (elaResultOf reencoder file) = info
      \/ status (elaResultOf reencoder file) = warn).
Proof.
  unfold elaResultOf. cbv zeta.
  destruct (isJpeg (detectFileType (arrayBuffer file)));
    [|split; [reflexivity|now left]].
  destruct (reencoder (canvas file) (Z2F ELA_QUALITY / 100)%float);
    [split; [reflexivity|now left]|].
  unfold elaAnalyze. break_status; split; auto.
Qed.

Lemma checkSocialMediaHint_status (fmt : Format) file exifData quality :
  id (checkSocialMediaHint file exifData quality) = "social-media-hint"
  /\ (status (checkSocialMediaHint file exifData quality) = info
      \/ status (checkSocialMediaHint file exifData quality) = ok).
Proof.
  unfold checkSocialMediaHint.
  destruct (socialSignals file exifData quality) as [signals score].
  destruct (4 <=? score); [split; [reflexivity|now left]|].
  destruct (2 <=? score); split; auto.
Qed.

Lemma runFileChecks_never_fail
    (fmt : Format) (toLowerCase : string -> string) (file : ImageFile) c :
  In c (runFileChecks toLowerCase file) -> status c <> fail.
Proof.
  unfold runFileChecks. cbv zeta.
  pose proof (checkAnimation_cases file) as A. cbv zeta in A.
  assert (T : status (checkFileType toLowerCase file) <> fail)
    by (destruct (checkFileType_status fmt toLowerCase file) as (_ & [E|E]);
        rewrite E; discriminate).
  assert (P : status (checkFileProperties file) <> fail) by discriminate.
  destruct (sameType (detectFileType (arrayBuffer file)) "image/gif"
            || sameType (detectFileType (arrayBuffer file)) "image/webp").
  - destruct A as (r & -> & _ & Sr). unfold pushIf.
    intros [<- | [<- | [<- | []]]]; [exact T|exact P|].
    rewrite Sr. destruct (if sameType _ _ then _ else _); discriminate.
  - rewrite A. unfold pushIf. intros [<- | [<- | []]]; [exact T|exact P].
Qed.

Lemma runCompressionChecks_never_fail (fmt : Format) (file : ImageFile) c :
  In c (runCompressionChecks file) -> status c <> fail.
Proof.
  unfold runCompressionChecks. cbv zeta.
  pose proof (checkJpegQuality_status fmt file) as Q.
  pose proof (checkDoubleCompression_cases fmt file) as C.
  destruct (checkUniformAreas_id_status fmt file) as (_ & US).
  destruct (isJpeg (detectFileType (arrayBuffer file))).
  - destruct Q as (q & -> & _ & QS). destruct C as (d & -> & _ & CS).
    unfold pushIf. intros [<- | [<- | [<- | []]]];
      [destruct QS as [E|E]|destruct CS as [E|E]|destruct US as [E|E]];
      rewrite E; discriminate.
  - rewrite Q, C. unfold pushIf. intros [<- | []].
    destruct US as [E|E]; rewrite E; discriminate.
Qed.

(** X16.  None of the library's file, compression, pixel, ELA and social
    checks ever answers 'fail': in a report, every failed check is a
    result of the metadata stage, and the failure count of the summary is
    the number of failed metadata results.  Whatever the name and the
    pixels of the file, a report without such a result is judged
    'suspicious' only for three or more warnings. *)
Theorem runForensicPipeline_failures
    (fmt : Format) (toLowerCase : string -> string)
    (runMetadataChecks : ImageFile -> list CheckResult)
    (extractExif : ImageFile -> option ExifData)
    (reencoder : nat -> float -> Thrown + ImageData)
    (now : string) (file : ImageFile) (options : PipelineOptions)
    (tr : list Event) :
  exists r,
    reportOf (runForensicPipeline (runFileChecks toLowerCase)
                runMetadataChecks extractExif reencoder now file options tr)
    = Some r
    /\ failCount (rsummary r) = countStatus fail (runMetadataChecks file)
    /\ (forall c, In c (checks r) -> status c = fail ->
        In c (runMetadataChecks file))
    /\ (countStatus fail (runMetadataChecks file) = 0%nat ->
        (overallStatus r = suspicious <-> (3 <= warnCount (rsummary r))%nat)).
Proof.
  destruct (runForensicPipeline_run (runFileChecks toLowerCase)
              runMetadataChecks extractExif reencoder now file options tr)
    as (r & E & C & S & V & _).
  cbv zeta in C. exists r. unfold reportOf. rewrite E.
  split; [reflexivity|].
  match type of C with
  | _ = _ ++ _ ++ ?rest => set (post := rest) in C
  end.
  assert (Pre : forall c, In c (runFileChecks toLowerCase file) ->
                          status c <> fail)
    by (intros c; apply (runFileChecks_never_fail fmt)).
  assert (Post : forall c, In c post -> status c <> fail).
  { intros c Hc. unfold post in Hc.
    apply in_app_or in Hc as [Hc|Hc];
      [exact (runCompressionChecks_never_fail fmt file c Hc)|].
    apply in_app_or in Hc as [Hc|Hc];
      [exact (runPixelChecks_never_fail fmt _ _ _ _ Hc)|].
    destruct Hc as [<- | [<- | []]].
    - destruct (elaResultOf_status fmt reencoder file) as (_ & [X|X]);
        rewrite X; discriminate.
    - match goal with
      | |- status (checkSocialMediaHint ?f ?e ?q) <> fail =>
          destruct (checkSocialMediaHint_status fmt f e q) as (_ & [X|X]);
            rewrite X; discriminate
      end. }
  assert (NF : forall c, In c (checks r) -> status c = fail ->
                         In c (runMetadataChecks file)).
  { intros c Hc Fc. rewrite C in Hc.
    apply in_app_or in Hc as [Hc|Hc]; [now destruct (Pre c Hc)|].
    apply in_app_or in Hc as [Hc|Hc]; [exact Hc|].
    now destruct (Post c Hc). }
  assert (FC : failCount (rsummary r)
               = countStatus fail (runMetadataChecks file)).
  { rewrite S, C. cbn [summarize failCount].
    rewrite !countStatus_app, (countStatus_none fail _ Pre),
      (countStatus_none fail post Post).
    lia. }
  split; [exact FC|]. split; [exact NF|].
  intros Z0. rewrite V. unfold determineOverall. rewrite FC, Z0.
  change (0 <? 0)%nat with false. cbn [orb].
  destruct (Nat.leb_spec 3 (warnCount (rsummary r))) as [W|W].
  - split; [intros _; exact W|reflexivity].
  - destruct (0 <? warnCount (rsummary r))%nat; split; try discriminate; lia.
Qed.

(** ** Overlays *)

Lemma length_setBytes data idx vs :
  List.length (setBytes data idx vs) = List.length data.
Proof.
  revert data idx. induction vs as [|v vs IH]; intros data idx; simpl;
    [reflexivity|].
  now rewrite IH, length_set.
Qed.

(** A loop whose body keeps the length of the buffer keeps it. *)
Lemma length_for {A} lo hi (body : Z -> list A -> list A) data :
  (forall i d, List.length (body i d) = List.length d) ->
  List.length (for_ lo hi body data) = List.length data.
Proof.
  intros H.
  apply (for_invariant (fun _ d => List.length d = List.length data));
    [reflexivity|].
  intros _ i d E. now rewrite H.
Qed.

Lemma grayscaleToHeatmap_dimensions values width height normalize :
  hasDimensions (grayscaleToHeatmap values width height normalize)
    width height.
Proof.
  unfold hasDimensions, grayscaleToHeatmap. cbv zeta. cbn [i_width i_height i_data].
  split; [reflexivity|]. split; [reflexivity|].
  rewrite length_for; [apply repeat_length|].
  intros i d. apply length_setBytes.
Qed.

Lemma generateUniformAreasOverlay_dimensions imageData uniformMap :
  hasDimensions (generateUniformAreasOverlay imageData uniformMap)
    (i_width imageData) (i_height imageData).
Proof.
  unfold hasDimensions, generateUniformAreasOverlay. cbv zeta.
  cbn [i_width i_height i_data].
  split; [reflexivity|]. split; [reflexivity|].
  rewrite length_for; [apply repeat_length|].
  intros by_ d. apply length_for. intros bx d1.
  apply length_for. intros dy d2. apply length_for. intros dx d3.
  destruct (_ && _); [apply length_setBytes|reflexivity].
Qed.

(** X17.  Every overlay a check attaches has the dimensions of the
    analysed image and four bytes per pixel: the heat maps of the noise,
    edge and ELA checks are [width] by [height] of the file, the overlay
    of the uniform-area check has the width and height of the pixel
    buffer it was computed from. *)
Theorem overlay_dimensions (fmt : Format) (file : ImageFile) :
  (forall o, overlay (checkNoiseConsistency file) = Some o ->
             hasDimensions o (width file) (height file))
  /\ (forall o, overlay (checkEdgeInconsistency file) = Some o ->
                hasDimensions o (width file) (height file))
  /\ (forall reencoded o,
        overlay (elaAnalyze file reencoded) = Some o ->
        hasDimensions o (width file) (height file))
  /\ (forall o, overlay (checkUniformAreas file) = Some o ->
                hasDimensions o (i_width (imageData file))
                  (i_height (imageData file))).
Proof.
  split; [|split; [|split]].
  - unfold checkNoiseConsistency, checkNoiseConsistencyWith. cbv zeta.
    break_status; cbn [overlay]; intros o [= <-];
      apply grayscaleToHeatmap_dimensions.
  - unfold checkEdgeInconsistency, checkEdgeInconsistencyWith. cbv zeta.
    break_status; cbn [overlay]; intros o [= <-];
      apply grayscaleToHeatmap_dimensions.
  - intros reencoded. unfold elaAnalyze. cbv zeta.
    break_status; cbn [overlay]; intros o [= <-];
      apply grayscaleToHeatmap_dimensions.
  - unfold checkUniformAreas. cbv zeta.
    break_status; cbn [overlay]; intros o [= <-];
      apply generateUniformAreasOverlay_dimensions.
Qed.

(** ** Laplacian map *)

(** X18.  The Laplacian map has one cell per pixel; every interior cell
    holds the magnitude of the 4-neighbour Laplacian of the grayscale
    image, rounded to binary32, and every cell of the one-pixel border is
    0. *)
Theorem applyLaplacian_cells (imageData : ImageData) :
  let width := i_width imageData in
  let height := i_height imageData in
  let gray := grayscale32 width height (i_data imageData) in
  let g i := num (get gray i) in
  let result := applyLaplacian imageData in
  List.length result = Z.to_nat (width * height)
  /\ (forall x y, 1 <= x < width - 1 -> 1 <= y < height - 1 ->
      let idx := y * width + x in
      let c := g idx in
      let l := g (idx - 1) in
      let r := g (idx + 1) in
      let u := g (idx - width) in
      let d := g (idx + width) in
      get result idx
      = Some (fround (Math_abs (-4 * c + l + r + u + d)%float)))
  /\ (forall j, 0 <= j < width * height ->
      (forall x y, 1 <= x < width - 1 -> 1 <= y < height - 1 ->
                   j <> y * width + x) ->
      get result j = Some 0%float).
Proof.
  cbv zeta. unfold applyLaplacian. cbv zeta.
  set (width := i_width imageData). set (height := i_height imageData).
  set (gray := grayscale32 width height (i_data imageData)).
  destruct (raster_interior width height
              (fun idx =>
                 let c := num (get gray idx) in
                 let l := num (get gray (idx - 1)) in
                 let r := num (get gray (idx + 1)) in
                 let u := num (get gray (idx - width)) in
                 let d := num (get gray (idx + width)) in
                 fround (Math_abs (-4 * c + l + r + u + d)%float))
              (Float32Array (width * height))
              (length_Float32Array _)) as (L & I & O).
  split; [rewrite <- (length_Float32Array (width * height)); exact L|].
  split; [exact I|].
  intros j Hj Hborder. rewrite <- (get_Float32Array (width * height) j Hj).
  apply O, Hborder.
Qed.

(** ** Edge check on images without interior *)

Lemma zero_ratio_below_threshold (y : float) :
  gtb (0 / y)%float 0.02 = false.
Proof.
  unfold gtb. rewrite ltb_spec, div_spec.
  change (Prim2SF 0) with (S754_zero false).
  destruct (Prim2SF y) as [s|s| |s m e]; try destruct s; reflexivity.
Qed.

Lemma for_nil {S} lo hi (body : Z -> S -> S) s :
  hi <= lo -> for_ lo hi body s = s.
Proof. intros H. unfold for_. now rewrite range_nil. Qed.

Lemma for_id {S} lo hi (body : Z -> S -> S) s :
  (forall i t, body i t = t) -> for_ lo hi body s = s.
Proof.
  intros H. apply (for_invariant (fun _ t => t = s)); [reflexivity|].
  intros _ i t ->. apply H.
Qed.

Lemma filter_repeat_zero (p : float -> bool) n :
  p 0%float = false -> filter p (repeat 0%float n) = [].
Proof. intros H. induction n as [|n IH]; simpl; [|rewrite H]; auto. Qed.

(** X19.  An image narrower or shorter than three pixels has no interior
    pixel: its edge map is all zeros, and the edge check answers 'ok' with
    a mean edge strength of 0, whatever the pixels are. *)
Theorem checkEdgeInconsistency_without_interior
    (fmt : Format) (heatmap : list float -> Z -> Z -> bool -> ImageData)
    (file : ImageFile)
    (tiny : width file < 3 \/ height file < 3) :
  let r := checkEdgeInconsistencyWith heatmap file in
  sobelEdgeMap (width file) (height file) (i_data (imageData file))
  = repeat 0%float (Z.to_nat (width file * height file))
  /\ status r = ok
  /\ summary r = "Edge characteristics appear natural"
  /\ lookup "Mean Edge Strength" (details r) = Some (DStr (toFixed 0 2)).
Proof.
  cbv zeta.
  assert (E : sobelEdgeMap (width file) (height file) (i_data (imageData file))
              = repeat 0%float (Z.to_nat (width file * height file))).
  { unfold sobelEdgeMap. cbv zeta. fold (Float32Array (width file * height file)).
    destruct (Z_lt_le_dec (height file) 3) as [H|H].
    - apply for_nil. lia.
    - apply for_id. intros y t. apply for_nil. lia. }
  split; [exact E|].
  unfold checkEdgeInconsistencyWith. cbv zeta. rewrite E.
  set (edgeMap := repeat 0%float (Z.to_nat (width file * height file))).
  destruct (edgeStats_spec edgeMap (width file) (height file))
    as (M & _ & _ & R).
  assert (P : positiveMagnitudes edgeMap = [])
    by (apply filter_repeat_zero; reflexivity).
  assert (T : strongEdgeThresholdOf edgeMap = 0%float)
    by (unfold strongEdgeThresholdOf; rewrite P; reflexivity).
  assert (Z : strongEdgeRatioOf edgeMap (width file * height file)
              = (0 / Z2F (width file * height file))%float).
  { unfold strongEdgeRatioOf. rewrite T.
    unfold edgeMap at 1. rewrite filter_repeat_zero by reflexivity.
    reflexivity. }
  rewrite R, Z, zero_ratio_below_threshold, M, P.
  repeat split.
Qed.

Lemma checkEdgeInconsistency_without_interior_witness :
  (width onePixelPng < 3 \/ height onePixelPng < 3)
  /\ status (checkEdgeInconsistencyWith (fmt := sampleFormat)
               grayscaleToHeatmap onePixelPng) = ok.
Proof.
  split; [left; reflexivity|].
  apply (checkEdgeInconsistency_without_interior sampleFormat
           grayscaleToHeatmap onePixelPng).
  left. reflexivity.
Defined.

(** ** Block hash *)

Lemma toInt32_range z : - 2 ^ 31 <= toInt32 z < 2 ^ 31.
Proof.
  unfold toInt32. cbv zeta.
  pose proof (Z.mod_pos_bound z (2 ^ 32) ltac:(lia)).
  destruct (Z.ltb_spec (z mod 2 ^ 32) (2 ^ 31)); lia.
Qed.

Lemma for_ext {S} lo hi (f g : Z -> S -> S) s :
  (forall i t, lo <= i < hi -> f i t = g i t) ->
  for_ lo hi f s = for_ lo hi g s.
Proof.
  intros H.
  apply (for_invariant_in
           (fun done t => t = fold_left (fun acc i => g i acc) done s)
           lo hi f s); [reflexivity|].
  intros done i t Hi ->. rewrite fold_left_app. simpl. now apply H.
Qed.

(** X20.  The block hash is a signed 32-bit integer, and it is a function
    of the block's red, green and blue bytes alone: two blocks of the same
    image whose pixels carry the same colour bytes, position by position,
    have the same hash (a copied block collides with its source). *)
Theorem hashBlock_same_pixels
    (imageData : ImageData) (x1 y1 x2 y2 blockSize : Z)
    (same : forall dx dy k,
        0 <= dx < blockSize -> 0 <= dy < blockSize -> 0 <= k < 3 ->
        get (i_data imageData)
            (((y1 + dy) * i_width imageData + (x1 + dx)) * 4 + k)
        = get (i_data imageData)
            (((y2 + dy) * i_width imageData + (x2 + dx)) * 4 + k)) :
  hashBlock imageData x1 y1 blockSize = hashBlock imageData x2 y2 blockSize
  /\ - 2 ^ 31 <= hashBlock imageData x1 y1 blockSize < 2 ^ 31.
Proof.
  split.
  - unfold hashBlock. cbv zeta.
    apply for_ext. intros dy h Hdy. apply for_ext. intros dx h' Hdx.
    unfold luminance. cbv zeta.
    pose proof (same dx dy 0 Hdx Hdy ltac:(lia)) as E0.
    pose proof (same dx dy 1 Hdx Hdy ltac:(lia)) as E1.
    pose proof (same dx dy 2 Hdx Hdy ltac:(lia)) as E2.
    rewrite !Z.add_0_r in E0. rewrite E0, E1, E2. reflexivity.
  - unfold hashBlock. cbv zeta.
    apply (for_invariant (fun _ h => - 2 ^ 31 <= h < 2 ^ 31)); [lia|].
    intros _ dy h Hh.
    apply (for_invariant (fun _ h => - 2 ^ 31 <= h < 2 ^ 31)); [exact Hh|].
    intros _ dx h' Hh'.
    destruct (floorZ _); [apply toInt32_range|lia].
Qed.

Lemma hashBlock_same_pixels_witness :
  hashBlock (imageData twoPixelGif) 0 0 1
  = hashBlock (imageData twoPixelGif) 1 0 1
  /\ - 2 ^ 31 <= hashBlock (imageData twoPixelGif) 0 0 1 < 2 ^ 31.
Proof.
  apply (hashBlock_same_pixels (imageData twoPixelGif) 0 0 1 0 1).
  intros dx dy k Hx Hy Hk.
  assert (dx = 0) by lia. assert (dy = 0) by lia. subst.
  assert (K : k = 0 \/ k = 1 \/ k = 2) by lia.
  destruct K as [-> | [-> | ->]]; reflexivity.
Defined.

(** ** Error-level analysis: symmetry *)

Lemma abs_sub_sym_table :
  let values := nan :: map Z2F (range 0 256) in
  forallb (fun a =>
    forallb (fun b =>
      Leibniz.eqb (Math_abs (a - b)%float) (Math_abs (b - a)%float)) values)
    values = true.
Proof. vm_compute. reflexivity. Qed.

Lemma numByte_value (o : option byte) :
  In (numByte o) (nan :: map Z2F (range 0 256)).
Proof.
  destruct o as [b|]; [right|now left].
  change (numByte (Some b)) with (Z2F (byteZ b)).
  apply in_map, In_range, byteZ_range.
Qed.

Lemma abs_sub_sym (oa ob : option byte) :
  Math_abs (numByte oa - numByte ob)%float
  = Math_abs (numByte ob - numByte oa)%float.
Proof.
  pose proof abs_sub_sym_table as T. cbv zeta in T.
  rewrite forallb_forall in T. specialize (T _ (numByte_value oa)).
  rewrite forallb_forall in T. specialize (T _ (numByte_value ob)).
  now apply Leibniz.eqb_spec.
Qed.

(** X21.  Error-level analysis is symmetric in its two pixel buffers: the
    per-pixel differences, their maximum and their total are the same
    when the original and the re-encoded buffer change places, and so is
    the whole result of the analysis. *)
Theorem ela_symmetric (fmt : Format) (file : ImageFile)
    (reencoded : ImageData) (n : Z) :
  let swapped :=
    {| f_name := f_name file; f_type := f_type file; f_size := f_size file;
       arrayBuffer := arrayBuffer file;
       width := width file; height := height file;
       imageData := reencoded; canvas := canvas file |} in
  elaDiffs (i_data (imageData file)) (i_data reencoded) n
  = elaDiffs (i_data reencoded) (i_data (imageData file)) n
  /\ elaAnalyze file reencoded = elaAnalyze swapped (imageData file).
Proof.
  cbv zeta.
  assert (E : forall m,
            elaDiffs (i_data (imageData file)) (i_data reencoded) m
            = elaDiffs (i_data reencoded) (i_data (imageData file)) m).
  { intros m. unfold elaDiffs. apply for_ext.
    intros i [[diffValues maxDiff] totalDiff] _. cbv zeta.
    rewrite (abs_sub_sym (get (i_data (imageData file)) (i * 4 + 0))),
      (abs_sub_sym (get (i_data (imageData file)) (i * 4 + 1))),
      (abs_sub_sym (get (i_data (imageData file)) (i * 4 + 2))).
    reflexivity. }
  split; [apply E|].
  unfold elaAnalyze. cbv zeta. cbn [imageData width height].
  rewrite E. reflexivity.
Qed.

(** ** Binary64 order *)

Lemma SFcompare_refl x : x <> S754_nan -> SFcompare x x = Some Eq.
Proof.
  destruct x as [s|s| |s m e]; intros H; try (now destruct s);
    [contradiction|].
  simpl. rewrite Z.compare_refl, Pos.compare_cont_refl. now destruct s.
Qed.

Lemma SFcompare_antisym x y :
  SFcompare y x
  = match SFcompare x y with Some c => Some (CompOpp c) | None => None end.
Proof.
  destruct x as [s1|s1| |s1 m1 e1], y as [s2|s2| |s2 m2 e2];
    try destruct s1; try destruct s2; try reflexivity; simpl;
    rewrite (Z.compare_antisym e1 e2);
    destruct (e1 ?= e2); simpl;
    rewrite ?(Pos.compare_cont_antisym m1 m2 Eq); reflexivity.
Qed.

Lemma SFcompare_None x y :
  SFcompare x y = None -> x = S754_nan \/ y = S754_nan.
Proof.
  destruct x as [s1|s1| |s1 m1 e1], y as [s2|s2| |s2 m2 e2];
    try destruct s1; try destruct s2; simpl; auto; discriminate.
Qed.

Lemma is_nan_false x : is_nan x = false -> Prim2SF x <> S754_nan.
Proof.
  unfold is_nan. rewrite FloatAxioms.eqb_spec. unfold SFeqb. intros H E.
  rewrite E in H. discriminate.
Qed.

Lemma ltb_not_nan x y : PrimFloat.ltb x y = true -> is_nan y = false.
Proof.
  rewrite ltb_spec. unfold SFltb, is_nan. rewrite FloatAxioms.eqb_spec. unfold SFeqb.
  intros H. rewrite SFcompare_refl; [reflexivity|].
  intros E. rewrite E in H. now destruct (Prim2SF x).
Qed.

Lemma ltb_leb x y : PrimFloat.ltb x y = true -> PrimFloat.leb x y = true.
Proof.
  rewrite ltb_spec, leb_spec. unfold SFltb, SFleb.
  destruct (SFcompare (Prim2SF x) (Prim2SF y)) as [[]|]; congruence.
Qed.

Lemma not_ltb_leb x y :
  is_nan x = false -> is_nan y = false ->
  PrimFloat.ltb x y = false -> PrimFloat.ltb y x = false ->
  PrimFloat.leb x y = true.
Proof.
  intros Nx Ny. apply is_nan_false in Nx, Ny.
  rewrite !ltb_spec, leb_spec. unfold SFltb, SFleb.
  rewrite (SFcompare_antisym (Prim2SF x) (Prim2SF y)).
  destruct (SFcompare (Prim2SF x) (Prim2SF y)) as [[]|] eqn:C; simpl;
    try congruence.
  intros _ _. apply SFcompare_None in C. tauto.
Qed.

(** [Math.min(1, Math.max(0, x))] is NaN or lies between 0 and 1. *)
Lemma clamp_unit (x : float) :
  let r := Math_min 1 (Math_max 0 x) in
  is_nan r = true \/ (PrimFloat.leb 0 r = true /\ PrimFloat.leb r 1 = true).
Proof.
  cbv zeta. unfold Math_max.
  change (is_nan 0) with false. cbn [orb].
  destruct (is_nan x) eqn:Nx; [left; reflexivity|].
  destruct (PrimFloat.ltb x 0) eqn:L0; [right; split; reflexivity|].
  destruct (PrimFloat.ltb 0 x) eqn:L1; [|right; split; reflexivity].
  unfold Math_min. change (is_nan 1) with false. rewrite Nx. cbn [orb].
  destruct (PrimFloat.ltb 1 x) eqn:A; [right; split; reflexivity|].
  destruct (PrimFloat.ltb x 1) eqn:B;
    [right; split; now apply ltb_leb|].
  change (is_neg_zero 1) with false. cbv iota.
  right. split; [now apply ltb_leb|now apply not_ltb_leb].
Qed.

(** ** Block-boundary analysis *)

(** X22.  The block-boundary strength is 0 for an image narrower or
    shorter than 16 pixels, and in every case it is a number between 0
    and 1 or NaN (which arises only from pixels missing in the buffer);
    the double-compression check therefore never reports a strength
    outside 0%..100%. *)
Theorem analyzeBlockBoundaries_strength (imageData : ImageData) :
  let strength := boundaryStrength (analyzeBlockBoundaries imageData) in
  (is_nan strength = true
   \/ (PrimFloat.leb 0 strength = true /\ PrimFloat.leb strength 1 = true))
  /\ (if (i_width imageData <? 16) || (i_height imageData <? 16)
      then strength = 0%float else True).
Proof.
  cbv zeta. unfold analyzeBlockBoundaries. cbv zeta.
  destruct ((i_width imageData <? 16) || (i_height imageData <? 16));
    [split; [right; split; reflexivity|reflexivity]|].
  split; [|exact I].
  match goal with
  | |- context [let '(_, _) := ?e in _] => destruct e as [bg ig]
  end.
  destruct ((List.length bg =? 0)%nat || (List.length ig =? 0)%nat);
    [right; split; reflexivity|].
  cbn [boundaryStrength]. apply clamp_unit.
Qed.

(** ** JPEG quality tiers *)

Lemma quality_tiers_table :
  forallb (fun n =>
    let q := Z2F n in
    Bool.eqb (PrimFloat.ltb q 50) (n <? 50)
    && Bool.eqb (PrimFloat.ltb q 75) (n <? 75)
    && Bool.eqb (PrimFloat.ltb q 90) (n <? 90)
    && String.eqb (getQualityLevel q) (qualityTier n)) (range 1 101) = true.
Proof. vm_compute. reflexivity. Qed.

(** X23.  The JPEG-quality check exists exactly for a sniffed JPEG.  With
    an estimate, which is an integer [n] between 1 and 100, its status is
    'warn' exactly when [n < 50], the level it names is the tier of the
    same [n] (Low below 50, Medium below 75, Good below 90, High from
    90), and its notes open with the name of that same tier ("Low quality
    JPEG. ...", "Medium quality JPEG. ...", and so on) followed by the
    remark of the tier: status, notes and level never disagree.  Without
    an estimate the result is 'info', names no level, and its notes say
    that the quantization tables could not be extracted. *)
Theorem checkJpegQuality_tiers (fmt : Format) (file : ImageFile) :
  match checkJpegQuality file with
  | Some r =>
      isJpeg (detectFileType (arrayBuffer file)) = true
      /\ match estimateJpegQuality (arrayBuffer file) with
         | Some q =>
             exists n, q = Z2F n /\ 1 <= n <= 100
               /\ status r = (if n <? 50 then warn else info)
               /\ lookup "Quality Level" (details r)
                  = Some (DStr (qualityTier n))
               /\ notes r
                  = (qualityTier n ++ " quality JPEG. "
                     ++ qualityRemark n)%string
         | None =>
             status r = info /\ lookup "Quality Level" (details r) = None
             /\ notes r
                = "Unable to extract quantization tables from this JPEG file."
         end
  | None => isJpeg (detectFileType (arrayBuffer file)) = false
  end.
Proof.
  unfold checkJpegQuality. cbv zeta.
  destruct (isJpeg (detectFileType (arrayBuffer file))); cbn [negb];
    [|reflexivity].
  destruct (estimateJpegQuality (arrayBuffer file)) as [q|] eqn:E;
    [|split; [reflexivity|split; [reflexivity|split; reflexivity]]].
  destruct (estimate_is_integer _ _ E) as (n & Hn & ->).
  pose proof quality_tiers_table as T. rewrite forallb_forall in T.
  specialize (T n). rewrite In_range in T. specialize (T ltac:(lia)).
  cbv zeta in T. rewrite !andb_true_iff in T.
  destruct T as (((T50 & T75) & T90) & TL).
  apply Bool.eqb_prop in T50, T75, T90. apply String.eqb_eq in TL.
  rewrite T50, T75, T90.
  destruct (n <? 50) eqn:B50;
    [|destruct (n <? 75) eqn:B75; [|destruct (n <? 90) eqn:B90]];
    cbv beta iota; (split; [reflexivity|]); exists n;
    (split; [reflexivity|]); (split; [exact Hn|]);
    (split; [cbn [status]; rewrite B50; reflexivity|]);
    (split;
     [|unfold qualityTier, qualityRemark; rewrite ?B50, ?B75, ?B90;
       reflexivity]);
    cbn [details lookup];
    change (String.eqb "Format" "Quality Level") with false;
    change (String.eqb "Quality Estimate" "Quality Level") with false;
    change (String.eqb "Quality Level" "Quality Level") with true;
    cbv iota; rewrite TL; reflexivity.
Qed.

(** ** Clone detection: the hash map *)

Lemma fold_left_flat_map {S A B} (f : S -> B -> S) (g : A -> list B) l s :
  fold_left f (flat_map g l) s
  = fold_left (fun s x => fold_left f (g x) s) l s.
Proof.
  revert s. induction l as [|x l IH]; intros s; [reflexivity|].
  simpl. now rewrite fold_left_app, IH.
Qed.

Lemma fold_left_map {S A B} (f : S -> B -> S) (h : A -> B) l s :
  fold_left f (map h l) s = fold_left (fun s x => f s (h x)) l s.
Proof.
  revert s. induction l as [|x l IH]; intros s; [reflexivity|]. simpl.
  apply IH.
Qed.

Lemma fold_left_pointwise {S A} (f g : S -> A -> S) l s :
  (forall s x, f s x = g s x) -> fold_left f l s = fold_left g l s.
Proof.
  intros H. revert s. induction l as [|x l IH]; intros s; [reflexivity|].
  simpl. now rewrite H, IH.
Qed.

(** The hash map is built by pushing the sampled positions in scan
    order. *)
Lemma buildHashMap_scan imageData blocksX blocksY step blockSize :
  buildHashMap imageData blocksX blocksY step blockSize
  = fold_left (fun m p =>
                 hashMapPush m
                   (hashBlock imageData (fst p) (snd p) blockSize) p)
      (scanPositions blocksX blocksY step) [].
Proof.
  unfold buildHashMap, scanPositions, for_.
  rewrite fold_left_flat_map.
  apply fold_left_pointwise. intros m by_.
  rewrite fold_left_map. reflexivity.
Qed.

Lemma In_scanPositions blocksX blocksY step p :
  In p (scanPositions blocksX blocksY step) <->
  exists bx by_,
    0 <= bx < blocksX /\ 0 <= by_ < blocksY /\ p = (bx * step, by_ * step).
Proof.
  unfold scanPositions. rewrite in_flat_map. split.
  - intros (by_ & Hy & Hp). apply in_map_iff in Hp as (bx & <- & Hx).
    apply In_range in Hx, Hy. now exists bx, by_.
  - intros (bx & by_ & Hx & Hy & ->). exists by_.
    split; [now apply In_range|].
    apply in_map_iff. exists bx. split; [reflexivity|now apply In_range].
Qed.

Lemma bucketOf_push m h p h' :
  bucketOf (hashMapPush m h p) h'
  = if h =? h' then bucketOf m h' ++ [p] else bucketOf m h'.
Proof.
  unfold bucketOf. induction m as [|[k ps] m IH]; simpl.
  - destruct (h =? h'); reflexivity.
  - destruct (Z.eqb_spec k h) as [->|Hk]; simpl.
    + destruct (Z.eqb_spec h h'); reflexivity.
    + destruct (Z.eqb_spec k h') as [->|Hk']; simpl; [|exact IH].
      destruct (Z.eqb_spec h h'); [congruence|reflexivity].
Qed.

Lemma bucketOf_scan (H : Z * Z -> Z) l m0 h :
  bucketOf (fold_left (fun m p => hashMapPush m (H p) p) l m0) h
  = bucketOf m0 h ++ filter (fun p => H p =? h) l.
Proof.
  revert m0. induction l as [|p l IH]; intros m0; simpl.
  - now rewrite app_nil_r.
  - rewrite IH, bucketOf_push.
    destruct (H p =? h); [now rewrite <- app_assoc|reflexivity].
Qed.

Lemma bucketOf_In m h :
  bucketOf m h <> [] -> In (h, bucketOf m h) m.
Proof.
  unfold bucketOf.
  destruct (find (fun e => fst e =? h) m) as [[k ps]|] eqn:F;
    [|intros N; now destruct N].
  intros _. apply find_some in F as (I & E). simpl in E.
  apply Z.eqb_eq in E. now subst.
Qed.

(** A key appears once in a map built by pushes. *)
Lemma hashMapPush_keys m h p :
  map fst (hashMapPush m h p)
  = if existsb (Z.eqb h) (map fst m) then map fst m else map fst m ++ [h].
Proof.
  induction m as [|[k ps] m IH]; [reflexivity|]. simpl.
  destruct (Z.eqb_spec k h) as [->|Hk]; simpl.
  - now rewrite Z.eqb_refl.
  - destruct (Z.eqb_spec h k); [congruence|]. simpl. rewrite IH.
    destruct (existsb (Z.eqb h) (map fst m)); reflexivity.
Qed.

Lemma hashMapPush_NoDup m h p :
  NoDup (map fst m) -> NoDup (map fst (hashMapPush m h p)).
Proof.
  intros N. rewrite hashMapPush_keys.
  destruct (existsb (Z.eqb h) (map fst m)) eqn:E; [exact N|].
  apply NoDup_app; [exact N|constructor; [intros []|constructor]|].
  intros k Hk [Ek | []]. subst k.
  assert (X : existsb (Z.eqb h) (map fst m) = true)
    by (apply existsb_exists; exists h; split; [exact Hk|apply Z.eqb_refl]).
  congruence.
Qed.

Lemma bucketOf_unique m h ps :
  NoDup (map fst m) -> In (h, ps) m -> bucketOf m h = ps.
Proof.
  unfold bucketOf. induction m as [|[k qs] m IH]; [intros _ []|].
  simpl. intros N [E|I].
  - injection E as -> ->. now rewrite Z.eqb_refl.
  - inversion N as [|? ? Nk Nm]; subst.
    destruct (Z.eqb_spec k h) as [->|Hk]; [|now apply IH].
    exfalso. apply Nk. apply (in_map fst) in I. exact I.
Qed.

Lemma scan_NoDup (H : Z * Z -> Z) l m0 :
  NoDup (map fst m0) ->
  NoDup (map fst (fold_left (fun m p => hashMapPush m (H p) p) l m0)).
Proof.
  revert m0. induction l as [|p l IH]; intros m0 N; [exact N|].
  simpl. apply IH, hashMapPush_NoDup, N.
Qed.

(** Every position stored in the hash map is a sampled position whose
    block hashes to the key of its bucket. *)
Lemma buildHashMap_buckets imageData blocksX blocksY step blockSize h ps :
  In (h, ps) (buildHashMap imageData blocksX blocksY step blockSize) ->
  ps = filter (fun p => hashBlock imageData (fst p) (snd p) blockSize =? h)
         (scanPositions blocksX blocksY step).
Proof.
  rewrite buildHashMap_scan. intros I.
  pose proof (scan_NoDup
                (fun p => hashBlock imageData (fst p) (snd p) blockSize)
                (scanPositions blocksX blocksY step) [] (NoDup_nil _)) as N.
  pose proof (bucketOf_unique _ h ps N I) as U.
  rewrite (bucketOf_scan
             (fun p => hashBlock imageData (fst p) (snd p) blockSize)) in U.
  symmetry. exact U.
Qed.

(** ** Clone detection: the pair loop *)

Lemma bucketDuplicates_regions (Q : Region -> Prop) positions blockSize
    minDistance d0 :
  (forall r, In r d0 -> Q r) ->
  (forall p, In p positions ->
   Q (mkRegion (fst p) (snd p) blockSize None)) ->
  forall r, In r (bucketDuplicates positions blockSize minDistance d0) ->
  Q r.
Proof.
  intros H0 HP. unfold bucketDuplicates. cbv zeta.
  destruct (1 <? Z.of_nat (List.length positions)); [|exact H0].
  assert (Pos : forall i, 0 <= i < Z.of_nat (List.length positions) ->
            In (match get positions i with Some p => p | None => (0, 0) end)
               positions).
  { intros i Hi. destruct (get_in_range positions i Hi) as (p & E).
    rewrite E. unfold get in E. destruct (i <? 0); [discriminate|].
    now apply nth_error_In in E. }
  apply (for_invariant_in (fun _ d => forall r, In r d -> Q r)); [exact H0|].
  intros _ i d Hi Hd.
  apply (for_invariant_in (fun _ d => forall r, In r d -> Q r)); [exact Hd|].
  intros _ j d' Hj Hd'.
  destruct (gtb _ _); [|exact Hd'].
  intros r Hr. apply in_app_or in Hr as [Hr | [<- | [<- | []]]].
  - now apply Hd'.
  - apply HP, Pos. lia.
  - apply HP, Pos. lia.
Qed.

Lemma bucketDuplicates_grows positions blockSize minDistance d0 :
  (List.length d0
   <= List.length (bucketDuplicates positions blockSize minDistance d0))%nat.
Proof.
  unfold bucketDuplicates. cbv zeta.
  destruct (1 <? Z.of_nat (List.length positions)); [|lia].
  apply (for_invariant
           (fun _ d => (List.length d0 <= List.length d)%nat)); [lia|].
  intros _ i d Hd.
  apply (for_invariant
           (fun _ d' => (List.length d0 <= List.length d')%nat)); [exact Hd|].
  intros _ j d' Hd'.
  destruct (gtb _ _); [rewrite length_app; simpl; lia|exact Hd'].
Qed.

(** A far-apart pair in a bucket adds its two regions. *)
Lemma bucketDuplicates_pair l1 a l2 b l3 blockSize minDistance d0 :
  farApart a b minDistance = true ->
  (List.length d0 + 2
   <= List.length (bucketDuplicates (l1 ++ a :: l2 ++ b :: l3) blockSize
                     minDistance d0))%nat.
Proof.
  intros Far. unfold bucketDuplicates. cbv zeta.
  set (positions := l1 ++ a :: l2 ++ b :: l3).
  set (n := Z.of_nat (List.length positions)).
  set (i0 := Z.of_nat (List.length l1)).
  set (j0 := i0 + 1 + Z.of_nat (List.length l2)).
  assert (Ln : n = j0 + 1 + Z.of_nat (List.length l3)).
  { unfold n, positions, j0, i0.
    rewrite length_app. simpl. rewrite length_app. simpl. lia. }
  assert (Ga : get positions i0 = Some a).
  { unfold get, positions, i0. destruct (Z.ltb_spec (Z.of_nat (List.length l1)) 0);
      [lia|].
    rewrite Nat2Z.id, nth_error_app2 by lia.
    now rewrite Nat.sub_diag. }
  assert (Gb : get positions j0 = Some b).
  { unfold get, positions, j0, i0.
    destruct (Z.ltb_spec (Z.of_nat (List.length l1) + 1
                          + Z.of_nat (List.length l2)) 0); [lia|].
    replace (Z.to_nat (Z.of_nat (List.length l1) + 1
                       + Z.of_nat (List.length l2)))
      with (List.length l1 + S (List.length l2))%nat by lia.
    rewrite nth_error_app2 by lia.
    replace (List.length l1 + S (List.length l2) - List.length l1)%nat
      with (S (List.length l2)) by lia.
    simpl. rewrite nth_error_app2 by lia. now rewrite Nat.sub_diag. }
  destruct (Z.ltb_spec 1 n); [|lia].
  assert (G : (fun done d =>
                 (List.length d0 <= List.length d)%nat
                 /\ (In i0 done -> (List.length d0 + 2 <= List.length d)%nat))
              (range 0 n)
              (for_ 0 n (fun i d =>
                 for_ (i + 1) n (fun j d =>
                   let pos k := match get positions k with
                                | Some p => p
                                | None => (0, 0)
                                end in
                   let dx := fst (pos i) - fst (pos j) in
                   let dy := snd (pos i) - snd (pos j) in
                   let distance := Math_sqrt (Z2F (dx * dx + dy * dy)) in
                   if gtb distance (Z2F minDistance) then
                     d ++ [mkRegion (fst (pos i)) (snd (pos i)) blockSize None;
                           mkRegion (fst (pos j)) (snd (pos j)) blockSize None]
                   else d) d) d0)).
  { apply for_invariant; [split; [lia|intros []]|].
    intros done i d (Hd & Hi).
    assert (Inner : (fun done' d' =>
                       (List.length d <= List.length d')%nat
                       /\ (i = i0 -> In j0 done' ->
                           (List.length d + 2 <= List.length d')%nat))
                    (range (i + 1) n)
                    (for_ (i + 1) n (fun j d =>
                       let pos k := match get positions k with
                                    | Some p => p
                                    | None => (0, 0)
                                    end in
                       let dx := fst (pos i) - fst (pos j) in
                       let dy := snd (pos i) - snd (pos j) in
                       let distance := Math_sqrt (Z2F (dx * dx + dy * dy)) in
                       if gtb distance (Z2F minDistance) then
                         d ++ [mkRegion (fst (pos i)) (snd (pos i)) blockSize
                                 None;
                               mkRegion (fst (pos j)) (snd (pos j)) blockSize
                                 None]
                       else d) d)).
    { apply for_invariant; [split; [lia|intros _ []]|].
      intros done' j d' (Hd' & Hj). cbv zeta. split.
      - destruct (gtb _ _); [rewrite length_app; simpl|]; lia.
      - intros Ei Hin. apply in_app_or in Hin as [Hin | [Ej | []]].
        + specialize (Hj Ei Hin).
          destruct (gtb _ _); [rewrite length_app; simpl|]; lia.
        + rewrite Ei, Ej, Ga, Gb. unfold farApart in Far.
          cbv zeta in Far. rewrite Far. rewrite length_app. simpl. lia. }
    destruct Inner as (I1 & I2). split; [lia|].
    intros Hin. apply in_app_or in Hin as [Hin | [Ei | []]].
    - specialize (Hi Hin). lia.
    - assert (Hj0 : In j0 (range (i + 1) n))
        by (apply In_range; rewrite Ei; lia).
      specialize (I2 Ei Hj0). lia. }
  apply G. apply In_range. unfold i0. lia.
Qed.

Lemma In_two_split {A} (a b : A) l :
  In a l -> In b l -> a <> b ->
  exists l1 l2 l3,
    l = l1 ++ a :: l2 ++ b :: l3 \/ l = l1 ++ b :: l2 ++ a :: l3.
Proof.
  intros Ha Hb N. apply in_split in Ha as (l1 & l2 & ->).
  apply in_app_or in Hb as [Hb | [Hb | Hb]]; [|congruence|].
  - apply in_split in Hb as (m1 & m2 & ->).
    exists m1, m2, l2. right. now rewrite <- app_assoc.
  - apply in_split in Hb as (m1 & m2 & ->).
    exists l1, m1, m2. now left.
Qed.

Lemma farApart_sym a b minDistance :
  farApart a b minDistance = farApart b a minDistance.
Proof.
  unfold farApart. cbv zeta. do 3 f_equal. ring.
Qed.

Lemma duplicates_grow blockSize minDistance (m : HashMap) d0 :
  (List.length d0
   <= List.length
        (fold_left (fun duplicateRegions '(_, positions) =>
                      bucketDuplicates positions blockSize minDistance
                        duplicateRegions) m d0))%nat.
Proof.
  revert d0. induction m as [|[k ps] m IH]; intros d0; simpl; [lia|].
  etransitivity; [|apply IH]. apply bucketDuplicates_grows.
Qed.

(** ** Clone detection: what is reported *)

Lemma ForallOrdPairs_weaken {A} (R R' : A -> A -> Prop) l :
  (forall a b, R a b -> R' a b) ->
  ForallOrdPairs R l -> ForallOrdPairs R' l.
Proof.
  intros H. induction 1 as [|a l Ha Hl IH]; constructor; [|exact IH].
  eapply Forall_impl; [|exact Ha]. intros b. apply H.
Qed.

(** Evaluates the comparisons of detail keys. *)
Ltac eval_keys :=
  repeat match goal with
  | |- context [String.eqb ?a ?b] =>
      let v := eval vm_compute in (String.eqb a b) in
      change (String.eqb a b) with v
  end.

(** The regions collected from the buckets, before de-duplication, are
    blocks at sampled positions. *)
Lemma duplicateRegions_sampled imageData blocksX blocksY step blockSize
    minDistance r :
  In r (fold_left (fun duplicateRegions '(_, positions) =>
                     bucketDuplicates positions blockSize minDistance
                       duplicateRegions)
          (buildHashMap imageData blocksX blocksY step blockSize) []) ->
  r_width r = blockSize /\ r_height r = blockSize /\ r_label r = None
  /\ exists bx by_,
       0 <= bx < blocksX /\ 0 <= by_ < blocksY
       /\ r_x r = bx * step /\ r_y r = by_ * step.
Proof.
  set (Q := fun r : Region =>
    r_width r = blockSize /\ r_height r = blockSize /\ r_label r = None
    /\ exists bx by_,
         0 <= bx < blocksX /\ 0 <= by_ < blocksY
         /\ r_x r = bx * step /\ r_y r = by_ * step).
  revert r.
  apply (fold_left_invariant_in
           (fun _ d => forall r, In r d -> Q r)); [intros r []|].
  intros _ [k ps] d Hk Hd.
  apply bucketDuplicates_regions; [exact Hd|].
  intros p Hp. apply buildHashMap_buckets in Hk. subst ps.
  apply filter_In in Hp as (Hp & _).
  apply In_scanPositions in Hp as (bx & by_ & Hx & Hy & ->).
  unfold Q. cbn. repeat split; try reflexivity. now exists bx, by_.
Qed.

(** X24.  When the clone scan runs, every region it reports is a block
    of the scan's block size at a sampled position (a multiple of the
    stride on both axes), unlabelled, and lies inside the image; no two
    reported regions overlap; the 'Matches Found' detail is their number,
    and the status is 'ok' for none, 'info' for one to ten and 'warn' for
    more than ten. *)
Theorem checkCloneDetection_regions
    (file : ImageFile) (deepScan : bool) :
  let blockSize := cloneBlockSize deepScan in
  let step := cloneStep deepScan in
  let r := checkCloneDetection file deepScan in
  match regions r with
  | None => True
  | Some found =>
      (forall region, In region found ->
         r_width region = blockSize /\ r_height region = blockSize
         /\ r_label region = None
         /\ (exists bx by_,
               r_x region = bx * step /\ r_y region = by_ * step)
         /\ 0 <= r_x region /\ r_x region + blockSize <= width file
         /\ 0 <= r_y region /\ r_y region + blockSize <= height file)
      /\ ForallOrdPairs
           (fun a b => blockSize <= Z.abs (r_x b - r_x a)
                       \/ blockSize <= Z.abs (r_y b - r_y a)) found
      /\ lookup "Matches Found" (details r)
         = Some (DNum (Z2F (Z.of_nat (List.length found))))
      /\ status r
         = (if 10 <? Z.of_nat (List.length found) then warn
            else if 0 <? Z.of_nat (List.length found) then info
            else ok)
  end.
Proof.
  cbv zeta. unfold checkCloneDetection. cbv zeta.
  fold (cloneBlockSize deepScan). fold (cloneStep deepScan).
  set (blockSize := cloneBlockSize deepScan).
  set (step := cloneStep deepScan).
  set (blocksX := floorDiv (width file - blockSize) step).
  set (blocksY := floorDiv (height file - blockSize) step).
  destruct ((blocksX <? 4) || (blocksY <? 4)); [exact I|].
  set (duplicates :=
         fold_left (fun duplicateRegions '(_, positions) =>
                      bucketDuplicates positions blockSize (blockSize * 2)
                        duplicateRegions)
           (buildHashMap (imageData file) blocksX blocksY step blockSize) []).
  destruct (deduplicateRegions_facts duplicates blockSize)
    as (Sub & Sep & _ & _).
  set (unique := deduplicateRegions duplicates blockSize) in *.
  assert (Facts :
    (forall region, In region unique ->
       r_width region = blockSize /\ r_height region = blockSize
       /\ r_label region = None
       /\ (exists bx by_,
             r_x region = bx * step /\ r_y region = by_ * step)
       /\ 0 <= r_x region /\ r_x region + blockSize <= width file
       /\ 0 <= r_y region /\ r_y region + blockSize <= height file)
    /\ ForallOrdPairs
         (fun a b => blockSize <= Z.abs (r_x b - r_x a)
                     \/ blockSize <= Z.abs (r_y b - r_y a)) unique).
  { split.
    - intros region Hr. apply Sub in Hr.
      apply duplicateRegions_sampled in Hr
        as (W & H & L & bx & by_ & Hx & Hy & Ex & Ey).
      split; [exact W|]. split; [exact H|]. split; [exact L|].
      split; [now exists bx, by_|].
      assert (Sx : step * blocksX <= width file - blockSize)
        by (apply Z.mul_div_le; unfold step, cloneStep;
            destruct deepScan; lia).
      assert (Sy : step * blocksY <= height file - blockSize)
        by (apply Z.mul_div_le; unfold step, cloneStep;
            destruct deepScan; lia).
      rewrite Ex, Ey. unfold step, cloneStep in *.
      destruct deepScan; lia.
    - eapply ForallOrdPairs_weaken; [|exact Sep].
      intros a b. unfold nearRegion. cbv beta.
      destruct (Z.ltb_spec (Z.abs (r_x b - r_x a)) blockSize);
        destruct (Z.ltb_spec (Z.abs (r_y b - r_y a)) blockSize);
        cbn [andb]; intros; try discriminate; auto. }
  destruct Facts as (F1 & F2).
  destruct (10 <? Z.of_nat (List.length unique)) eqn:T10;
    [|destruct (0 <? Z.of_nat (List.length unique)) eqn:T0];
    cbv beta iota; cbn [regions details status lookup]; eval_keys;
    cbv iota; rewrite ?T10, ?T0;
    (split; [exact F1|]); (split; [exact F2|]); split; reflexivity.
Qed.

(** X25.  The clone scan never misses a copy it can see: when two sampled
    blocks have the same hash (as two blocks with the same pixels do) and
    lie farther apart than twice the block size, the scan reports at least
    one region and does not answer 'ok'. *)
Theorem checkCloneDetection_finds_equal_blocks
    (file : ImageFile) (deepScan : bool) (bx1 by1 bx2 by2 : Z)
    (enough : 4 <= cloneBlocks deepScan (width file)
              /\ 4 <= cloneBlocks deepScan (height file))
    (sampled1 : 0 <= bx1 < cloneBlocks deepScan (width file)
                /\ 0 <= by1 < cloneBlocks deepScan (height file))
    (sampled2 : 0 <= bx2 < cloneBlocks deepScan (width file)
                /\ 0 <= by2 < cloneBlocks deepScan (height file))
    (sameHash :
       hashBlock (imageData file) (bx1 * cloneStep deepScan)
         (by1 * cloneStep deepScan) (cloneBlockSize deepScan)
       = hashBlock (imageData file) (bx2 * cloneStep deepScan)
           (by2 * cloneStep deepScan) (cloneBlockSize deepScan))
    (far : farApart (bx1 * cloneStep deepScan, by1 * cloneStep deepScan)
             (bx2 * cloneStep deepScan, by2 * cloneStep deepScan)
             (cloneBlockSize deepScan * 2) = true) :
  status (checkCloneDetection file deepScan) <> ok
  /\ exists region more,
       regions (checkCloneDetection file deepScan) = Some (region :: more).
Proof.
  unfold checkCloneDetection. cbv zeta.
  fold (cloneBlockSize deepScan). fold (cloneStep deepScan).
  fold (cloneBlocks deepScan (width file)).
  fold (cloneBlocks deepScan (height file)).
  set (blockSize := cloneBlockSize deepScan) in *.
  set (step := cloneStep deepScan) in *.
  set (blocksX := cloneBlocks deepScan (width file)) in *.
  set (blocksY := cloneBlocks deepScan (height file)) in *.
  destruct (Z.ltb_spec blocksX 4); [lia|].
  destruct (Z.ltb_spec blocksY 4); [lia|]. cbn [orb].
  set (p1 := (bx1 * step, by1 * step)) in *.
  set (p2 := (bx2 * step, by2 * step)) in *.
  set (hash := fun p : Z * Z =>
                 hashBlock (imageData file) (fst p) (snd p) blockSize).
  set (scan := scanPositions blocksX blocksY step).
  set (bucket := filter (fun p => hash p =? hash p1) scan).
  assert (I1 : In p1 bucket).
  { apply filter_In. split; [|apply Z.eqb_refl].
    apply In_scanPositions. now exists bx1, by1. }
  assert (I2 : In p2 bucket).
  { apply filter_In. split.
    - apply In_scanPositions. now exists bx2, by2.
    - apply Z.eqb_eq. unfold hash, p1, p2. cbn [fst snd]. now symmetry. }
  assert (N : p1 <> p2).
  { intros E. unfold farApart in far. cbv zeta in far. rewrite <- E in far.
    rewrite !Z.sub_diag in far. unfold blockSize, cloneBlockSize in far.
    destruct deepScan; vm_compute in far; discriminate. }
  assert (B : bucketOf (buildHashMap (imageData file) blocksX blocksY step
                          blockSize) (hash p1) = bucket).
  { rewrite buildHashMap_scan. apply (bucketOf_scan hash scan [] (hash p1)). }
  assert (M : In (hash p1, bucket)
                (buildHashMap (imageData file) blocksX blocksY step
                   blockSize)).
  { rewrite <- B. apply bucketOf_In. rewrite B. intros E.
    rewrite E in I1. destruct I1. }
  set (duplicates :=
         fold_left (fun duplicateRegions '(_, positions) =>
                      bucketDuplicates positions blockSize (blockSize * 2)
                        duplicateRegions)
           (buildHashMap (imageData file) blocksX blocksY step blockSize) []).
  assert (L : (2 <= List.length duplicates)%nat).
  { unfold duplicates. apply in_split in M as (m1 & m2 & ->).
    rewrite fold_left_app. cbn [fold_left].
    etransitivity; [|apply duplicates_grow].
    destruct (In_two_split p1 p2 bucket I1 I2 N) as (l1 & l2 & l3 & [E|E]);
      rewrite E.
    - etransitivity; [|apply bucketDuplicates_pair; exact far]. lia.
    - etransitivity;
        [|apply bucketDuplicates_pair; rewrite farApart_sym; exact far].
      lia. }
  destruct duplicates as [|region rest] eqn:D; [simpl in L; lia|].
  destruct (deduplicateRegions_facts (region :: rest) blockSize)
    as (_ & _ & _ & First).
  destruct (First region rest eq_refl) as (more & U). rewrite U.
  assert (P : 0 < Z.of_nat (List.length (region :: more)))
    by (simpl; lia).
  destruct (10 <? Z.of_nat (List.length (region :: more)));
    [split; [discriminate|now exists region, more]|].
  destruct (Z.ltb_spec 0 (Z.of_nat (List.length (region :: more))));
    [|lia].
  split; [discriminate|now exists region, more].
Qed.

(** A 48x48 image of one gray level under the deep scan: the blocks at
    (0, 0) and (24, 24) carry the same pixels. *)
Lemma checkCloneDetection_finds_equal_blocks_witness :
  status (checkCloneDetection grayField48 true) <> ok
  /\ exists region more,
       regions (checkCloneDetection grayField48 true)
       = Some (region :: more).
Proof.
  apply (checkCloneDetection_finds_equal_blocks grayField48 true 0 0 3 3).
  - vm_compute. split; discriminate.
  - vm_compute. repeat split; discriminate.
  - vm_compute. repeat split; discriminate.
  - vm_compute. reflexivity.
  - vm_compute. reflexivity.
Defined.

(** ** Noise check: what is reported *)

(** A loop that pushes one value per index onto two arrays. *)
Lemma for_push_both {A} (f : Z -> A) lo hi
    (body : Z -> list A * list A -> list A * list A) a0 b0 :
  (forall i a b, body i (a, b) = (a ++ [f i], b ++ [f i])) ->
  for_ lo hi body (a0, b0)
  = (a0 ++ map f (range lo hi), b0 ++ map f (range lo hi)).
Proof.
  intros H.
  apply (for_invariant (fun done s => s = (a0 ++ map f done,
                                           b0 ++ map f done))).
  - now rewrite !app_nil_r.
  - intros done i s ->. rewrite H, !map_app, !app_assoc. reflexivity.
Qed.

(** A loop that pushes a row onto a matrix and its cells onto a flat
    array. *)
Lemma for_push_rows {A} (g : Z -> list A) lo hi
    (body : Z -> list A * list (list A) -> list A * list (list A)) a0 b0 :
  (forall i a b, body i (a, b) = (a ++ g i, b ++ [g i])) ->
  for_ lo hi body (a0, b0)
  = (a0 ++ flat_map g (range lo hi), b0 ++ map g (range lo hi)).
Proof.
  intros H.
  apply (for_invariant (fun done s => s = (a0 ++ flat_map g done,
                                           b0 ++ map g done))).
  - now rewrite !app_nil_r.
  - intros done i s ->.
    rewrite H, flat_map_app, map_app, !app_assoc. cbn [flat_map map].
    now rewrite app_nil_r.
Qed.

(** A loop that appends to an array at every index. *)
Lemma for_append {A} (g : Z -> list A) lo hi
    (body : Z -> list A -> list A) a0 :
  (forall i a, lo <= i < hi -> body i a = a ++ g i) ->
  for_ lo hi body a0 = a0 ++ flat_map g (range lo hi).
Proof.
  intros H.
  apply (for_invariant_in (fun done s => s = a0 ++ flat_map g done)).
  - now rewrite app_nil_r.
  - intros done i s Hi ->.
    rewrite (H i _ Hi), flat_map_app, !app_assoc. cbn [flat_map].
    now rewrite app_nil_r.
Qed.

Lemma get_map_range {A} (f : Z -> A) n i :
  0 <= i < n -> get (map f (range 0 n)) i = Some (f i).
Proof.
  intros H. unfold get. destruct (Z.ltb_spec i 0); [lia|].
  unfold range. rewrite map_map, nth_error_map, nth_error_seq.
  destruct (Nat.ltb_spec (Z.to_nat i) (Z.to_nat (n - 0))); [|lia].
  cbn. do 2 f_equal. lia.
Qed.

Lemma length_flat_map_le {A B} (g : A -> list B) l k :
  (forall x, (List.length (g x) <= k)%nat) ->
  (List.length (flat_map g l) <= List.length l * k)%nat.
Proof.
  intros H. induction l as [|x l IH]; [apply Nat.le_refl|].
  cbn [flat_map List.length]. rewrite length_app.
  specialize (H x). lia.
Qed.

Lemma length_blockEnergiesOf laplacian width blocksX blocksY :
  List.length (blockEnergiesOf laplacian width blocksX blocksY)
  = (Z.to_nat blocksY * Z.to_nat blocksX)%nat.
Proof.
  unfold blockEnergiesOf.
  assert (G : forall l : list Z,
             List.length
               (flat_map (fun by_ =>
                            map (fun bx => blockEnergy laplacian width bx by_)
                                (range 0 blocksX)) l)
             = (List.length l * Z.to_nat blocksX)%nat).
  { induction l as [|y l IH]; [reflexivity|].
    cbn [flat_map List.length]. rewrite length_app, length_map, length_range, IH.
    lia. }
  rewrite G, length_range. f_equal. lia.
Qed.

(** The two loops of the noise check in closed form. *)
Lemma checkNoiseConsistency_loops
    (fmt : Format) (heatmap : list float -> Z -> Z -> bool -> ImageData)
    (file : ImageFile) :
  let blocksX := floorDiv (width file) 32 in
  let blocksY := floorDiv (height file) 32 in
  let laplacian := applyLaplacian (imageData file) in
  let energies := blockEnergiesOf laplacian (width file) blocksX blocksY in
  let found :=
    flat_map (fun by_ =>
                flat_map (fun bx =>
                            outlierAt energies laplacian (width file) bx by_)
                         (range 0 blocksX))
             (range 0 blocksY) in
  let r := checkNoiseConsistencyWith heatmap file in
  if (blocksX <? 3) || (blocksY <? 3) then regions r = None
  else
    regions r = Some found
    /\ lookup "Blocks Analyzed" (details r)
       = Some (DNum (nat2F (List.length energies)))
    /\ lookup "Outlier Blocks" (details r)
       = Some (DNum (nat2F (List.length found))).
Proof.
  cbv zeta. unfold checkNoiseConsistencyWith. cbv zeta.
  set (blocksX := floorDiv (width file) 32).
  set (blocksY := floorDiv (height file) 32).
  set (laplacian := applyLaplacian (imageData file)).
  destruct ((blocksX <? 3) || (blocksY <? 3)); [reflexivity|].
  match goal with
  | |- context [for_ 0 blocksY ?body (@nil float, @nil (list float))] =>
      rewrite (for_push_rows
                 (fun by_ => map (fun bx =>
                                    blockEnergy laplacian (width file) bx by_)
                                 (range 0 blocksX))
                 0 blocksY body [] [])
  end.
  2:{ intros by_ be bm. cbv beta iota.
      match goal with
      | |- context [for_ 0 blocksX ?body (be, @nil float)] =>
          rewrite (for_push_both
                     (fun bx => blockEnergy laplacian (width file) bx by_)
                     0 blocksX body be [])
      end; [reflexivity|].
      intros bx a b. cbv beta iota. unfold blockEnergy. cbv zeta.
      match goal with
      | |- context [let '(_, _) := ?e in _] => destruct e as [energy count]
      end.
      reflexivity. }
  cbv beta iota. cbn [app].
  fold (blockEnergiesOf laplacian (width file) blocksX blocksY).
  set (energies := blockEnergiesOf laplacian (width file) blocksX blocksY).
  match goal with
  | |- context [for_ 0 blocksY ?body (@nil Region)] =>
      rewrite (for_append
                 (fun by_ =>
                    flat_map (fun bx =>
                                outlierAt energies laplacian (width file)
                                  bx by_)
                             (range 0 blocksX))
                 0 blocksY body [])
  end.
  2:{ intros by_ d Hy.
      apply (for_append
               (fun bx => outlierAt energies laplacian (width file) bx by_)).
      intros bx d' Hx. cbv beta.
      rewrite (get_map_range _ blocksY by_ Hy).
      rewrite (get_map_range _ blocksX bx Hx). cbn [num].
      unfold outlierAt, zScoreOf. cbv zeta.
      match goal with
      | |- context [if ?c then d' ++ _ else d'] => destruct c
      end; [reflexivity|now rewrite app_nil_r]. }
  cbn [app].
  match goal with
  | |- context [if gtb ?ratio 0.15 then _ else _] =>
      destruct (gtb ratio 0.15); [|destruct (gtb ratio 0.05)]
  end;
    cbv beta iota; cbn [regions details lookup]; eval_keys; cbv iota;
    repeat split.
Qed.

Lemma In_outlierAt (fmt : Format) energies laplacian width bx by_ region :
  In region (outlierAt energies laplacian width bx by_) <->
  let zScore := zScoreOf energies (blockEnergy laplacian width bx by_) in
  gtb zScore 2.5 = true
  /\ region = mkRegion (bx * 32) (by_ * 32) 32
                (Some ("Z-score: " ++ toFixed zScore 1)%string).
Proof.
  unfold outlierAt. cbv zeta.
  destruct (gtb _ 2.5); cbn [In].
  - split; [intros [<- | []]; now split|intros (_ & ->); now left].
  - split; [intros []|intros (H & _); discriminate].
Qed.

(** X26.  The noise check is skipped when the image has fewer than three
    32x32 blocks on an axis.  Otherwise it analyses every block of the
    grid (the 'Blocks Analyzed' detail is the number of grid blocks), and
    a block is flagged exactly when its z-score, the distance of its
    average Laplacian energy from the mean of all block energies in
    units of their standard deviation, exceeds 2.5.  Every flagged region
    is such a block: 32 pixels wide and high, at a multiple of 32 on both
    axes, inside the image, and labelled with its own z-score, "Z-score:
    " followed by the score printed with one decimal.  The flagged
    regions are at most as many as the blocks, and the 'Outlier Blocks'
    detail is their number. *)
Theorem checkNoiseConsistency_regions
    (fmt : Format) (heatmap : list float -> Z -> Z -> bool -> ImageData)
    (file : ImageFile) :
  let blocksX := floorDiv (width file) 32 in
  let blocksY := floorDiv (height file) 32 in
  let laplacian := applyLaplacian (imageData file) in
  let energies := blockEnergiesOf laplacian (width file) blocksX blocksY in
  let zScore bx by_ :=
    zScoreOf energies (blockEnergy laplacian (width file) bx by_) in
  let flagged bx by_ :=
    mkRegion (bx * 32) (by_ * 32) 32
      (Some ("Z-score: " ++ toFixed (zScore bx by_) 1)%string) in
  let r := checkNoiseConsistencyWith heatmap file in
  if (blocksX <? 3) || (blocksY <? 3) then regions r = None
  else
    exists found,
      regions r = Some found
      /\ (forall region, In region found ->
            r_width region = 32 /\ r_height region = 32
            /\ (exists bx by_,
                  0 <= bx < blocksX /\ 0 <= by_ < blocksY
                  /\ r_x region = bx * 32 /\ r_y region = by_ * 32
                  /\ gtb (zScore bx by_) 2.5 = true
                  /\ r_label region
                     = Some ("Z-score: " ++ toFixed (zScore bx by_) 1)%string)
            /\ 0 <= r_x region /\ r_x region + 32 <= width file
            /\ 0 <= r_y region /\ r_y region + 32 <= height file)
      /\ (forall bx by_, 0 <= bx < blocksX -> 0 <= by_ < blocksY ->
            gtb (zScore bx by_) 2.5 = true -> In (flagged bx by_) found)
      /\ Z.of_nat (List.length found) <= blocksX * blocksY
      /\ lookup "Blocks Analyzed" (details r)
         = Some (DNum (Z2F (blocksX * blocksY)))
      /\ lookup "Outlier Blocks" (details r)
         = Some (DNum (Z2F (Z.of_nat (List.length found)))).
Proof.
  cbv zeta.
  pose proof (checkNoiseConsistency_loops fmt heatmap file) as H.
  cbv zeta in H.
  set (blocksX := floorDiv (width file) 32) in *.
  set (blocksY := floorDiv (height file) 32) in *.
  set (laplacian := applyLaplacian (imageData file)) in *.
  set (energies :=
         blockEnergiesOf laplacian (width file) blocksX blocksY) in *.
  destruct (Z.ltb_spec blocksX 3) as [|BX]; [exact H|].
  destruct (Z.ltb_spec blocksY 3) as [|BY]; [exact H|].
  cbn [orb] in *.
  destruct H as (R & DA & DO).
  set (found :=
         flat_map (fun by_ =>
                     flat_map (fun bx =>
                                 outlierAt energies laplacian (width file)
                                   bx by_)
                              (range 0 blocksX))
                  (range 0 blocksY)) in *.
  assert (Sx : 32 * blocksX <= width file)
    by (apply Z.mul_div_le; lia).
  assert (Sy : 32 * blocksY <= height file)
    by (apply Z.mul_div_le; lia).
  exists found. split; [exact R|]. split; [|split; [|split; [|split]]].
  - intros region Hr. unfold found in Hr.
    apply in_flat_map in Hr as (by_ & Hy & Hr).
    apply in_flat_map in Hr as (bx & Hx & Hr).
    apply In_range in Hx, Hy.
    apply In_outlierAt in Hr. cbv zeta in Hr. destruct Hr as (Hz & ->).
    cbn [mkRegion r_x r_y r_width r_height r_label].
    split; [reflexivity|]. split; [reflexivity|].
    split; [exists bx, by_; repeat split; try lia; exact Hz|]. lia.
  - intros bx by_ Hx Hy Hz. unfold found.
    apply in_flat_map. exists by_. split; [now apply In_range|].
    apply in_flat_map. exists bx. split; [now apply In_range|].
    apply In_outlierAt. cbv zeta. now split.
  - assert (L : (List.length found
                 <= List.length (range 0 blocksY) * Z.to_nat blocksX)%nat).
    { unfold found. apply length_flat_map_le. intros by_.
      etransitivity.
      - apply (length_flat_map_le _ _ 1%nat). intros bx.
        unfold outlierAt. cbv zeta. destruct (gtb _ 2.5); simpl; lia.
      - rewrite length_range. lia. }
    rewrite length_range in L. nia.
  - rewrite DA. unfold energies, nat2F.
    rewrite length_blockEnergiesOf. do 3 f_equal. nia.
  - exact DO.
Qed.

(** ** Statistics helpers *)

Lemma binary_round_aux_sign sx mx ex lx :
  match binary_round_aux prec emax sx mx ex lx with
  | S754_zero s | S754_infinity s | S754_finite s _ _ => s = sx
  | S754_nan => True
  end.
Proof.
  unfold binary_round_aux.
  destruct (shr_fexp prec emax mx ex lx) as [mrs' e'].
  destruct (shr_fexp prec emax _ e' loc_Exact) as [mrs'' e''].
  destruct (shr_m mrs''); try reflexivity.
  destruct (e'' <=? emax - prec); reflexivity.
Qed.

(** A square root is NaN or not below zero. *)
Lemma sqrt_nonneg (x : float) :
  is_nan (Math_sqrt x) = true \/ PrimFloat.leb 0 (Math_sqrt x) = true.
Proof.
  unfold is_nan, Math_sqrt.
  rewrite FloatAxioms.eqb_spec, leb_spec, sqrt_spec.
  change (Prim2SF 0) with (S754_zero false).
  unfold SF64sqrt, SFsqrt.
  destruct (Prim2SF x) as [s|s| |s m e].
  - right. now destruct s.
  - destruct s; [now left|now right].
  - now left.
  - destruct s; [now left|].
    destruct (SFsqrt_core_binary prec emax (Z.pos m) e) as [[mz ez] lz].
    pose proof (binary_round_aux_sign false mz ez lz) as S.
    destruct (binary_round_aux prec emax false mz ez lz) as [s|s| |s m' e'];
      try subst s; [now right|now right|now left|now right].
Qed.

(** X27.  The standard deviation is never negative: it is 0 for an
    empty list and otherwise the square root of the mean squared
    deviation, which is NaN (when a value is NaN or infinite) or a number
    not below 0. *)
Theorem standardDeviation_nonneg (values : list float) :
  (values = [] -> standardDeviation values = 0%float)
  /\ (is_nan (standardDeviation values) = true
      \/ PrimFloat.leb 0 (standardDeviation values) = true).
Proof.
  split; [intros ->; reflexivity|].
  unfold standardDeviation.
  destruct (List.length values =? 0)%nat; [now right|].
  cbv zeta. apply sqrt_nonneg.
Qed.

(** ** Orchestrator: the verdict is monotone *)

Lemma countStatus_le s l more :
  (countStatus s l <= countStatus s (l ++ more))%nat.
Proof. rewrite countStatus_app. lia. Qed.

(** X28.  Further check results never make a verdict milder: the
    verdict computed from a list of checks extended by any other check
    results is at least as severe (clean, then review, then suspicious)
    as the verdict of the list itself.  Results of status 'ok' or 'info'
    leave the verdict unchanged. *)
Theorem verdict_monotone (allChecks more : list CheckResult) :
  (severity (determineOverall (summarize allChecks))
   <= severity (determineOverall (summarize (allChecks ++ more))))%nat
  /\ ((forall c, In c more -> status c = ok \/ status c = info) ->
      determineOverall (summarize (allChecks ++ more))
      = determineOverall (summarize allChecks)).
Proof.
  unfold determineOverall, summarize. cbn [failCount warnCount].
  split.
  - pose proof (countStatus_le fail allChecks more) as F.
    pose proof (countStatus_le warn allChecks more) as W.
    destruct (Nat.ltb_spec 0 (countStatus fail allChecks));
      destruct (Nat.ltb_spec 0 (countStatus fail (allChecks ++ more)));
      destruct (Nat.leb_spec 3 (countStatus warn allChecks));
      destruct (Nat.leb_spec 3 (countStatus warn (allChecks ++ more)));
      destruct (Nat.ltb_spec 0 (countStatus warn allChecks));
      destruct (Nat.ltb_spec 0 (countStatus warn (allChecks ++ more)));
      cbn [orb severity]; lia.
  - intros H. rewrite !countStatus_app.
    rewrite (countStatus_none fail more), (countStatus_none warn more),
      !Nat.add_0_r; [reflexivity| |];
      intros c Hc E; destruct (H c Hc); congruence.
Qed.

(** ** Error-level analysis of an unchanged image *)

Lemma sub_self_byte (b : byte) :
  Math_abs (byte2F b - byte2F b)%float = 0%float.
Proof. destruct b; reflexivity. Qed.

Lemma set_nat_same_value {A} (l : list A) i v :
  nth_error l i = Some v -> set_nat l i v = l.
Proof.
  revert i. induction l as [|h t IH]; intros [|i] H; simpl in *;
    try discriminate.
  - now injection H as ->.
  - now rewrite IH.
Qed.

Lemma set_same_value {A} (l : list A) i v :
  get l i = Some v -> set l i v = l.
Proof.
  unfold get, set. destruct (i <? 0); [discriminate|].
  apply set_nat_same_value.
Qed.

(** The difference loop on two equal buffers leaves its three
    accumulators at zero. *)
Lemma elaDiffs_same data n :
  4 * n <= Z.of_nat (List.length data) ->
  elaDiffs data data n = (Float32Array n, 0%float, 0%float).
Proof.
  intros H. unfold elaDiffs.
  apply (for_invariant_in
           (fun _ s => s = (Float32Array n, 0%float, 0%float)));
    [reflexivity|].
  intros _ i s Hi ->. cbv beta iota zeta.
  destruct (get_in_range data (i * 4 + 0) ltac:(lia)) as (r & ->).
  destruct (get_in_range data (i * 4 + 1) ltac:(lia)) as (g & ->).
  destruct (get_in_range data (i * 4 + 2) ltac:(lia)) as (b & ->).
  cbn [numByte]. rewrite !sub_self_byte.
  change ((0 + 0 + 0) / 3)%float with 0%float.
  change (fround 0) with 0%float.
  change (gtb 0 0) with false. cbv iota.
  change (0 + 0)%float with 0%float.
  rewrite set_same_value; [reflexivity|].
  apply get_Float32Array. lia.
Qed.

(** Zero divided by anything is a zero or NaN. *)
Lemma zero_div (y : float) :
  (0 / y)%float = 0%float \/ (0 / y)%float = (-0)%float
  \/ (0 / y)%float = nan.
Proof.
  rewrite <- (SF2Prim_Prim2SF (0 / y)%float), div_spec.
  change (Prim2SF 0) with (S754_zero false).
  destruct (Prim2SF y) as [s|s| |s m e]; try destruct s; cbn; auto.
Qed.

Lemma nan_div (y : float) : (nan / y)%float = nan.
Proof.
  rewrite <- (SF2Prim_Prim2SF (nan / y)%float), div_spec.
  change (Prim2SF nan) with S754_nan.
  destruct (Prim2SF y) as [s|s| |s m e]; reflexivity.
Qed.

Lemma variance_of_zeros (avg : float) n :
  avg = 0%float \/ avg = (-0)%float \/ avg = nan ->
  let variance :=
    fold_left (fun variance d => (variance + Math_pow2 (d - avg))%float)
      (repeat 0%float n) 0%float in
  variance = 0%float \/ variance = nan.
Proof.
  intros H. cbv zeta.
  assert (G : forall v, v = 0%float \/ v = nan ->
            let r := (v + Math_pow2 (0 - avg))%float in
            r = 0%float \/ r = nan).
  { intros v [-> | ->]; destruct H as [-> | [-> | ->]]; cbv zeta;
      (now left) || (now right). }
  assert (K : forall v, v = 0%float \/ v = nan ->
            fold_left (fun variance d =>
                         (variance + Math_pow2 (d - avg))%float)
              (repeat 0%float n) v = 0%float
            \/ fold_left (fun variance d =>
                            (variance + Math_pow2 (d - avg))%float)
                 (repeat 0%float n) v = nan).
  { induction n as [|n IH]; intros v Hv; [exact Hv|].
    simpl. apply IH, G, Hv. }
  apply K. now left.
Qed.

(** X29.  Error-level analysis of an image against itself finds nothing:
    when the re-encoded buffer equals the original (and holds all
    [width * height] pixels), the maximum difference is 0 and the status
    is 'info', never 'warn'. *)
Theorem elaAnalyze_identical
    (fmt : Format) (file : ImageFile)
    (complete : 4 * (width file * height file)
                <= Z.of_nat (List.length (i_data (imageData file)))) :
  let r := elaAnalyze file (imageData file) in
  status r = info
  /\ summary r = "ELA shows relatively uniform error levels"
  /\ lookup "Max Difference" (details r) = Some (DStr (toFixed 0 2)).
Proof.
  cbv zeta. unfold elaAnalyze. cbv zeta.
  rewrite (elaDiffs_same _ _ complete).
  set (n := width file * height file).
  set (avg := (0 / Z2F n)%float).
  set (variance :=
         fold_left (fun variance d => (variance + Math_pow2 (d - avg))%float)
           (Float32Array n) 0%float).
  assert (V : gtb (Math_sqrt (variance
                               / nat2F (List.length (Float32Array n)))%float)
                20 = false).
  { destruct (variance_of_zeros avg (Z.to_nat n) (zero_div (Z2F n)))
      as [E | E]; fold (Float32Array n) in E; fold variance in E;
      rewrite E.
    - destruct (zero_div (nat2F (List.length (Float32Array n))))
        as [-> | [-> | ->]]; reflexivity.
    - rewrite nan_div. reflexivity. }
  rewrite V. cbv beta iota. cbn [status summary details lookup].
  eval_keys. cbv iota. repeat split.
Qed.

(** The one-pixel sample against itself. *)
Lemma elaAnalyze_identical_witness :
  status (elaAnalyze (fmt := sampleFormat) onePixelJpeg
            (imageData onePixelJpeg)) = info.
Proof.
  apply (elaAnalyze_identical sampleFormat onePixelJpeg).
  vm_compute. discriminate.
Defined.
